(** * Dash0 MCP server: the telemetry query and normalization engine

    A shallow embedding of the Go packages [client], [logs] and [spans]
    (the HTTP result normalisation, the two query handlers, the OTLP
    flattening functions and their helpers), followed by the properties
    the specification states about them.

    Conventions of the embedding:
    - a value decoded by [encoding/json] into [interface{}] is a [json]
      tree; a Go [map[string]interface{}] is an association list read
      with [lookup] (first binding of a key);
    - a Go [string] is a [string] (a sequence of bytes);
    - [int] and [int64] are [Z] with the 64-bit wrap-around written out;
    - a [float64] is the rational it denotes ([Q]); every decoded JSON
      number is finite, and comparison and truncation of finite floats
      are exact on the denoted rationals; the two rounding operations of
      the code ([float64(int64)] and [/]) go through [SpecFloat];
    - a slice is a [list] ([nil] and the empty slice are not told apart);
    - what the Go standard library or the platform decides is a field of
      [GoRuntime];
    - an instant is its number of nanoseconds since the Unix epoch. *)

From Stdlib Require Import ZArith QArith Qround List String Ascii Bool Lia.
From Stdlib Require Import SpecFloat DecimalString.
From Stdlib Require Import Permutation Sorted.
Import ListNotations.

Local Open Scope string_scope.
Local Open Scope Z_scope.

(** ** Decoded JSON *)

#[local] Set Warnings "-register-all".

Inductive json : Type :=
| JNull
| JBool (b : bool)
| JNumber (f : Q)
| JString (s : string)
| JArray (l : list json)
| JObject (m : list (string * json)).

(** [map[string]interface{}] *)
Definition object : Type := list (string * json).

Fixpoint lookup (m : object) (k : string) : option json :=
  match m with
  | [] => None
  | (k', v) :: rest => if String.eqb k' k then Some v else lookup rest k
  end.

(** [m[k]]: the value, or the nil interface when the key is missing. *)
Definition index (m : object) (k : string) : json :=
  match lookup m k with
  | Some v => v
  | None => JNull
  end.

(** Type assertions in their comma-ok form. *)
Definition asString (v : json) : option string :=
  match v with JString s => Some s | _ => None end.

Definition asFloat64 (v : json) : option Q :=
  match v with JNumber f => Some f | _ => None end.

Definition asBool (v : json) : option bool :=
  match v with JBool b => Some b | _ => None end.

Definition asSlice (v : json) : option (list json) :=
  match v with JArray l => Some l | _ => None end.

Definition asMap (v : json) : option object :=
  match v with JObject m => Some m | _ => None end.

(** ** The parts of Go the handlers rely on *)

Module Go.

Definition int_min : Z := - 2 ^ 63.
Definition int_max : Z := 2 ^ 63 - 1.

Definition in_int (z : Z) : bool := (int_min <=? z) && (z <=? int_max).

(** Two's complement wrap-around of 64-bit signed arithmetic. *)
Definition wrap64 (z : Z) : Z := (z + 2 ^ 63) mod 2 ^ 64 - 2 ^ 63.

(** Truncation toward zero. *)
Definition trunc (f : Q) : Z := Z.quot (Qnum f) (Zpos (Qden f)).

(** [a > b] and [a >= b] on float64 values. *)
Definition fgt (a b : Q) : bool := negb (Qle_bool a b).
Definition fge (a b : Q) : bool := Qle_bool b a.

(** *** strconv *)

Definition is_digit (c : ascii) : bool :=
  let n := N.of_nat (nat_of_ascii c) in ((48 <=? n) && (n <=? 57))%N.

Definition digit_val (c : ascii) : Z := Z.of_nat (nat_of_ascii c) - 48.

Fixpoint parse_digits (s : string) (acc : Z) : option Z :=
  match s with
  | EmptyString => Some acc
  | String c rest =>
      if is_digit c then parse_digits rest (10 * acc + digit_val c) else None
  end.

(** [strconv.ParseInt(s, 10, 64)]: [Some] the value when [err == nil].
    An optional sign, then one or more decimal digits; a value outside
    the int64 range is [ErrRange]. *)
Definition ParseInt (s : string) : option Z :=
  match s with
  | EmptyString => None
  | String c rest =>
      let '(neg, ds) :=
        if Ascii.eqb c "+" then (false, rest)
        else if Ascii.eqb c "-" then (true, rest)
        else (false, s) in
      match ds with
      | EmptyString => None
      | _ =>
          match parse_digits ds 0 with
          | None => None
          | Some un =>
              let v := if neg : bool then - un else un in
              if in_int v then Some v else None
          end
      end
  end.

(** [strconv.Itoa] *)
Definition Itoa (i : Z) : string := NilEmpty.string_of_int (Z.to_int i).

(** *** strings *)

Definition is_ascii (c : ascii) : bool := (nat_of_ascii c <? 128)%nat.

Definition is_upper (c : ascii) : bool :=
  let n := nat_of_ascii c in ((65 <=? n) && (n <=? 90))%nat.

Definition lower_byte (c : ascii) : ascii :=
  if is_upper c then ascii_of_nat (nat_of_ascii c + 32) else c.

Fixpoint all_ascii (s : string) : bool :=
  match s with
  | EmptyString => true
  | String c rest => is_ascii c && all_ascii rest
  end.

Fixpoint map_bytes (f : ascii -> ascii) (s : string) : string :=
  match s with
  | EmptyString => EmptyString
  | String c rest => String (f c) (map_bytes f rest)
  end.

Fixpoint has_prefix (s p : string) : bool :=
  match p, s with
  | EmptyString, _ => true
  | String _ _, EmptyString => false
  | String b p', String a s' => Ascii.eqb a b && has_prefix s' p'
  end.

(** [strings.Contains(s, substr)] *)
Fixpoint Contains (s substr : string) : bool :=
  has_prefix s substr ||
  match s with
  | EmptyString => false
  | String _ rest => Contains rest substr
  end.

(** *** float64 arithmetic that rounds *)

Definition prec : Z := 53.
Definition emax : Z := 1024.

(** [float64(i)] for an int64 [i], round to nearest even. *)
Definition float64_of_int (i : Z) : spec_float :=
  binary_normalize prec emax i 0 false.

(** The rational a finite float denotes, in lowest terms. *)
Definition float_value (x : spec_float) : Q :=
  match x with
  | S754_finite s m e =>
      let n := if s then Zneg m else Zpos m in
      match e with
      | Z0 => inject_Z n
      | Zpos p => inject_Z (n * 2 ^ Zpos p)
      | Zneg p => Qred (Qmake n (2 ^ p)%positive)
      end
  | _ => 0%Q
  end.

End Go.

(** What the standard library and the platform decide. *)
Record GoRuntime : Type := {
  (** [int(f)] where the truncation of [f] does not fit an int64: the
      language leaves the result to the implementation. *)
  int_unrepresentable : Q -> Z;
  (** [strings.Map(unicode.ToLower, s)], the path [strings.ToLower] takes
      for a string with a byte outside ASCII. *)
  unicode_lower : string -> string;
  (** [t.Format(time.RFC3339)] and [t.Format(time.RFC3339Nano)] of a UTC
      instant. *)
  format_RFC3339 : Z -> string;
  format_RFC3339Nano : Z -> string;
  (** [json.Unmarshal] into [interface{}]: [None] when it returns an
      error. *)
  json_Unmarshal : string -> option json
}.

Section GoWithRuntime.
Variable rt : GoRuntime.

(** [int(f)] *)
Definition float64_to_int (f : Q) : Z :=
  let t := Go.trunc f in
  if Go.in_int t then t else Go.wrap64 (int_unrepresentable rt f).

(** [strings.ToLower] *)
Definition ToLower (s : string) : string :=
  if Go.all_ascii s then Go.map_bytes Go.lower_byte s
  else unicode_lower rt s.

End GoWithRuntime.

(** ** Package client *)

Module Client.

Record APIError : Type := {
  StatusCode : Z;
  Title : string;
  Detail : string
}.

(** [ToolResult], over the type of what [Data] holds ([None] is the nil
    interface). [Meta] is set on none of the paths below and is left
    out. *)
Record ToolResult (D : Type) : Type := {
  Success : bool;
  Data : option D;
  Error : option APIError
}.
Arguments Success {D} _.
Arguments Data {D} _.
Arguments Error {D} _.

Definition ErrorResult {D} (statusCode : Z) (message : string) : ToolResult D :=
  {| Success := false;
     Data := None;
     Error := Some {| StatusCode := statusCode; Title := ""; Detail := message |} |}.

Definition SuccessResult {D} (data : D) : ToolResult D :=
  {| Success := true; Data := Some data; Error := None |}.

(** The two lookups made inside a nested error object. *)
Definition detailOrMessage (m : object) : option string :=
  match asString (index m "detail") with
  | Some detail => Some detail
  | None => asString (index m "message")
  end.

(** The type switch on the value found under one key; [None] when no
    [return] is reached and the loop goes on to the next key. *)
Definition switchValue (v : json) : option string :=
  match v with
  | JString val => Some val
  | JArray val =>
      match val with
      | JString s :: _ => Some s
      | JObject em :: _ => detailOrMessage em
      | _ => None
      end
  | JObject val => detailOrMessage val
  | _ => None
  end.

(** The [for _, key := range ...] loop. *)
Fixpoint rangeKeys (m : object) (keys : list string) : string :=
  match keys with
  | [] => ""
  | key :: rest =>
      match lookup m key with
      | Some v =>
          match switchValue v with
          | Some s => s
          | None => rangeKeys m rest
          end
      | None => rangeKeys m rest
      end
  end.

Definition errorKeys : list string := ["error"; "message"; "detail"; "errors"].

Definition extractErrorDetail (result : json) : string :=
  match result with
  | JObject m => rangeKeys m errorKeys
  | _ => ""
  end.

(** What [httpClient.Do] and [io.ReadAll] hand back for one request. *)
Inductive Exchange : Type :=
| NewRequestFailed (err : string)
| DoFailed (err : string)
| ReadFailed (err : string)
| Responded (statusCode : Z) (status : string) (respBody : string).

Section Request.
Variable rt : GoRuntime.

(** The response body as [Request] parses it: nil for an empty body,
    the decoded value, or the raw string when it is not JSON. *)
Definition parseBody (respBody : string) : json :=
  if (0 <? Z.of_nat (String.length respBody)) then
    match json_Unmarshal rt respBody with
    | Some v => v
    | None => JString respBody
    end
  else JNull.

(** [Request], once the request body is marshalled (the request structs
    of the two query handlers always marshal). One exchange is consumed;
    there is no loop around it. *)
Definition Request (x : Exchange) : ToolResult json :=
  match x with
  | NewRequestFailed err => ErrorResult 500 ("failed to create request: " ++ err)
  | DoFailed err => ErrorResult 500 ("request failed: " ++ err)
  | ReadFailed err => ErrorResult 500 ("failed to read response: " ++ err)
  | Responded statusCode status respBody =>
      let result := parseBody respBody in
      if statusCode >=? 400 then
        {| Success := false;
           Error := Some {| StatusCode := statusCode;
                            Title := status;
                            Detail := extractErrorDetail result |};
           Data := Some result |}
      else SuccessResult result
  end.

Definition Post (x : Exchange) : ToolResult json := Request x.

End Request.

End Client.

(** ** Attribute maps of the flat records

    [map[string]interface{}] holding a string, an int64 or a bool under
    each key; [assign] is [result[key] = v]. *)

Inductive AttrValue : Type :=
| AString (s : string)
| AInt (i : Z)
| ABool (b : bool).

Definition attrs : Type := list (string * AttrValue).

Fixpoint assign (result : attrs) (key : string) (v : AttrValue) : attrs :=
  match result with
  | [] => [(key, v)]
  | (k, old) :: rest =>
      if String.eqb k key then (k, v) :: rest else (k, old) :: assign rest key v
  end.

(** The resolution of one OTLP attribute value, shared by both packages:
    [stringValue], else [intValue] (a decimal string), else [boolValue].
    [None] leaves the map untouched. *)
Definition resolveValue (attrMap : object) : option AttrValue :=
  match asMap (index attrMap "value") with
  | Some value =>
      match asString (index value "stringValue") with
      | Some strVal => Some (AString strVal)
      | None =>
          match asString (index value "intValue") with
          | Some intVal =>
              match Go.ParseInt intVal with
              | Some i => Some (AInt i)
              | None => None
              end
          | None =>
              match asBool (index value "boolValue") with
              | Some boolVal => Some (ABool boolVal)
              | None => None
              end
          end
      end
  | None => None
  end.

(** What a handler call does: it returns a result, or the goroutine
    panics (a slice expression out of bounds). *)
Inductive Outcome (A : Type) : Type :=
| Returns (a : A)
| Panics.
Arguments Returns {A} _.
Arguments Panics {A}.

(** ** Package logs *)

Module Logs.

Record AttributeFilterValue : Type := {
  StringValue : option string;
  IntValue : option string;
  BoolValue : option bool
}.

Record AttributeFilter : Type := {
  Key : string;
  Operator : string;
  Value : option AttributeFilterValue
}.

(** [From] and [To] hold [from.Format(time.RFC3339)] and
    [now.Format(time.RFC3339)]. *)
Record TimeRange : Type := {
  From : string;
  To : string
}.

Record Pagination : Type := {
  Limit : Z
}.

Record QueryLogsRequest : Type := {
  ReqTimeRange : TimeRange;
  Filter : list AttributeFilter;
  ReqPagination : Pagination
}.

Record FlatLog : Type := {
  Timestamp : string;
  ServiceName : string;
  SeverityText : string;
  SeverityNumber : Z;
  Body : string;
  TraceID : string;
  SpanID : string;
  Attributes : attrs
}.

(** The map literal [severityOrder]. *)
Definition severityTable : list (string * Z) :=
  [("TRACE", 1); ("DEBUG", 5); ("INFO", 9); ("WARN", 13); ("ERROR", 17); ("FATAL", 21)].

Fixpoint table_get (t : list (string * Z)) (k : string) : option Z :=
  match t with
  | [] => None
  | (k', v) :: rest => if String.eqb k' k then Some v else table_get rest k
  end.

(** [severityOrder[k]]: the zero value for a missing key. *)
Definition severityOrder (k : string) : Z :=
  match table_get severityTable k with
  | Some v => v
  | None => 0
  end.

(** The [query] entry of the returned map. *)
Record QueryEcho : Type := {
  time_range : TimeRange;
  filters : list AttributeFilter;
  limit : Z
}.

(** The map [QueryLogsHandler] returns as [Data]. *)
Record Envelope : Type := {
  logs : list FlatLog;
  count : Z;
  query : QueryEcho
}.

(** [Data] of a handler result: the upstream payload of a failed
    request, or the envelope. *)
Inductive HandlerData : Type :=
| UpstreamData (j : json)
| QueryData (e : Envelope).

(** [extractServiceName]: the loop over the resource attributes. *)
Fixpoint scanServiceName (attrList : list json) : string :=
  match attrList with
  | [] => ""
  | attr :: rest =>
      match asMap attr with
      | None => scanServiceName rest
      | Some attrMap =>
          match asString (index attrMap "key") with
          | Some key =>
              if String.eqb key "service.name" then
                match asMap (index attrMap "value") with
                | Some value =>
                    match asString (index value "stringValue") with
                    | Some strVal => strVal
                    | None => scanServiceName rest
                    end
                | None => scanServiceName rest
                end
              else scanServiceName rest
          | None => scanServiceName rest
          end
      end
  end.

Definition extractServiceName (rlMap : object) : string :=
  match asMap (index rlMap "resource") with
  | None => ""
  | Some resource =>
      match asSlice (index resource "attributes") with
      | None => ""
      | Some attrList => scanServiceName attrList
      end
  end.

(** One iteration of the loop of [extractLogAttributes]. *)
Definition logAttrStep (result : attrs) (attr : json) : attrs :=
  match asMap attr with
  | None => result
  | Some attrMap =>
      match asString (index attrMap "key") with
      | None => result
      | Some key =>
          match resolveValue attrMap with
          | Some v => assign result key v
          | None => result
          end
      end
  end.

Definition extractLogAttributes (logMap : object) : attrs :=
  match asSlice (index logMap "attributes") with
  | None => []
  | Some attrList => fold_left logAttrStep attrList []
  end.

Section WithRuntime.
Variable rt : GoRuntime.

(** [time.Unix(0, timeNano).UTC().Format(time.RFC3339Nano)] of a parsed
    decimal string, the empty string when it does not parse. *)
Definition formatNano (s : string) : string :=
  match Go.ParseInt s with
  | Some timeNano => format_RFC3339Nano rt timeNano
  | None => ""
  end.

(** The timestamp of a record: [timeUnixNano] when it is a string, else
    [observedTimeUnixNano] when that is a string. *)
Definition extractTimestamp (logMap : object) : string :=
  match asString (index logMap "timeUnixNano") with
  | Some timeNanoStr => formatNano timeNanoStr
  | None =>
      match asString (index logMap "observedTimeUnixNano") with
      | Some observedTimeStr => formatNano observedTimeStr
      | None => ""
      end
  end.

(** The body of the innermost loop: the record built from one
    [logRecords] entry that is an object. *)
Definition flattenLog (serviceName : string) (logMap : object) : FlatLog :=
  {| ServiceName := serviceName;
     Timestamp := extractTimestamp logMap;
     SeverityText :=
       match asString (index logMap "severityText") with
       | Some sevText => sevText
       | None => ""
       end;
     SeverityNumber :=
       match asFloat64 (index logMap "severityNumber") with
       | Some sevNum => float64_to_int rt sevNum
       | None => 0
       end;
     Body :=
       match asMap (index logMap "body") with
       | Some body =>
           match asString (index body "stringValue") with
           | Some strVal => strVal
           | None => ""
           end
       | None => ""
       end;
     TraceID :=
       match asString (index logMap "traceId") with
       | Some traceID => traceID
       | None => ""
       end;
     SpanID :=
       match asString (index logMap "spanId") with
       | Some spanID => spanID
       | None => ""
       end;
     Attributes := extractLogAttributes logMap |}.

(** The three nested [for ... range] loops, each threading the slice
    [logs] it appends to. *)
Definition recordStep (serviceName : string) (logs : list FlatLog) (lr : json)
  : list FlatLog :=
  match asMap lr with
  | None => logs
  | Some logMap => (logs ++ [flattenLog serviceName logMap])%list
  end.

Definition scopeStep (serviceName : string) (logs : list FlatLog) (sl : json)
  : list FlatLog :=
  match asMap sl with
  | None => logs
  | Some slMap =>
      match asSlice (index slMap "logRecords") with
      | None => logs
      | Some logRecords => fold_left (recordStep serviceName) logRecords logs
      end
  end.

Definition resourceStep (logs : list FlatLog) (rl : json) : list FlatLog :=
  match asMap rl with
  | None => logs
  | Some rlMap =>
      let serviceName := extractServiceName rlMap in
      match asSlice (index rlMap "scopeLogs") with
      | None => logs
      | Some scopeLogs => fold_left (scopeStep serviceName) scopeLogs logs
      end
  end.

Definition flattenLogsResponse (data : json) : list FlatLog :=
  match asMap data with
  | None => []
  | Some dataMap =>
      match asSlice (index dataMap "resourceLogs") with
      | None => []
      | Some resourceLogs => fold_left resourceStep resourceLogs []
      end
  end.

(** *** QueryLogsHandler, stage by stage *)

(** Build filters. *)
Definition buildFilters (args : object) : list AttributeFilter :=
  match asString (index args "service_name") with
  | Some serviceName =>
      if negb (String.eqb serviceName "") then
        [ {| Key := "service.name";
             Operator := "is";
             Value := Some {| StringValue := Some serviceName;
                              IntValue := None;
                              BoolValue := None |} |} ]
      else []
  | None => []
  end.

(** Calculate time range: the variable [minutes]. *)
Definition lookbackMinutes (args : object) : Z :=
  match asFloat64 (index args "time_range_minutes") with
  | Some m =>
      if Go.fgt m 0 then
        let minutes := float64_to_int rt m in
        if minutes >? 1440 then 1440 else minutes
      else 60
  | None => 60
  end.

(** [-time.Duration(minutes) * time.Minute], in nanoseconds. *)
Definition lookback (minutes : Z) : Z :=
  Go.wrap64 (Go.wrap64 (- minutes) * 60000000000).

(** [from := now.Add(...)] *)
Definition windowFrom (now : Z) (args : object) : Z :=
  now + lookback (lookbackMinutes args).

(** Set limit. *)
Definition finalLimit (args : object) : Z :=
  match asFloat64 (index args "limit") with
  | Some l =>
      if Go.fgt l 0 then
        let limit := float64_to_int rt l in
        if limit >? 500 then 500 else limit
      else 100
  | None => 100
  end.

Definition timeRange (now : Z) (args : object) : TimeRange :=
  {| From := format_RFC3339 rt (windowFrom now args);
     To := format_RFC3339 rt now |}.

(** Build request. *)
Definition buildRequest (now : Z) (args : object) : QueryLogsRequest :=
  {| ReqTimeRange := timeRange now args;
     Filter := buildFilters args;
     ReqPagination := {| Limit := Go.wrap64 (finalLimit args * 2) |} |}.

(** One [for ... range] loop that appends the records passing [keep]. *)
Definition keepLoop (keep : FlatLog -> bool) (flatLogs : list FlatLog)
  : list FlatLog :=
  fold_left (fun filtered log => if keep log then (filtered ++ [log])%list else filtered)
            flatLogs [].

(** Apply client-side severity filter if specified. *)
Definition severityFilter (args : object) (flatLogs : list FlatLog) : list FlatLog :=
  match asString (index args "min_severity") with
  | Some minSeverity =>
      if negb (String.eqb minSeverity "") then
        let minLevel := severityOrder minSeverity in
        keepLoop (fun log => SeverityNumber log >=? minLevel) flatLogs
      else flatLogs
  | None => flatLogs
  end.

(** Apply client-side body contains filter if specified. *)
Definition bodyFilter (args : object) (flatLogs : list FlatLog) : list FlatLog :=
  match asString (index args "body_contains") with
  | Some bodyContains =>
      if negb (String.eqb bodyContains "") then
        let bodyContainsLower := ToLower rt bodyContains in
        keepLoop (fun log => Go.Contains (ToLower rt (Body log)) bodyContainsLower)
                 flatLogs
      else flatLogs
  | None => flatLogs
  end.

(** Apply final limit: [flatLogs[:limit]] panics for a negative bound. *)
Definition applyLimit (limit : Z) (flatLogs : list FlatLog)
  : Outcome (list FlatLog) :=
  if Z.of_nat (List.length flatLogs) >? limit then
    if limit <? 0 then Panics
    else Returns (firstn (Z.to_nat limit) flatLogs)
  else Returns flatLogs.

Definition QueryLogsHandler (now : Z) (args : object)
    (upstream : QueryLogsRequest -> Client.Exchange)
  : Outcome (Client.ToolResult HandlerData) :=
  let req := buildRequest now args in
  let result := Client.Post rt (upstream req) in
  if negb (Client.Success result) then
    Returns {| Client.Success := Client.Success result;
               Client.Data := option_map UpstreamData (Client.Data result);
               Client.Error := Client.Error result |}
  else
    let flatLogs :=
      match Client.Data result with
      | Some data => flattenLogsResponse data
      | None => []
      end in
    let flatLogs := severityFilter args flatLogs in
    let flatLogs := bodyFilter args flatLogs in
    match applyLimit (finalLimit args) flatLogs with
    | Panics => Panics
    | Returns flatLogs =>
        Returns
          {| Client.Success := true;
             Client.Data :=
               Some (QueryData
                 {| logs := flatLogs;
                    count := Z.of_nat (List.length flatLogs);
                    query := {| time_range := timeRange now args;
                                filters := buildFilters args;
                                limit := finalLimit args |} |});
             Client.Error := None |}
    end.

(** [PostLogsHandler]: [upstream] answers the POST made for the body
    (the nil interface when the key holds a JSON null: [Request] then
    sends no payload). A decoded JSON value always marshals. *)
Definition PostLogsHandler (args : object) (upstream : json -> Client.Exchange)
  : Client.ToolResult json :=
  match lookup args "body" with
  | None => Client.ErrorResult 400 "body is required"
  | Some body => Client.Post rt (upstream body)
  end.

End WithRuntime.

End Logs.

(** ** Package spans *)

Module Spans.

Record AttributeFilterValue : Type := {
  StringValue : option string;
  IntValue : option string;
  BoolValue : option bool
}.

Record AttributeFilter : Type := {
  Key : string;
  Operator : string;
  Value : option AttributeFilterValue
}.

Record TimeRange : Type := {
  From : string;
  To : string
}.

Record Pagination : Type := {
  Limit : Z
}.

Record QuerySpansRequest : Type := {
  ReqTimeRange : TimeRange;
  Filter : list AttributeFilter;
  ReqPagination : Pagination
}.

Record FlatSpan : Type := {
  TraceID : string;
  SpanID : string;
  ParentSpanID : string;
  Name : string;
  ServiceName : string;
  DurationMs : Q;
  StartTime : string;
  EndTime : string;
  StatusCode : Z;
  StatusMessage : string;
  Attributes : attrs
}.

Record QueryEcho : Type := {
  time_range : TimeRange;
  filters : list AttributeFilter;
  limit : Z
}.

(** The map [QuerySpansHandler] returns as [Data]. *)
Record Envelope : Type := {
  spans : list FlatSpan;
  count : Z;
  query : QueryEcho
}.

Inductive HandlerData : Type :=
| UpstreamData (j : json)
| QueryData (e : Envelope).

(** [extractServiceName]: the loop over the resource attributes. *)
Fixpoint scanServiceName (attrList : list json) : string :=
  match attrList with
  | [] => ""
  | attr :: rest =>
      match asMap attr with
      | None => scanServiceName rest
      | Some attrMap =>
          match asString (index attrMap "key") with
          | Some key =>
              if String.eqb key "service.name" then
                match asMap (index attrMap "value") with
                | Some value =>
                    match asString (index value "stringValue") with
                    | Some strVal => strVal
                    | None => scanServiceName rest
                    end
                | None => scanServiceName rest
                end
              else scanServiceName rest
          | None => scanServiceName rest
          end
      end
  end.

Definition extractServiceName (rsMap : object) : string :=
  match asMap (index rsMap "resource") with
  | None => ""
  | Some resource =>
      match asSlice (index resource "attributes") with
      | None => ""
      | Some attrList => scanServiceName attrList
      end
  end.

(** The keys of the map literal [interestingKeys]. *)
Definition interestingKeys : list string :=
  [ "http.request.method"; "http.response.status_code"; "http.route";
    "http.url"; "http.target"; "db.system"; "db.statement"; "rpc.method";
    "rpc.service"; "messaging.system"; "messaging.operation"; "error.type";
    "exception.type"; "exception.message" ].

Definition interesting (key : string) : bool :=
  existsb (String.eqb key) interestingKeys.

(** One iteration of the loop of [extractSpanAttributes]. *)
Definition spanAttrStep (result : attrs) (attr : json) : attrs :=
  match asMap attr with
  | None => result
  | Some attrMap =>
      match asString (index attrMap "key") with
      | None => result
      | Some key =>
          if interesting key then
            match resolveValue attrMap with
            | Some v => assign result key v
            | None => result
            end
          else result
      end
  end.

Definition extractSpanAttributes (spanMap : object) : attrs :=
  match asSlice (index spanMap "attributes") with
  | None => []
  | Some attrList => fold_left spanAttrStep attrList []
  end.

(** [float64(endNano-startNano) / 1_000_000] *)
Definition durationMs (startNano endNano : Z) : Q :=
  Go.float_value
    (SFdiv Go.prec Go.emax
       (Go.float64_of_int (Go.wrap64 (endNano - startNano)))
       (Go.float64_of_int 1000000)).

Section WithRuntime.
Variable rt : GoRuntime.

(** Calculate duration: [DurationMs], [StartTime] and [EndTime], set
    together when both timestamps are strings that parse. *)
Definition extractTimes (spanMap : object) : Q * string * string :=
  match asString (index spanMap "startTimeUnixNano") with
  | Some startNanoStr =>
      match asString (index spanMap "endTimeUnixNano") with
      | Some endNanoStr =>
          match Go.ParseInt startNanoStr, Go.ParseInt endNanoStr with
          | Some startNano, Some endNano =>
              (durationMs startNano endNano,
               format_RFC3339Nano rt startNano,
               format_RFC3339Nano rt endNano)
          | _, _ => (0%Q, "", "")
          end
      | None => (0%Q, "", "")
      end
  | None => (0%Q, "", "")
  end.

Definition stringField (m : object) (k : string) : string :=
  match asString (index m k) with
  | Some s => s
  | None => ""
  end.

(** The body of the innermost loop: the record built from one [spans]
    entry that is an object. *)
Definition flattenSpan (serviceName : string) (spanMap : object) : FlatSpan :=
  let '(duration, startTime, endTime) := extractTimes spanMap in
  {| ServiceName := serviceName;
     Name := stringField spanMap "name";
     TraceID := stringField spanMap "traceId";
     SpanID := stringField spanMap "spanId";
     ParentSpanID := stringField spanMap "parentSpanId";
     DurationMs := duration;
     StartTime := startTime;
     EndTime := endTime;
     StatusCode :=
       match asMap (index spanMap "status") with
       | Some status =>
           match asFloat64 (index status "code") with
           | Some code => float64_to_int rt code
           | None => 0
           end
       | None => 0
       end;
     StatusMessage :=
       match asMap (index spanMap "status") with
       | Some status => stringField status "message"
       | None => ""
       end;
     Attributes := extractSpanAttributes spanMap |}.

Definition spanStep (serviceName : string) (spans : list FlatSpan) (s : json)
  : list FlatSpan :=
  match asMap s with
  | None => spans
  | Some spanMap => (spans ++ [flattenSpan serviceName spanMap])%list
  end.

Definition scopeStep (serviceName : string) (spans : list FlatSpan) (ss : json)
  : list FlatSpan :=
  match asMap ss with
  | None => spans
  | Some ssMap =>
      match asSlice (index ssMap "spans") with
      | None => spans
      | Some spanList => fold_left (spanStep serviceName) spanList spans
      end
  end.

Definition resourceStep (spans : list FlatSpan) (rs : json) : list FlatSpan :=
  match asMap rs with
  | None => spans
  | Some rsMap =>
      let serviceName := extractServiceName rsMap in
      match asSlice (index rsMap "scopeSpans") with
      | None => spans
      | Some scopeSpans => fold_left (scopeStep serviceName) scopeSpans spans
      end
  end.

Definition flattenSpansResponse (data : json) : list FlatSpan :=
  match asMap data with
  | None => []
  | Some dataMap =>
      match asSlice (index dataMap "resourceSpans") with
      | None => []
      | Some resourceSpans => fold_left resourceStep resourceSpans []
      end
  end.

(** *** QuerySpansHandler, stage by stage *)

Definition stringFilter (key value : string) : AttributeFilter :=
  {| Key := key;
     Operator := "is";
     Value := Some {| StringValue := Some value; IntValue := None; BoolValue := None |} |}.

Definition intFilter (key value : string) : AttributeFilter :=
  {| Key := key;
     Operator := "is";
     Value := Some {| StringValue := None; IntValue := Some value; BoolValue := None |} |}.

(** The five [if] statements of "Build filters", each appending to
    [filters] or leaving it. *)
Definition serviceNameFilter (args : object) : list AttributeFilter :=
  match asString (index args "service_name") with
  | Some serviceName =>
      if negb (String.eqb serviceName "") then [stringFilter "service.name" serviceName]
      else []
  | None => []
  end.

Definition httpMethodFilter (args : object) : list AttributeFilter :=
  match asString (index args "http_method") with
  | Some httpMethod =>
      if negb (String.eqb httpMethod "") then [stringFilter "http.request.method" httpMethod]
      else []
  | None => []
  end.

Definition statusCodeFilter (args : object) : list AttributeFilter :=
  match asFloat64 (index args "http_status_code") with
  | Some statusCode =>
      let statusStr := Go.Itoa (float64_to_int rt statusCode) in
      [intFilter "http.response.status_code" statusStr]
  | None => []
  end.

Definition spanNameFilter (args : object) : list AttributeFilter :=
  match asString (index args "span_name") with
  | Some spanName =>
      if negb (String.eqb spanName "") then [stringFilter "name" spanName]
      else []
  | None => []
  end.

Definition errorOnlyFilter (args : object) : list AttributeFilter :=
  match asBool (index args "error_only") with
  | Some errorOnly =>
      if errorOnly then [intFilter "status.code" "2"] else []
  | None => []
  end.

Definition buildFilters (args : object) : list AttributeFilter :=
  let filters := [] in
  let filters := (filters ++ serviceNameFilter args)%list in
  let filters := (filters ++ httpMethodFilter args)%list in
  let filters := (filters ++ statusCodeFilter args)%list in
  let filters := (filters ++ spanNameFilter args)%list in
  let filters := (filters ++ errorOnlyFilter args)%list in
  filters.

(** Calculate time range: the variable [minutes]. *)
Definition lookbackMinutes (args : object) : Z :=
  match asFloat64 (index args "time_range_minutes") with
  | Some m =>
      if Go.fgt m 0 then
        let minutes := float64_to_int rt m in
        if minutes >? 1440 then 1440 else minutes
      else 60
  | None => 60
  end.

(** [-time.Duration(minutes) * time.Minute], in nanoseconds. *)
Definition lookback (minutes : Z) : Z :=
  Go.wrap64 (Go.wrap64 (- minutes) * 60000000000).

Definition windowFrom (now : Z) (args : object) : Z :=
  now + lookback (lookbackMinutes args).

(** Set limit. *)
Definition finalLimit (args : object) : Z :=
  match asFloat64 (index args "limit") with
  | Some l =>
      if Go.fgt l 0 then
        let limit := float64_to_int rt l in
        if limit >? 200 then 200 else limit
      else 100
  | None => 100
  end.

Definition timeRange (now : Z) (args : object) : TimeRange :=
  {| From := format_RFC3339 rt (windowFrom now args);
     To := format_RFC3339 rt now |}.

(** Build request. *)
Definition buildRequest (now : Z) (args : object) : QuerySpansRequest :=
  {| ReqTimeRange := timeRange now args;
     Filter := buildFilters args;
     ReqPagination := {| Limit := finalLimit args |} |}.

Definition keepLoop (keep : FlatSpan -> bool) (flatSpans : list FlatSpan)
  : list FlatSpan :=
  fold_left (fun filtered span => if keep span then (filtered ++ [span])%list else filtered)
            flatSpans [].

(** Apply client-side duration filter if specified. *)
Definition durationFilter (args : object) (flatSpans : list FlatSpan)
  : list FlatSpan :=
  match asFloat64 (index args "min_duration_ms") with
  | Some minDuration =>
      if Go.fgt minDuration 0 then
        keepLoop (fun span => Go.fge (DurationMs span) minDuration) flatSpans
      else flatSpans
  | None => flatSpans
  end.

(** The handler returns right after the duration filter: no statement
    slices [flatSpans]. *)
Definition QuerySpansHandler (now : Z) (args : object)
    (upstream : QuerySpansRequest -> Client.Exchange)
  : Client.ToolResult HandlerData :=
  let req := buildRequest now args in
  let result := Client.Post rt (upstream req) in
  if negb (Client.Success result) then
    {| Client.Success := Client.Success result;
       Client.Data := option_map UpstreamData (Client.Data result);
       Client.Error := Client.Error result |}
  else
    let flatSpans :=
      match Client.Data result with
      | Some data => flattenSpansResponse data
      | None => []
      end in
    let flatSpans := durationFilter args flatSpans in
    {| Client.Success := true;
       Client.Data :=
         Some (QueryData
           {| spans := flatSpans;
              count := Z.of_nat (List.length flatSpans);
              query := {| time_range := timeRange now args;
                          filters := buildFilters args;
                          limit := finalLimit args |} |});
       Client.Error := None |}.

(** [PostSpansHandler] *)
Definition PostSpansHandler (args : object) (upstream : json -> Client.Exchange)
  : Client.ToolResult json :=
  match lookup args "body" with
  | None => Client.ErrorResult 400 "body is required"
  | Some body => Client.Post rt (upstream body)
  end.

End WithRuntime.

End Spans.

(** ** Vocabulary of the statements *)

(** [l1] is [l2] with some elements left out, the others in their order. *)
Inductive subseq {A : Type} : list A -> list A -> Prop :=
| subseq_nil : subseq [] []
| subseq_skip x l1 l2 : subseq l1 l2 -> subseq l1 (x :: l2)
| subseq_keep x l1 l2 : subseq l1 l2 -> subseq (x :: l1) (x :: l2).

(** What one key of an error body offers as a detail: the string found
    in a nested object ([detail] before [message]) ... *)
Inductive Nested (em : object) : string -> Prop :=
| nested_detail s : index em "detail" = JString s -> Nested em s
| nested_message s :
    asString (index em "detail") = None ->
    index em "message" = JString s -> Nested em s.

(** ... and the shapes a value is searched in: a string, an array whose
    first element is a string or an object, or an object. *)
Inductive Offers : json -> string -> Prop :=
| offers_string s : Offers (JString s) s
| offers_first_string s rest : Offers (JArray (JString s :: rest)) s
| offers_first_object em rest s : Nested em s -> Offers (JArray (JObject em :: rest)) s
| offers_object em s : Nested em s -> Offers (JObject em) s.

(** What the key [k] of the body [m] offers, if anything. *)
Definition offer (m : object) (k : string) : option string :=
  match lookup m k with
  | Some v => Client.switchValue v
  | None => None
  end.

(** A runtime to evaluate examples on. [decoded] lists the response
    bodies the example's upstream sends, each with the value it decodes
    to; any other body is not JSON. The conversion of an unrepresentable
    float is the one gc produces on amd64, the other fields are stand-ins
    no example depends on. *)
Definition exampleRuntime (decoded : list (string * json)) : GoRuntime :=
  {| int_unrepresentable := fun _ => Go.int_min;
     unicode_lower := fun s => s;
     format_RFC3339 := fun t => Go.Itoa (t / 1000000000);
     format_RFC3339Nano := fun t => Go.Itoa t;
     json_Unmarshal := lookup decoded |}.

(** The filter parameters of a span query in their canonical order, each
    with its upstream key and the kind of value it takes. *)
Inductive ParamKind : Type := TextParam | NumberParam | FlagParam.

Record Param : Type := {
  argName : string;
  upstreamKey : string;
  kind : ParamKind
}.

Definition spanParams : list Param :=
  [ {| argName := "service_name"; upstreamKey := "service.name"; kind := TextParam |};
    {| argName := "http_method"; upstreamKey := "http.request.method"; kind := TextParam |};
    {| argName := "http_status_code"; upstreamKey := "http.response.status_code";
       kind := NumberParam |};
    {| argName := "span_name"; upstreamKey := "name"; kind := TextParam |};
    {| argName := "error_only"; upstreamKey := "status.code"; kind := FlagParam |} ].

(** The filter one parameter translates to: a text parameter when it is
    a non-empty string, a number parameter whenever it is a number (its
    integer part in decimal, zero included), a flag when it is [true]
    (the fixed integer 2). *)
Definition translateParam (rt : GoRuntime) (args : object) (p : Param)
  : list Spans.AttributeFilter :=
  match kind p, index args (argName p) with
  | TextParam, JString s =>
      if String.eqb s "" then [] else [Spans.stringFilter (upstreamKey p) s]
  | NumberParam, JNumber f =>
      [Spans.intFilter (upstreamKey p) (Go.Itoa (float64_to_int rt f))]
  | FlagParam, JBool true => [Spans.intFilter (upstreamKey p) "2"]
  | _, _ => []
  end.

(** How many of the three value variants a filter has populated. *)
Definition populated (s i : option string) (b : option bool) : nat :=
  (match s with Some _ => 1 | None => 0 end) +
  (match i with Some _ => 1 | None => 0 end) +
  (match b with Some _ => 1 | None => 0 end).

Definition spanFilterPopulated (f : Spans.AttributeFilter) : nat :=
  match Spans.Value f with
  | Some v => populated (Spans.StringValue v) (Spans.IntValue v) (Spans.BoolValue v)
  | None => 0
  end.

Definition logFilterPopulated (f : Logs.AttributeFilter) : nat :=
  match Logs.Value f with
  | Some v => populated (Logs.StringValue v) (Logs.IntValue v) (Logs.BoolValue v)
  | None => 0
  end.

(** The service name a resource attribute entry carries: the entry is an
    object whose [key] is the string [service.name] and whose [value] is
    an object holding a string [stringValue]. *)
Definition namesService (attr : json) : option string :=
  match attr with
  | JObject attrMap =>
      match index attrMap "key", index attrMap "value" with
      | JString key, JObject value =>
          if String.eqb key "service.name"
          then asString (index value "stringValue")
          else None
      | _, _ => None
      end
  | _ => None
  end.

(** The attribute list of a resource group, empty when [resource] or its
    [attributes] is missing or of another shape. *)
Definition resourceAttributes (group : object) : list json :=
  match index group "resource" with
  | JObject resource =>
      match index resource "attributes" with
      | JArray attrList => attrList
      | _ => []
      end
  | _ => []
  end.



(** The records of a payload, group by group: what each resource group,
    each scope group and each leaf entry contributes. An entry of another
    shape than expected contributes nothing. *)
Definition logOfEntry (rt : GoRuntime) (serviceName : string) (lr : json)
  : list Logs.FlatLog :=
  match lr with
  | JObject logMap => [Logs.flattenLog rt serviceName logMap]
  | _ => []
  end.

Definition logsOfScope (rt : GoRuntime) (serviceName : string) (sl : json)
  : list Logs.FlatLog :=
  match sl with
  | JObject slMap =>
      match index slMap "logRecords" with
      | JArray logRecords => flat_map (logOfEntry rt serviceName) logRecords
      | _ => []
      end
  | _ => []
  end.

Definition logsOfResource (rt : GoRuntime) (rl : json) : list Logs.FlatLog :=
  match rl with
  | JObject rlMap =>
      match index rlMap "scopeLogs" with
      | JArray scopeLogs =>
          flat_map (logsOfScope rt (Logs.extractServiceName rlMap)) scopeLogs
      | _ => []
      end
  | _ => []
  end.

Definition spanOfEntry (rt : GoRuntime) (serviceName : string) (s : json)
  : list Spans.FlatSpan :=
  match s with
  | JObject spanMap => [Spans.flattenSpan rt serviceName spanMap]
  | _ => []
  end.

Definition spansOfScope (rt : GoRuntime) (serviceName : string) (ss : json)
  : list Spans.FlatSpan :=
  match ss with
  | JObject ssMap =>
      match index ssMap "spans" with
      | JArray spanList => flat_map (spanOfEntry rt serviceName) spanList
      | _ => []
      end
  | _ => []
  end.

Definition spansOfResource (rt : GoRuntime) (rs : json) : list Spans.FlatSpan :=
  match rs with
  | JObject rsMap =>
      match index rsMap "scopeSpans" with
      | JArray scopeSpans =>
          flat_map (spansOfScope rt (Spans.extractServiceName rsMap)) scopeSpans
      | _ => []
      end
  | _ => []
  end.

(** The field a leaf reads as a string, as a number converted to an
    integer, and as the [stringValue] of a nested object; each is the
    zero value when the key is missing or holds another type. *)
Definition stringAt (m : object) (k : string) : string :=
  match index m k with
  | JString s => s
  | _ => ""
  end.

Definition intAt (rt : GoRuntime) (m : object) (k : string) : Z :=
  match index m k with
  | JNumber f => float64_to_int rt f
  | _ => 0
  end.

Definition objectAt (m : object) (k : string) : object :=
  match index m k with
  | JObject inner => inner
  | _ => []
  end.

(** A success payload holding [n] spans (empty objects) in one scope
    group of one resource group, and the text of the response body that
    decodes to it. *)
Definition spansPayload (n : nat) : json :=
  JObject [("resourceSpans", JArray
    [JObject [("scopeSpans", JArray
      [JObject [("spans", JArray (repeat (JObject []) n))]])]])].

Definition dquote : string := String (ascii_of_nat 34) EmptyString.

Definition quoted (s : string) : string := (dquote ++ s ++ dquote)%string.

Definition spansBody (n : nat) : string :=
  ("{" ++ quoted "resourceSpans" ++ ":[{" ++ quoted "scopeSpans" ++ ":[{"
   ++ quoted "spans" ++ ":[" ++ String.concat "," (repeat "{}" n) ++ "]}]}]}")%string.

(** Two bytes that are the same letter up to ASCII case, and two strings
    that are the same text up to ASCII case. *)
Definition sameLetter (a b : ascii) : Prop :=
  a = b \/
  (Go.is_upper a = true /\ nat_of_ascii b = (nat_of_ascii a + 32)%nat) \/
  (Go.is_upper b = true /\ nat_of_ascii a = (nat_of_ascii b + 32)%nat).

Inductive sameText : string -> string -> Prop :=
| sameText_nil : sameText EmptyString EmptyString
| sameText_cons a b s t :
    sameLetter a b -> sameText s t -> sameText (String a s) (String b t).



(** ** Go maps and sorting, as the registry and the configuration use them

    A [map[string]V] is an association list with one binding per key;
    the order of the list stands for the order in which a [range] over
    the map visits it, which Go leaves open. *)

Fixpoint mapGet {V : Type} (m : list (string * V)) (k : string) : option V :=
  match m with
  | [] => None
  | (k', v) :: rest => if String.eqb k' k then Some v else mapGet rest k
  end.

(** [m[k] = v] *)
Fixpoint mapSet {V : Type} (m : list (string * V)) (k : string) (v : V)
  : list (string * V) :=
  match m with
  | [] => [(k, v)]
  | (k', old) :: rest =>
      if String.eqb k' k then (k', v) :: rest else (k', old) :: mapSet rest k v
  end.

(** [m[k]] of a [map[string]bool]: [false] for a missing key. *)
Definition mapBool (m : list (string * bool)) (k : string) : bool :=
  match mapGet m k with
  | Some b => b
  | None => false
  end.

(** Sorting by a string key in ascending byte order ([sort.Strings], and
    [sort.Slice] with a [<] on names): insertion of each element before
    the first one that is not smaller. *)
Fixpoint insertBy {A : Type} (key : A -> string) (x : A) (l : list A) : list A :=
  match l with
  | [] => [x]
  | y :: rest =>
      if String.leb (key x) (key y) then x :: y :: rest
      else y :: insertBy key x rest
  end.

Definition sortBy {A : Type} (key : A -> string) (l : list A) : list A :=
  fold_right (insertBy key) [] l.

Definition sortStrings (names : list string) : list string :=
  sortBy (fun s => s) names.

(** The order the sort establishes. *)
Definition keyLe {A : Type} (key : A -> string) (a b : A) : Prop :=
  String.leb (key a) (key b) = true.

(** ** Package registry *)

Module Registry.

Section WithTool.
(** [mcp.Tool], of which the registry reads the [Name] only, and the
    type of what a handler's result holds. *)
Variable Tool : Type.
Variable Name : Tool -> string.
Variable D : Type.

(** [Handler] (the context is not modelled). *)
Definition Handler : Type := object -> Client.ToolResult D.

(** [ToolDef]; [None] is a nil handler. *)
Record ToolDef : Type := {
  DefTool : Tool;
  DefHandler : option Handler
}.

(** [Registry]: the read-write lock is not modelled; [enabled] is never
    written, [None] is the nil map. *)
Record Registry : Type := {
  tools : list (string * ToolDef);
  enabled : option (list (string * bool))
}.

Definition New (enabledTools : option (list (string * bool))) : Registry :=
  {| tools := []; enabled := enabledTools |}.

Definition Register (r : Registry) (tool : Tool) (handler : option Handler)
  : Registry :=
  {| tools := mapSet (tools r) (Name tool)
                {| DefTool := tool; DefHandler := handler |};
     enabled := enabled r |}.

(** [r.enabled == nil || r.enabled[name]] *)
Definition passes (r : Registry) (name : string) : bool :=
  match enabled r with
  | None => true
  | Some e => mapBool e name
  end.

Definition IsEnabled (r : Registry) (name : string) : bool :=
  match enabled r with
  | None => true
  | Some e => mapBool e name
  end.

Definition GetEnabledTools (r : Registry) : list Tool :=
  let tools :=
    fold_left
      (fun tools (entry : string * ToolDef) =>
         let '(name, def) := entry in
         if passes r name then (tools ++ [DefTool def])%list else tools)
      (tools r) [] in
  sortBy Name tools.

(** [GetHandler]: [None] is nil. *)
Definition GetHandler (r : Registry) (name : string) : option Handler :=
  match mapGet (tools r) name with
  | None => None
  | Some def => DefHandler def
  end.

(** [Call]; calling a nil handler panics. *)
Definition Call (r : Registry) (name : string) (args : object)
  : Outcome (Client.ToolResult D) :=
  let found := mapGet (tools r) name in
  let enabled := passes r name in
  match found with
  | None => Returns (Client.ErrorResult 404 ("tool " ++ name ++ " not found"))
  | Some def =>
      if negb enabled then
        Returns (Client.ErrorResult 403
                   ("tool " ++ name ++ " is not enabled in current profile"))
      else
        match DefHandler def with
        | Some handler => Returns (handler args)
        | None => Panics
        end
  end.

Definition ToolCount (r : Registry) : Z := Z.of_nat (List.length (tools r)).

Definition EnabledCount (r : Registry) : Z :=
  match enabled r with
  | None => Z.of_nat (List.length (tools r))
  | Some e =>
      fold_left
        (fun count (entry : string * ToolDef) =>
           if mapBool e (fst entry) then count + 1 else count)
        (tools r) 0
  end.

Definition EnabledToolNames (r : Registry) : list string :=
  let names :=
    fold_left
      (fun names (entry : string * ToolDef) =>
         if passes r (fst entry) then (names ++ [fst entry])%list else names)
      (tools r) [] in
  sortStrings names.

Definition AllToolNames (r : Registry) : list string :=
  let names :=
    fold_left (fun names (entry : string * ToolDef) => (names ++ [fst entry])%list)
              (tools r) [] in
  sortStrings names.

(** The registry after a sequence of [Register] calls on a new one. *)
Definition registered (enabledTools : option (list (string * bool)))
    (calls : list (Tool * option Handler)) : Registry :=
  fold_left (fun r call => Register r (fst call) (snd call))
            calls (New enabledTools).

End WithTool.

Arguments DefTool {Tool D} _.
Arguments DefHandler {Tool D} _.
Arguments tools {Tool D} _.
Arguments enabled {Tool D} _.
Arguments New {Tool D} _.
Arguments Register {Tool} Name {D} _ _ _.
Arguments passes {Tool D} _ _.
Arguments IsEnabled {Tool D} _ _.
Arguments GetEnabledTools {Tool} Name {D} _.
Arguments GetHandler {Tool D} _ _.
Arguments Call {Tool D} _ _ _.
Arguments ToolCount {Tool D} _.
Arguments EnabledCount {Tool D} _.
Arguments EnabledToolNames {Tool D} _.
Arguments AllToolNames {Tool D} _.
Arguments registered {Tool} Name {D} _ _.

End Registry.

(** What every registry built by [Register] calls keeps: one entry per
    name, stored under the name of its tool. *)
Definition registryInvariant {Tool D : Type} (Name : Tool -> string)
    (r : Registry.Registry Tool D) : Prop :=
  NoDup (map fst (Registry.tools r)) /\
  Forall (fun e : string * Registry.ToolDef Tool D =>
            fst e = Name (Registry.DefTool (snd e)))
         (Registry.tools r).

(** ** Package config *)

Module Config.

(** [Region] is a string type with three named constants. *)
Definition RegionEUWest1 : string := "eu-west-1".
Definition RegionUSEast1 : string := "us-east-1".
Definition RegionUSWest2 : string := "us-west-2".

Record Config : Type := {
  BaseURL : string;
  AuthToken : string;
  Region : string;
  Dataset : string;
  Debug : bool
}.

(** [deriveBaseURL] *)
Definition deriveBaseURL (c : Config) : string :=
  if String.eqb (Region c) RegionEUWest1 then "https://api.eu-west-1.aws.dash0.com"
  else if String.eqb (Region c) RegionUSEast1 then "https://api.us-east-1.aws.dash0.com"
  else if String.eqb (Region c) RegionUSWest2 then "https://api.us-west-2.aws.dash0.com"
  else "".

(** [coalesce], over the slice of its variadic arguments. *)
Fixpoint coalesce (values : list string) : string :=
  match values with
  | [] => ""
  | v :: rest => if negb (String.eqb v "") then v else coalesce rest
  end.

(** The bytes [strings.TrimSpace] strips on its ASCII path: tab, line
    feed, vertical tab, form feed, carriage return, space. *)
Definition is_ascii_space (c : ascii) : bool :=
  let n := nat_of_ascii c in
  ((9 <=? n) && (n <=? 13) || (n =? 32))%nat.

Fixpoint trimLeading (s : string) : string :=
  match s with
  | EmptyString => EmptyString
  | String c rest => if is_ascii_space c then trimLeading rest else s
  end.

Fixpoint trimTrailing (s : string) : string :=
  match s with
  | EmptyString => EmptyString
  | String c rest =>
      match trimTrailing rest with
      | EmptyString => if is_ascii_space c then EmptyString else String c EmptyString
      | kept => String c kept
      end
  end.

Definition firstByte (s : string) : option ascii :=
  match s with
  | EmptyString => None
  | String c _ => Some c
  end.

Fixpoint lastByte (s : string) : option ascii :=
  match s with
  | EmptyString => None
  | String c EmptyString => Some c
  | String _ rest => lastByte rest
  end.

Definition startsNonASCII (s : string) : bool :=
  match firstByte s with
  | Some c => negb (Go.is_ascii c)
  | None => false
  end.

Definition endsNonASCII (s : string) : bool :=
  match lastByte s with
  | Some c => negb (Go.is_ascii c)
  | None => false
  end.

Section WithRuntime.
Variable rt : GoRuntime.
(** [strings.TrimFunc(s, unicode.IsSpace)] and
    [strings.TrimRightFunc(s, unicode.IsSpace)], which [strings.TrimSpace]
    falls back to when its scan from the left, or then from the right,
    meets a byte outside ASCII; and the verb [%q] of [fmt]. *)
Variable unicode_TrimFunc : string -> string.
Variable unicode_TrimRightFunc : string -> string.
Variable fmt_q : string -> string.

(** [strings.TrimSpace] *)
Definition TrimSpace (s : string) : string :=
  let fromStart := trimLeading s in
  if startsNonASCII fromStart then unicode_TrimFunc fromStart
  else
    let kept := trimTrailing fromStart in
    if endsNonASCII kept then unicode_TrimRightFunc kept else kept.

(** [parseBool] *)
Definition parseBool (s : string) : bool :=
  let s := ToLower rt (TrimSpace s) in
  String.eqb s "true" || String.eqb s "1" || String.eqb s "yes".

(** [Load], over the environment ([os.Getenv]: the empty string for a
    variable that is not set). Its error result is always nil. *)
Definition Load (env : string -> string) : Config :=
  let regionEnv := coalesce [env "DASH0_REGION"; RegionEUWest1] in
  let baseURL := env "DASH0_BASE_URL" in
  let '(regionEnv, baseURL) :=
    if Go.has_prefix regionEnv "api." || Go.has_prefix regionEnv "https://" then
      let baseURL :=
        if Go.has_prefix regionEnv "https://" then regionEnv
        else ("https://" ++ regionEnv)%string in
      let regionEnv :=
        if Go.Contains regionEnv "eu-west-1" then "eu-west-1"
        else if Go.Contains regionEnv "us-east-1" then "us-east-1"
        else if Go.Contains regionEnv "us-west-2" then "us-west-2"
        else regionEnv in
      (regionEnv, baseURL)
    else (regionEnv, baseURL) in
  let cfg :=
    {| AuthToken := coalesce [env "DASH0_AUTH_TOKEN"; env "DASH0_TOKEN"];
       Region := regionEnv;
       BaseURL := baseURL;
       Dataset := env "DASH0_DATASET";
       Debug := parseBool (env "DASH0_DEBUG") |} in
  if String.eqb (BaseURL cfg) "" then
    {| AuthToken := AuthToken cfg;
       Region := Region cfg;
       BaseURL := deriveBaseURL cfg;
       Dataset := Dataset cfg;
       Debug := Debug cfg |}
  else cfg.

(** [Validate]: [None] is the nil error, [Some] the message of the
    error. *)
Definition Validate (c : Config) : option string :=
  if String.eqb (AuthToken c) "" then Some "DASH0_AUTH_TOKEN is required"
  else if String.eqb (BaseURL c) "" then
    Some "unable to determine base URL: set DASH0_REGION or DASH0_BASE_URL"
  else if negb (Go.has_prefix (BaseURL c) "https://") then
    Some ("base URL must use HTTPS: " ++ BaseURL c)%string
  else if String.eqb (Region c) RegionEUWest1
          || String.eqb (Region c) RegionUSEast1
          || String.eqb (Region c) RegionUSWest2 then None
  else if String.eqb (BaseURL c) "" then
    Some ("invalid region " ++ fmt_q (Region c)
          ++ ": must be eu-west-1, us-east-1, or us-west-2")%string
  else None.

End WithRuntime.

(** *** tools.yaml and profiles *)

Record ToolDef : Type := {
  Enabled : bool;
  Description : string;
  Dangerous : bool
}.

Record ToolsSettings : Type := {
  LogEnabledTools : bool;
  StrictMode : bool
}.

(** [Tools] maps a category to the tools it defines. *)
Record ToolsConfig : Type := {
  Version : string;
  DefaultProfile : string;
  Settings : ToolsSettings;
  Tools : list (string * list (string * ToolDef))
}.

Record Profile : Type := {
  Name : string;
  ProfileDescription : string;
  Enable : list string;
  Disable : list string;
  EnableAll : bool;
  DisableUnlisted : bool
}.

(** The loops [for _, t := range ... { set[t] = true }]. *)
Definition overrideSet (names : list string) : list (string * bool) :=
  fold_left (fun set t => mapSet set t true) names [].

(** The body of "Evaluate each tool": the value of [shouldEnable]. *)
Definition shouldEnable (p : Profile) (profileEnabled profileDisabled : list (string * bool))
    (toolName : string) (toolDef : ToolDef) : bool :=
  if EnableAll p then negb (mapBool profileDisabled toolName)
  else if DisableUnlisted p then mapBool profileEnabled toolName
  else
    let shouldEnable := Enabled toolDef in
    let shouldEnable := if mapBool profileEnabled toolName then true else shouldEnable in
    let shouldEnable := if mapBool profileDisabled toolName then false else shouldEnable in
    shouldEnable.

(** The two nested [range] loops over [tc.Tools], setting
    [enabled[toolName] = true] for the tools [decide] accepts. *)
Definition enableLoop (decide : string -> ToolDef -> bool) (tc : ToolsConfig)
  : list (string * bool) :=
  fold_left
    (fun enabled (category : string * list (string * ToolDef)) =>
       fold_left
         (fun enabled (entry : string * ToolDef) =>
            let '(toolName, toolDef) := entry in
            if decide toolName toolDef then mapSet enabled toolName true else enabled)
         (snd category) enabled)
    (Tools tc) [].

(** [GetEnabledTools]; [None] is the nil profile. *)
Definition GetEnabledTools (tc : ToolsConfig) (p : option Profile)
  : list (string * bool) :=
  match p with
  | None => enableLoop (fun _ toolDef => Enabled toolDef) tc
  | Some p =>
      let profileEnabled := overrideSet (Enable p) in
      let profileDisabled := overrideSet (Disable p) in
      enableLoop (shouldEnable p profileEnabled profileDisabled) tc
  end.

(** [AllToolNames] *)
Definition AllToolNames (tc : ToolsConfig) : list string :=
  fold_left
    (fun names (category : string * list (string * ToolDef)) =>
       fold_left (fun names (entry : string * ToolDef) => (names ++ [fst entry])%list)
                 (snd category) names)
    (Tools tc) [].

End Config.

(** What a profile decides for a tool of [tools.yaml]: without a profile
    the tool's own default; with [enable_all] everything not in the
    disable list; else with [disable_unlisted] exactly the enable list;
    else the default, overridden by the enable list and then by the
    disable list. *)
Definition profileAllows (p : option Config.Profile) (name : string)
    (def : Config.ToolDef) : Prop :=
  match p with
  | None => Config.Enabled def = true
  | Some p =>
      if Config.EnableAll p then ~ In name (Config.Disable p)
      else if Config.DisableUnlisted p then In name (Config.Enable p)
      else (Config.Enabled def = true \/ In name (Config.Enable p)) /\
           ~ In name (Config.Disable p)
  end.

(** [name] is defined, with [def], in some category of the tools file. *)
Definition definesTool (tc : Config.ToolsConfig) (name : string)
    (def : Config.ToolDef) : Prop :=
  exists category defs, In (category, defs) (Config.Tools tc) /\ In (name, def) defs.

(** A string made of the six ASCII space bytes only. *)
Fixpoint onlySpaces (s : string) : bool :=
  match s with
  | EmptyString => true
  | String c rest => Config.is_ascii_space c && onlySpaces rest
  end.

(** The texts [parseBool] reads as true, once trimmed. *)
Definition truthy (w : string) : Prop :=
  sameText w "true" \/ w = "1" \/ sameText w "yes".

(** A result as the server reads it: it tells an error from a success
    by [Error] alone, so the two fields have to agree; and an error
    carries an HTTP error status. *)
Definition wellFormedResult {D : Type} (r : Client.ToolResult D) : Prop :=
  (Client.Success r = true <-> Client.Error r = None) /\
  (forall e, Client.Error r = Some e -> 400 <= Client.StatusCode e).

(** The upstream answered with a status below 400. *)
Definition answeredOk (x : Client.Exchange) : Prop :=
  exists statusCode status respBody,
    x = Client.Responded statusCode status respBody /\ statusCode < 400.

(** An entry of an OTLP attribute list that binds [key] to [v]: an object
    with the string [key] under "key" and a value that resolves to [v]. *)
Definition binds (attr : json) (key : string) (v : AttrValue) : Prop :=
  exists attrMap, attr = JObject attrMap /\
                  asString (index attrMap "key") = Some key /\
                  resolveValue attrMap = Some v.

(** * Properties *)

(** ** Error detail extraction *)

Lemma asString_Some (v : json) (s : string) :
  asString v = Some s <-> v = JString s.
Proof.
  split.
  - destruct v; simpl; intros H; inversion H; reflexivity.
  - intros ->. reflexivity.
Qed.

Lemma detailOrMessage_Nested (em : object) (s : string) :
  Client.detailOrMessage em = Some s <-> Nested em s.
Proof.
  unfold Client.detailOrMessage. split.
  - destruct (asString (index em "detail")) as [d|] eqn:Hd.
    + intros H. inversion H; subst.
      apply nested_detail. now apply asString_Some.
    + intros H. apply nested_message; [exact Hd|]. now apply asString_Some.
  - intros [s' Hd | s' Hd Hm].
    + rewrite Hd. reflexivity.
    + rewrite Hd, Hm. reflexivity.
Qed.

Lemma switchValue_Offers (v : json) (s : string) :
  Client.switchValue v = Some s <-> Offers v s.
Proof.
  split.
  - destruct v as [ | b | f | s0 | l | m]; simpl; try discriminate.
    + intros H. inversion H. constructor.
    + destruct l as [ | x rest]; [discriminate|].
      destruct x; try discriminate.
      * intros H. inversion H. constructor.
      * intros H. constructor. now apply detailOrMessage_Nested.
    + intros H. constructor. now apply detailOrMessage_Nested.
  - intros H. destruct H; simpl; try reflexivity;
      now apply detailOrMessage_Nested.
Qed.

Lemma extractErrorDetail_unfold (m : object) :
  Client.extractErrorDetail (JObject m) =
    match offer m "error" with
    | Some s => s
    | None =>
        match offer m "message" with
        | Some s => s
        | None =>
            match offer m "detail" with
            | Some s => s
            | None =>
                match offer m "errors" with
                | Some s => s
                | None => ""
                end
            end
        end
    end.
Proof.
  unfold Client.extractErrorDetail, Client.errorKeys, offer. simpl.
  destruct (lookup m "error") as [v1|]; [destruct (Client.switchValue v1); [reflexivity|] | ];
  (destruct (lookup m "message") as [v2|]; [destruct (Client.switchValue v2); [reflexivity|] | ]);
  (destruct (lookup m "detail") as [v3|]; [destruct (Client.switchValue v3); [reflexivity|] | ]);
  (destruct (lookup m "errors") as [v4|]; [destruct (Client.switchValue v4); reflexivity | reflexivity ]).
Qed.

(** C1, as the code has it. The detail is the first match in the order
    [error], [message], [detail], [errors] (not [detail] first): each key
    offers a string when its value is a string, an array whose first
    element is a string or an object holding a string [detail] or else
    [message], or such an object; a key that offers nothing is passed
    over; no offer at all, or a body that is not an object, gives the
    empty string. In particular a body with a top-level [detail] string
    and a top-level [error] string yields the [error] string. *)
Theorem extractErrorDetail_first_offer (m : object) :
  (forall k s, offer m k = Some s <->
               exists v, lookup m k = Some v /\ Offers v s) /\
  (forall s, offer m "error" = Some s ->
             Client.extractErrorDetail (JObject m) = s) /\
  (forall s, offer m "error" = None -> offer m "message" = Some s ->
             Client.extractErrorDetail (JObject m) = s) /\
  (forall s, offer m "error" = None -> offer m "message" = None ->
             offer m "detail" = Some s ->
             Client.extractErrorDetail (JObject m) = s) /\
  (forall s, offer m "error" = None -> offer m "message" = None ->
             offer m "detail" = None -> offer m "errors" = Some s ->
             Client.extractErrorDetail (JObject m) = s) /\
  (offer m "error" = None -> offer m "message" = None ->
   offer m "detail" = None -> offer m "errors" = None ->
   Client.extractErrorDetail (JObject m) = "") /\
  (forall d e, lookup m "detail" = Some (JString d) ->
               lookup m "error" = Some (JString e) ->
               Client.extractErrorDetail (JObject m) = e) /\
  (forall result, asMap result = None -> Client.extractErrorDetail result = "").
Proof.
  repeat split.
  - unfold offer. destruct (lookup m k) as [v|]; [|discriminate].
    intros H. exists v. split; [reflexivity|]. now apply switchValue_Offers.
  - unfold offer. intros [v [-> H]]. now apply switchValue_Offers.
  - intros s H. rewrite extractErrorDetail_unfold, H. reflexivity.
  - intros s H1 H2. rewrite extractErrorDetail_unfold, H1, H2. reflexivity.
  - intros s H1 H2 H3. rewrite extractErrorDetail_unfold, H1, H2, H3. reflexivity.
  - intros s H1 H2 H3 H4. rewrite extractErrorDetail_unfold, H1, H2, H3, H4. reflexivity.
  - intros H1 H2 H3 H4. rewrite extractErrorDetail_unfold, H1, H2, H3, H4. reflexivity.
  - intros d e _ He. rewrite extractErrorDetail_unfold. unfold offer at 1.
    rewrite He. reflexivity.
  - intros result H. destruct result; try reflexivity. discriminate.
Qed.

(** The body [{"detail": "field is required", "error": "Bad Request"}]:
    the extractor returns the [error] string. *)
Lemma extractErrorDetail_first_offer_witness :
  Client.extractErrorDetail
    (JObject [("detail", JString "field is required");
              ("error", JString "Bad Request")]) = "Bad Request".
Proof.
  exact (proj1 (proj2 (proj2 (proj2 (proj2 (proj2 (proj2
    (extractErrorDetail_first_offer
       [("detail", JString "field is required");
        ("error", JString "Bad Request")])))))))
    "field is required" "Bad Request" eq_refl eq_refl).
Defined.

(** C1 as stated fails: on a body holding both a top-level [detail]
    string and a top-level [error] string the detail returned is not the
    [detail] string. *)
Lemma extractErrorDetail_detail_not_first :
  let body := JObject [("detail", JString "field is required");
                       ("error", JString "Bad Request")] in
  index [("detail", JString "field is required");
         ("error", JString "Bad Request")] "detail" = JString "field is required" /\
  Client.extractErrorDetail body = "Bad Request" /\
  Client.extractErrorDetail body <> "field is required".
Proof.
  cbv zeta. split; [reflexivity|]. split; [reflexivity|].
  vm_compute. discriminate.
Qed.

(** ** Filter translation *)

Section FilterTranslation.
Variable rt : GoRuntime.

Lemma index_cons_other (m : object) (k k' : string) (v : json) :
  k <> k' -> index ((k, v) :: m) k' = index m k'.
Proof.
  intros H. unfold index. simpl.
  destruct (String.eqb k k') eqn:E; [|reflexivity].
  apply String.eqb_eq in E. contradiction.
Qed.

Lemma spans_buildFilters_table (args : object) :
  Spans.buildFilters rt args = flat_map (translateParam rt args) spanParams.
Proof.
  unfold Spans.buildFilters, spanParams.
  cbn [flat_map app]. rewrite app_nil_r, <- !app_assoc.
  repeat f_equal; unfold translateParam; cbn [kind argName upstreamKey].
  - unfold Spans.serviceNameFilter.
    destruct (index args "service_name") as [ | | | s | | ]; try reflexivity.
    simpl. destruct (String.eqb s ""); reflexivity.
  - unfold Spans.httpMethodFilter.
    destruct (index args "http_method") as [ | | | s | | ]; try reflexivity.
    simpl. destruct (String.eqb s ""); reflexivity.
  - unfold Spans.statusCodeFilter.
    destruct (index args "http_status_code"); reflexivity.
  - unfold Spans.spanNameFilter.
    destruct (index args "span_name") as [ | | | s | | ]; try reflexivity.
    simpl. destruct (String.eqb s ""); reflexivity.
  - unfold Spans.errorOnlyFilter.
    destruct (index args "error_only") as [ | [ | ] | | | | ]; reflexivity.
Qed.

(** C3, as the code has it. The span filters are the translations of the
    five parameters in the canonical order [service_name], [http_method],
    [http_status_code], [span_name], [error_only]: one filter under the
    upstream key for a text parameter that is a non-empty string, for
    [http_status_code] whenever it is a number (zero included: the code
    has no non-zero test there) and for [error_only] when it is [true]
    ([status.code], integer 2); nothing for a parameter that is absent,
    of another type, an empty string or [false]. A log query translates
    [service_name] alone. These lists are what the request carries to
    the upstream; [min_duration_ms], [min_severity] and [body_contains]
    never change them. *)
Theorem buildFilters_canonical (args : object) :
  (forall now,
      Spans.Filter (Spans.buildRequest rt now args) = Spans.buildFilters rt args /\
      Logs.Filter (Logs.buildRequest rt now args) = Logs.buildFilters args) /\
  Spans.buildFilters rt args = flat_map (translateParam rt args) spanParams /\
  (forall p, (List.length (translateParam rt args p) <= 1)%nat) /\
  (forall p f, In f (translateParam rt args p) -> Spans.Key f = upstreamKey p) /\
  Logs.buildFilters args =
    match index args "service_name" with
    | JString s =>
        if String.eqb s "" then []
        else [ {| Logs.Key := "service.name"; Logs.Operator := "is";
                  Logs.Value := Some {| Logs.StringValue := Some s;
                                        Logs.IntValue := None;
                                        Logs.BoolValue := None |} |} ]
    | _ => []
    end /\
  (forall v, Spans.buildFilters rt (("min_duration_ms", v) :: args)
             = Spans.buildFilters rt args) /\
  (forall v, Logs.buildFilters (("min_severity", v) :: args)
             = Logs.buildFilters args) /\
  (forall v, Logs.buildFilters (("body_contains", v) :: args)
             = Logs.buildFilters args) /\
  (index args "http_status_code" = JNumber 0 ->
   In (Spans.intFilter "http.response.status_code" "0") (Spans.buildFilters rt args)).
Proof.
  split; [intros now; split; reflexivity|].
  split; [apply spans_buildFilters_table|].
  split.
  { intros p. unfold translateParam.
    destruct (kind p); destruct (index args (argName p)) as [ | [ | ] | | s | | ];
      simpl; try lia; destruct (String.eqb s ""); simpl; lia. }
  split.
  { intros p f. unfold translateParam.
    destruct (kind p); destruct (index args (argName p)) as [ | [ | ] | | s | | ];
      simpl; try tauto; try (destruct (String.eqb s ""); simpl; try tauto);
      intros [<- | []]; reflexivity. }
  split.
  { unfold Logs.buildFilters.
    destruct (index args "service_name") as [ | | | s | | ]; simpl; try reflexivity.
    destruct (String.eqb s ""); reflexivity. }
  split.
  { intros v. unfold Spans.buildFilters, Spans.serviceNameFilter,
      Spans.httpMethodFilter, Spans.statusCodeFilter, Spans.spanNameFilter,
      Spans.errorOnlyFilter.
    rewrite !index_cons_other by discriminate. reflexivity. }
  split.
  { intros v. unfold Logs.buildFilters.
    rewrite index_cons_other by discriminate. reflexivity. }
  split.
  { intros v. unfold Logs.buildFilters.
    rewrite index_cons_other by discriminate. reflexivity. }
  intros H. rewrite spans_buildFilters_table.
  apply in_flat_map.
  exists {| argName := "http_status_code"; upstreamKey := "http.response.status_code";
            kind := NumberParam |}.
  split; [simpl; tauto|].
  unfold translateParam. simpl. rewrite H. left. reflexivity.
Qed.

(** C4, as the code has it. Every filter either handler builds has the
    operator ["is"] (not ["equals"]), a non-empty key and exactly one
    value variant populated. *)
Theorem buildFilters_wellformed (args : object) :
  Forall (fun f => Spans.Operator f = "is" /\ Spans.Key f <> "" /\
                   spanFilterPopulated f = 1%nat)
         (Spans.buildFilters rt args) /\
  Forall (fun f => Logs.Operator f = "is" /\ Logs.Key f <> "" /\
                   logFilterPopulated f = 1%nat)
         (Logs.buildFilters args).
Proof.
  split.
  - rewrite spans_buildFilters_table. apply Forall_forall. intros f Hf.
    apply in_flat_map in Hf. destruct Hf as [p [Hp Hf]].
    unfold translateParam in Hf.
    simpl in Hp.
    repeat (destruct Hp as [<- | Hp]); try contradiction; simpl in Hf;
      match type of Hf with
      | context [index args ?k] =>
          destruct (index args k) as [ | [ | ] | | s | | ]
      end; simpl in Hf; try contradiction;
      try (destruct (String.eqb s ""); simpl in Hf; try contradiction);
      destruct Hf as [<- | []]; simpl;
      (split; [reflexivity | split; [discriminate | reflexivity]]).
  - unfold Logs.buildFilters.
    destruct (asString (index args "service_name")) as [s|]; [|constructor].
    destruct (negb (String.eqb s "")); constructor; [|constructor].
    simpl. split; [reflexivity | split; [discriminate | reflexivity]].
Qed.

End FilterTranslation.

(** The arguments [{"http_status_code": 0, "error_only": true}] give two
    filters, the first for the zero status code. *)
Lemma buildFilters_canonical_witness :
  In (Spans.intFilter "http.response.status_code" "0")
     (Spans.buildFilters (exampleRuntime [])
        [("http_status_code", JNumber 0); ("error_only", JBool true)]).
Proof.
  exact (proj2 (proj2 (proj2 (proj2 (proj2 (proj2 (proj2 (proj2
    (buildFilters_canonical (exampleRuntime [])
       [("http_status_code", JNumber 0); ("error_only", JBool true)]))))))))
    eq_refl).
Defined.

(** C3 as stated fails: a zero [http_status_code] is translated. *)
Lemma buildFilters_zero_status_code :
  Spans.buildFilters (exampleRuntime []) [("http_status_code", JNumber 0)]
  = [ {| Spans.Key := "http.response.status_code";
         Spans.Operator := "is";
         Spans.Value := Some {| Spans.StringValue := None;
                                Spans.IntValue := Some "0";
                                Spans.BoolValue := None |} |} ].
Proof. reflexivity. Qed.

(** C4 as stated fails: the operator of an emitted filter is ["is"]. *)
Lemma buildFilters_operator_is :
  map Spans.Operator
      (Spans.buildFilters (exampleRuntime [])
         [("service_name", JString "cart"); ("error_only", JBool true)])
  = ["is"; "is"] /\
  map Logs.Operator (Logs.buildFilters [("service_name", JString "cart")]) = ["is"] /\
  "is" <> "equals".
Proof. repeat split; discriminate. Qed.

(** ** Service name of a resource group *)

Lemma scanServiceName_step (attr : json) (rest : list json) :
  Logs.scanServiceName (attr :: rest) =
    match namesService attr with
    | Some s => s
    | None => Logs.scanServiceName rest
    end.
Proof.
  simpl. unfold namesService.
  destruct attr as [ | | | | | attrMap]; simpl; try reflexivity.
  destruct (index attrMap "key") as [ | | | key | | ]; simpl; try reflexivity.
  destruct (String.eqb key "service.name"); [|destruct (index attrMap "value"); reflexivity].
  destruct (index attrMap "value") as [ | | | | | value]; reflexivity.
Qed.

Lemma scanServiceName_first (pre : list json) (a : json) (post : list json) (s : string) :
  Forall (fun x => namesService x = None) pre ->
  namesService a = Some s ->
  Logs.scanServiceName (pre ++ a :: post)%list = s.
Proof.
  intros Hpre Ha. induction Hpre as [ | x pre Hx _ IH].
  - simpl app. rewrite scanServiceName_step, Ha. reflexivity.
  - change ((x :: pre) ++ a :: post)%list with (x :: (pre ++ a :: post))%list.
    rewrite scanServiceName_step, Hx. exact IH.
Qed.

Lemma scanServiceName_none (l : list json) :
  Forall (fun x => namesService x = None) l ->
  Logs.scanServiceName l = "".
Proof.
  induction 1 as [ | x l Hx _ IH]; [reflexivity|].
  rewrite scanServiceName_step, Hx. exact IH.
Qed.

Lemma logs_extractServiceName_attrs (group : object) :
  Logs.extractServiceName group = Logs.scanServiceName (resourceAttributes group).
Proof.
  unfold Logs.extractServiceName, resourceAttributes.
  destruct (index group "resource") as [ | | | | | resource]; try reflexivity.
  simpl. destruct (index resource "attributes"); reflexivity.
Qed.

Lemma spans_extractServiceName_logs (group : object) :
  Spans.extractServiceName group = Logs.extractServiceName group.
Proof. reflexivity. Qed.

(** C5, as the code has it. The service name of a resource group is the
    [stringValue] of the first attribute entry that has the key
    [service.name] and a string [stringValue]; the scan stops there, so
    no entry after it is used, while a [service.name] entry without a
    string value is passed over and a later one can be used. With no such
    entry (or with [resource] or [attributes] missing or of another
    shape) the name is the empty string. Both packages agree. *)
Theorem extractServiceName_first_string (group : object) :
  (forall pre a post s,
      resourceAttributes group = (pre ++ a :: post)%list ->
      Forall (fun x => namesService x = None) pre ->
      namesService a = Some s ->
      Logs.extractServiceName group = s /\ Spans.extractServiceName group = s) /\
  (Forall (fun x => namesService x = None) (resourceAttributes group) ->
   Logs.extractServiceName group = "" /\ Spans.extractServiceName group = "").
Proof.
  split.
  - intros pre a post s Hl Hpre Ha.
    change (Spans.extractServiceName group) with (Logs.extractServiceName group).
    rewrite logs_extractServiceName_attrs, Hl.
    split; now apply scanServiceName_first.
  - intros H.
    change (Spans.extractServiceName group) with (Logs.extractServiceName group).
    rewrite logs_extractServiceName_attrs.
    split; now apply scanServiceName_none.
Qed.

(** A group whose first [service.name] entry holds an integer and whose
    second holds the string [checkout]. *)
Lemma extractServiceName_first_string_witness :
  let group :=
    [("resource", JObject [("attributes", JArray
       [ JObject [("key", JString "service.name");
                  ("value", JObject [("intValue", JString "7")])];
         JObject [("key", JString "service.name");
                  ("value", JObject [("stringValue", JString "checkout")])];
         JObject [("key", JString "service.name");
                  ("value", JObject [("stringValue", JString "cart")])] ])])] in
  Logs.extractServiceName group = "checkout" /\
  Spans.extractServiceName group = "checkout".
Proof.
  cbv zeta.
  refine (proj1 (extractServiceName_first_string
            [("resource", JObject [("attributes", JArray
               [ JObject [("key", JString "service.name");
                          ("value", JObject [("intValue", JString "7")])];
                 JObject [("key", JString "service.name");
                          ("value", JObject [("stringValue", JString "checkout")])];
                 JObject [("key", JString "service.name");
                          ("value", JObject [("stringValue", JString "cart")])] ])])])
            [ JObject [("key", JString "service.name");
                       ("value", JObject [("intValue", JString "7")])] ]
            (JObject [("key", JString "service.name");
                      ("value", JObject [("stringValue", JString "checkout")])])
            [ JObject [("key", JString "service.name");
                       ("value", JObject [("stringValue", JString "cart")])] ]
            "checkout" eq_refl _ eq_refl).
  repeat constructor.
Defined.

(** C5 as stated fails: the first entry whose key equals [service.name]
    has no string value, the scan goes on, and the name comes from a
    later [service.name] entry. *)
Lemma extractServiceName_later_entry_used :
  let first := JObject [("key", JString "service.name");
                        ("value", JObject [("intValue", JString "7")])] in
  let later := JObject [("key", JString "service.name");
                        ("value", JObject [("stringValue", JString "checkout")])] in
  let group := [("resource", JObject [("attributes", JArray [first; later])])] in
  Logs.extractServiceName group = "checkout" /\
  Spans.extractServiceName group = "checkout" /\
  Logs.extractServiceName
    [("resource", JObject [("attributes", JArray [first])])] = "".
Proof. cbv zeta. repeat split. Qed.

(** ** Loops that select, and truncation *)

Lemma fold_left_keep {A : Type} (keep : A -> bool) (l acc : list A) :
  fold_left (fun filtered x => if keep x then (filtered ++ [x])%list else filtered) l acc
  = (acc ++ filter keep l)%list.
Proof.
  revert acc. induction l as [ | x l IH]; intros acc; simpl.
  - now rewrite app_nil_r.
  - rewrite IH. destruct (keep x); [|reflexivity].
    now rewrite <- app_assoc.
Qed.


Lemma spans_keepLoop_filter (keep : Spans.FlatSpan -> bool) (l : list Spans.FlatSpan) :
  Spans.keepLoop keep l = filter keep l.
Proof. unfold Spans.keepLoop. now rewrite fold_left_keep. Qed.

Lemma filter_all {A : Type} (keep : A -> bool) (l : list A) :
  Forall (fun x => keep x = true) l -> filter keep l = l.
Proof.
  induction 1 as [ | x l Hx _ IH]; simpl; [reflexivity|].
  now rewrite Hx, IH.
Qed.

Lemma subseq_refl {A : Type} (l : list A) : subseq l l.
Proof. induction l; constructor; assumption. Qed.

Lemma filter_subseq {A : Type} (keep : A -> bool) (l : list A) :
  subseq (filter keep l) l.
Proof.
  induction l as [ | x l IH]; simpl; [constructor|].
  destruct (keep x); constructor; assumption.
Qed.


Lemma has_prefix_spec (s p : string) :
  Go.has_prefix s p = true <-> exists q, s = (p ++ q)%string.
Proof.
  revert s. induction p as [ | b p IH]; intros s.
  - split; [intros _; now exists s | intros _; destruct s; reflexivity].
  - destruct s as [ | a s]; simpl.
    + split; [discriminate | intros [q H]; discriminate].
    + rewrite andb_true_iff, Ascii.eqb_eq, IH. split.
      * intros [-> [q ->]]. now exists q.
      * intros [q H]. inversion H. split; [reflexivity | now exists q].
Qed.






Lemma applyLimit_returns (limit : Z) (flat : list Logs.FlatLog) :
  0 <= limit ->
  Logs.applyLimit limit flat = Returns (firstn (Z.to_nat limit) flat).
Proof.
  intros H. unfold Logs.applyLimit.
  destruct (Z.of_nat (List.length flat) >? limit) eqn:E.
  - destruct (limit <? 0) eqn:E0; [lia | reflexivity].
  - f_equal. symmetry. apply firstn_all2. lia.
Qed.

(** ** Case folding of ASCII text *)

Lemma nat_of_ascii_inj (a b : ascii) : nat_of_ascii a = nat_of_ascii b -> a = b.
Proof.
  intros H. rewrite <- (ascii_nat_embedding a), <- (ascii_nat_embedding b).
  now rewrite H.
Qed.

Lemma is_upper_bounds (a : ascii) :
  Go.is_upper a = true <-> (65 <= nat_of_ascii a <= 90)%nat.
Proof.
  unfold Go.is_upper. rewrite andb_true_iff, !Nat.leb_le. reflexivity.
Qed.

Lemma lower_byte_upper (a : ascii) :
  Go.is_upper a = true ->
  nat_of_ascii (Go.lower_byte a) = (nat_of_ascii a + 32)%nat /\
  Go.is_upper (Go.lower_byte a) = false.
Proof.
  intros H. unfold Go.lower_byte. rewrite H.
  apply is_upper_bounds in H.
  assert (E : nat_of_ascii (ascii_of_nat (nat_of_ascii a + 32))
              = (nat_of_ascii a + 32)%nat)
    by (apply nat_ascii_embedding; lia).
  split; [exact E|].
  destruct (Go.is_upper (ascii_of_nat (nat_of_ascii a + 32))) eqn:U; [|reflexivity].
  apply is_upper_bounds in U. lia.
Qed.

Lemma lower_byte_sameLetter (a b : ascii) :
  Go.lower_byte a = Go.lower_byte b <-> sameLetter a b.
Proof.
  unfold sameLetter. split.
  - intros H. apply (f_equal nat_of_ascii) in H.
    destruct (Go.is_upper a) eqn:Ua; destruct (Go.is_upper b) eqn:Ub.
    + destruct (lower_byte_upper a Ua) as [Ea _].
      destruct (lower_byte_upper b Ub) as [Eb _].
      left. apply nat_of_ascii_inj. lia.
    + destruct (lower_byte_upper a Ua) as [Ea _].
      unfold Go.lower_byte in H at 2. rewrite Ub in H.
      right. left. split; [reflexivity | lia].
    + destruct (lower_byte_upper b Ub) as [Eb _].
      unfold Go.lower_byte in H at 1. rewrite Ua in H.
      right. right. split; [reflexivity | lia].
    + unfold Go.lower_byte in H. rewrite Ua, Ub in H.
      left. now apply nat_of_ascii_inj.
  - intros [-> | [[Ua E] | [Ub E]]]; [reflexivity | | ].
    + destruct (lower_byte_upper a Ua) as [Ea _].
      apply nat_of_ascii_inj. rewrite Ea.
      unfold Go.lower_byte.
      destruct (Go.is_upper b) eqn:Ub; [|now rewrite E].
      apply is_upper_bounds in Ua. apply is_upper_bounds in Ub. lia.
    + destruct (lower_byte_upper b Ub) as [Eb _].
      apply nat_of_ascii_inj. rewrite Eb.
      unfold Go.lower_byte.
      destruct (Go.is_upper a) eqn:Ua; [|now rewrite E].
      apply is_upper_bounds in Ua. apply is_upper_bounds in Ub. lia.
Qed.

Lemma map_bytes_sameText (s t : string) :
  Go.map_bytes Go.lower_byte s = Go.map_bytes Go.lower_byte t <-> sameText s t.
Proof.
  revert t. induction s as [ | a s IH]; intros t.
  - destruct t; simpl; split; intros H; try constructor; try discriminate;
      inversion H.
  - destruct t as [ | b t]; simpl.
    + split; intros H; [discriminate | inversion H].
    + split.
      * intros H. inversion H as [[Hab Hst]]. constructor.
        -- now apply lower_byte_sameLetter.
        -- now apply IH.
      * intros H. inversion H; subst. f_equal.
        -- now apply lower_byte_sameLetter.
        -- now apply IH.
Qed.




(** ** Post-filters of a log query *)

Section LogPostFilter.
Variable rt : GoRuntime.






(** The envelope of a log query whose upstream request succeeded with the
    payload [data]. *)
Lemma logs_handler_envelope (now : Z) (args : object)
    (upstream : Logs.QueryLogsRequest -> Client.Exchange) (data : json) :
  let res := Client.Post rt (upstream (Logs.buildRequest rt now args)) in
  let kept := firstn (Z.to_nat (Logs.finalLimit rt args))
                (Logs.bodyFilter rt args
                   (Logs.severityFilter args (Logs.flattenLogsResponse rt data))) in
  Client.Success res = true -> Client.Data res = Some data ->
  0 <= Logs.finalLimit rt args ->
  Logs.QueryLogsHandler rt now args upstream
  = Returns
      {| Client.Success := true;
         Client.Data :=
           Some (Logs.QueryData
             {| Logs.logs := kept;
                Logs.count := Z.of_nat (List.length kept);
                Logs.query := {| Logs.time_range := Logs.timeRange rt now args;
                                 Logs.filters := Logs.buildFilters args;
                                 Logs.limit := Logs.finalLimit rt args |} |});
         Client.Error := None |}.
Proof.
  cbv zeta. intros Hs Hd Hl. unfold Logs.QueryLogsHandler.
  rewrite Hs, Hd. simpl negb. cbv iota.
  rewrite applyLimit_returns by exact Hl. reflexivity.
Qed.


End LogPostFilter.


(** ** A severity name outside the six levels *)

Section UnknownSeverity.
Variable rt : GoRuntime.






Lemma logs_handler_returns (now : Z) (args : object)
    (upstream : Logs.QueryLogsRequest -> Client.Exchange) :
  0 <= Logs.finalLimit rt args ->
  exists r,
    Logs.QueryLogsHandler rt now args upstream = Returns r /\
    Client.Success r
    = Client.Success (Client.Post rt (upstream (Logs.buildRequest rt now args))).
Proof.
  intros Hl. unfold Logs.QueryLogsHandler.
  destruct (Client.Success (Client.Post rt (upstream (Logs.buildRequest rt now args))))
    eqn:E; simpl negb; cbv iota.
  - rewrite applyLimit_returns by exact Hl. eexists. split; reflexivity.
  - eexists. split; reflexivity.
Qed.



End UnknownSeverity.



(** ** Flattening *)

Lemma fold_left_append {A B : Type} (f : B -> list A) (step : list A -> B -> list A)
    (l : list B) (acc : list A) :
  (forall acc x, step acc x = (acc ++ f x)%list) ->
  fold_left step l acc = (acc ++ flat_map f l)%list.
Proof.
  intros Hstep. revert acc. induction l as [ | x l IH]; intros acc; simpl.
  - now rewrite app_nil_r.
  - rewrite IH, Hstep. now rewrite <- app_assoc.
Qed.

Section Flattening.
Variable rt : GoRuntime.

Lemma logs_recordStep_append (svc : string) (acc : list Logs.FlatLog) (lr : json) :
  Logs.recordStep rt svc acc lr = (acc ++ logOfEntry rt svc lr)%list.
Proof.
  unfold Logs.recordStep, logOfEntry.
  destruct lr; simpl; try (now rewrite app_nil_r); reflexivity.
Qed.

Lemma logs_scopeStep_append (svc : string) (acc : list Logs.FlatLog) (sl : json) :
  Logs.scopeStep rt svc acc sl = (acc ++ logsOfScope rt svc sl)%list.
Proof.
  unfold Logs.scopeStep, logsOfScope.
  destruct sl as [ | | | | | slMap]; simpl; try (now rewrite app_nil_r).
  destruct (index slMap "logRecords") as [ | | | | recs | ]; simpl;
    try (now rewrite app_nil_r).
  apply fold_left_append. apply logs_recordStep_append.
Qed.

Lemma logs_resourceStep_append (acc : list Logs.FlatLog) (rl : json) :
  Logs.resourceStep rt acc rl = (acc ++ logsOfResource rt rl)%list.
Proof.
  unfold Logs.resourceStep, logsOfResource.
  destruct rl as [ | | | | | rlMap]; simpl; try (now rewrite app_nil_r).
  destruct (index rlMap "scopeLogs") as [ | | | | scopes | ]; simpl;
    try (now rewrite app_nil_r).
  apply fold_left_append. apply logs_scopeStep_append.
Qed.

Lemma flattenLogsResponse_groups (data : json) :
  Logs.flattenLogsResponse rt data =
    match data with
    | JObject dataMap =>
        match index dataMap "resourceLogs" with
        | JArray resourceLogs => flat_map (logsOfResource rt) resourceLogs
        | _ => []
        end
    | _ => []
    end.
Proof.
  unfold Logs.flattenLogsResponse.
  destruct data as [ | | | | | dataMap]; simpl; try reflexivity.
  destruct (index dataMap "resourceLogs") as [ | | | | groups | ]; simpl;
    try reflexivity.
  rewrite (fold_left_append (logsOfResource rt)); [reflexivity|].
  apply logs_resourceStep_append.
Qed.

Lemma spans_spanStep_append (svc : string) (acc : list Spans.FlatSpan) (s : json) :
  Spans.spanStep rt svc acc s = (acc ++ spanOfEntry rt svc s)%list.
Proof.
  unfold Spans.spanStep, spanOfEntry.
  destruct s; simpl; try (now rewrite app_nil_r); reflexivity.
Qed.

Lemma spans_scopeStep_append (svc : string) (acc : list Spans.FlatSpan) (ss : json) :
  Spans.scopeStep rt svc acc ss = (acc ++ spansOfScope rt svc ss)%list.
Proof.
  unfold Spans.scopeStep, spansOfScope.
  destruct ss as [ | | | | | ssMap]; simpl; try (now rewrite app_nil_r).
  destruct (index ssMap "spans") as [ | | | | spanList | ]; simpl;
    try (now rewrite app_nil_r).
  apply fold_left_append. apply spans_spanStep_append.
Qed.

Lemma spans_resourceStep_append (acc : list Spans.FlatSpan) (rs : json) :
  Spans.resourceStep rt acc rs = (acc ++ spansOfResource rt rs)%list.
Proof.
  unfold Spans.resourceStep, spansOfResource.
  destruct rs as [ | | | | | rsMap]; simpl; try (now rewrite app_nil_r).
  destruct (index rsMap "scopeSpans") as [ | | | | scopes | ]; simpl;
    try (now rewrite app_nil_r).
  apply fold_left_append. apply spans_scopeStep_append.
Qed.

Lemma flattenSpansResponse_groups (data : json) :
  Spans.flattenSpansResponse rt data =
    match data with
    | JObject dataMap =>
        match index dataMap "resourceSpans" with
        | JArray resourceSpans => flat_map (spansOfResource rt) resourceSpans
        | _ => []
        end
    | _ => []
    end.
Proof.
  unfold Spans.flattenSpansResponse.
  destruct data as [ | | | | | dataMap]; simpl; try reflexivity.
  destruct (index dataMap "resourceSpans") as [ | | | | groups | ]; simpl;
    try reflexivity.
  rewrite (fold_left_append (spansOfResource rt)); [reflexivity|].
  apply spans_resourceStep_append.
Qed.

Lemma stringField_stringAt (m : object) (k : string) :
  Spans.stringField m k = stringAt m k.
Proof. unfold Spans.stringField, stringAt. destruct (index m k); reflexivity. Qed.

Lemma flattenLog_fields (svc : string) (logMap : object) :
  let r := Logs.flattenLog rt svc logMap in
  Logs.ServiceName r = svc /\
  Logs.SeverityText r = stringAt logMap "severityText" /\
  Logs.SeverityNumber r = intAt rt logMap "severityNumber" /\
  Logs.Body r = stringAt (objectAt logMap "body") "stringValue" /\
  Logs.TraceID r = stringAt logMap "traceId" /\
  Logs.SpanID r = stringAt logMap "spanId" /\
  Logs.Timestamp r =
    match index logMap "timeUnixNano", index logMap "observedTimeUnixNano" with
    | JString t, _ => Logs.formatNano rt t
    | _, JString t => Logs.formatNano rt t
    | _, _ => ""
    end /\
  (asSlice (index logMap "attributes") = None -> Logs.Attributes r = []).
Proof.
  cbv zeta. unfold Logs.flattenLog, stringAt, intAt, objectAt. simpl.
  repeat split.
  - destruct (index logMap "severityText"); reflexivity.
  - destruct (index logMap "severityNumber"); reflexivity.
  - destruct (index logMap "body") as [ | | | | | body]; try reflexivity.
    simpl. destruct (index body "stringValue"); reflexivity.
  - destruct (index logMap "traceId"); reflexivity.
  - destruct (index logMap "spanId"); reflexivity.
  - unfold Logs.extractTimestamp.
    destruct (index logMap "timeUnixNano");
      destruct (index logMap "observedTimeUnixNano"); reflexivity.
  - unfold Logs.extractLogAttributes. intros ->. reflexivity.
Qed.

Lemma flattenSpan_fields (svc : string) (spanMap : object) :
  let r := Spans.flattenSpan rt svc spanMap in
  Spans.ServiceName r = svc /\
  Spans.Name r = stringAt spanMap "name" /\
  Spans.TraceID r = stringAt spanMap "traceId" /\
  Spans.SpanID r = stringAt spanMap "spanId" /\
  Spans.ParentSpanID r = stringAt spanMap "parentSpanId" /\
  Spans.StatusCode r = intAt rt (objectAt spanMap "status") "code" /\
  Spans.StatusMessage r = stringAt (objectAt spanMap "status") "message" /\
  (Spans.DurationMs r, Spans.StartTime r, Spans.EndTime r) =
    match index spanMap "startTimeUnixNano", index spanMap "endTimeUnixNano" with
    | JString s, JString e =>
        match Go.ParseInt s, Go.ParseInt e with
        | Some startNano, Some endNano =>
            (Spans.durationMs startNano endNano,
             format_RFC3339Nano rt startNano, format_RFC3339Nano rt endNano)
        | _, _ => (0%Q, "", "")
        end
    | _, _ => (0%Q, "", "")
    end /\
  (asSlice (index spanMap "attributes") = None -> Spans.Attributes r = []).
Proof.
  cbv zeta. unfold Spans.flattenSpan.
  destruct (Spans.extractTimes rt spanMap) as [[d st] en] eqn:Et. simpl.
  rewrite !stringField_stringAt.
  repeat split.
  - unfold intAt, objectAt.
    destruct (index spanMap "status") as [ | | | | | status]; try reflexivity.
    simpl. destruct (index status "code"); reflexivity.
  - unfold objectAt.
    destruct (index spanMap "status") as [ | | | | | status]; try reflexivity.
    simpl. apply stringField_stringAt.
  - rewrite <- Et. unfold Spans.extractTimes.
    destruct (index spanMap "startTimeUnixNano") as [ | | | s | | ]; try reflexivity.
    simpl. destruct (index spanMap "endTimeUnixNano") as [ | | | e | | ]; reflexivity.
  - unfold Spans.extractSpanAttributes. intros ->. reflexivity.
Qed.

End Flattening.

(** C8. Both flattening functions are total functions from decoded JSON
    to record lists (the code has no error return and no operation that
    can panic: every type assertion is in its comma-ok form). The result
    is the concatenation, in order, of what the resource groups
    contribute; a payload, resource group, scope group or leaf entry of
    another shape than expected contributes no records; a leaf that is an
    object contributes exactly one record, each field of which is read
    from its own key and is the zero value when that key is missing or
    mistyped. In particular zero resource groups, or one resource group
    with zero scope groups, give the empty list. *)
Theorem flatten_total (rt : GoRuntime) (data : json) :
  (Logs.flattenLogsResponse rt data =
     match data with
     | JObject dataMap =>
         match index dataMap "resourceLogs" with
         | JArray resourceLogs => flat_map (logsOfResource rt) resourceLogs
         | _ => []
         end
     | _ => []
     end /\
   Spans.flattenSpansResponse rt data =
     match data with
     | JObject dataMap =>
         match index dataMap "resourceSpans" with
         | JArray resourceSpans => flat_map (spansOfResource rt) resourceSpans
         | _ => []
         end
     | _ => []
     end) /\
  (asMap data = None ->
   Logs.flattenLogsResponse rt data = [] /\ Spans.flattenSpansResponse rt data = []) /\
  (forall m, data = JObject m ->
     (asSlice (index m "resourceLogs") = None -> Logs.flattenLogsResponse rt data = []) /\
     (asSlice (index m "resourceSpans") = None -> Spans.flattenSpansResponse rt data = []) /\
     (index m "resourceLogs" = JArray [] -> Logs.flattenLogsResponse rt data = []) /\
     (index m "resourceSpans" = JArray [] -> Spans.flattenSpansResponse rt data = []) /\
     (forall g, index m "resourceLogs" = JArray [JObject g] ->
                index g "scopeLogs" = JArray [] ->
                Logs.flattenLogsResponse rt data = []) /\
     (forall g, index m "resourceSpans" = JArray [JObject g] ->
                index g "scopeSpans" = JArray [] ->
                Spans.flattenSpansResponse rt data = [])) /\
  (forall rl,
     (asMap rl = None -> logsOfResource rt rl = [] /\ spansOfResource rt rl = []) /\
     (forall g, rl = JObject g ->
        (asSlice (index g "scopeLogs") = None -> logsOfResource rt rl = []) /\
        (asSlice (index g "scopeSpans") = None -> spansOfResource rt rl = []))) /\
  (forall svc sl,
     (asMap sl = None -> logsOfScope rt svc sl = [] /\ spansOfScope rt svc sl = []) /\
     (forall g, sl = JObject g ->
        (asSlice (index g "logRecords") = None -> logsOfScope rt svc sl = []) /\
        (asSlice (index g "spans") = None -> spansOfScope rt svc sl = []))) /\
  (forall svc leaf,
     (asMap leaf = None -> logOfEntry rt svc leaf = [] /\ spanOfEntry rt svc leaf = []) /\
     (forall m, leaf = JObject m ->
        logOfEntry rt svc leaf = [Logs.flattenLog rt svc m] /\
        spanOfEntry rt svc leaf = [Spans.flattenSpan rt svc m])) /\
  (forall svc m,
     let r := Logs.flattenLog rt svc m in
     Logs.ServiceName r = svc /\
     Logs.SeverityText r = stringAt m "severityText" /\
     Logs.SeverityNumber r = intAt rt m "severityNumber" /\
     Logs.Body r = stringAt (objectAt m "body") "stringValue" /\
     Logs.TraceID r = stringAt m "traceId" /\
     Logs.SpanID r = stringAt m "spanId" /\
     Logs.Timestamp r =
       match index m "timeUnixNano", index m "observedTimeUnixNano" with
       | JString t, _ => Logs.formatNano rt t
       | _, JString t => Logs.formatNano rt t
       | _, _ => ""
       end /\
     (asSlice (index m "attributes") = None -> Logs.Attributes r = [])) /\
  (forall svc m,
     let r := Spans.flattenSpan rt svc m in
     Spans.ServiceName r = svc /\
     Spans.Name r = stringAt m "name" /\
     Spans.TraceID r = stringAt m "traceId" /\
     Spans.SpanID r = stringAt m "spanId" /\
     Spans.ParentSpanID r = stringAt m "parentSpanId" /\
     Spans.StatusCode r = intAt rt (objectAt m "status") "code" /\
     Spans.StatusMessage r = stringAt (objectAt m "status") "message" /\
     (Spans.DurationMs r, Spans.StartTime r, Spans.EndTime r) =
       match index m "startTimeUnixNano", index m "endTimeUnixNano" with
       | JString s, JString e =>
           match Go.ParseInt s, Go.ParseInt e with
           | Some startNano, Some endNano =>
               (Spans.durationMs startNano endNano,
                format_RFC3339Nano rt startNano, format_RFC3339Nano rt endNano)
           | _, _ => (0%Q, "", "")
           end
       | _, _ => (0%Q, "", "")
       end /\
     (asSlice (index m "attributes") = None -> Spans.Attributes r = [])).
Proof.
  split; [split; [apply flattenLogsResponse_groups | apply flattenSpansResponse_groups]|].
  split.
  { intros H. rewrite flattenLogsResponse_groups, flattenSpansResponse_groups.
    destruct data; try discriminate; split; reflexivity. }
  split.
  { intros m ->. rewrite flattenLogsResponse_groups, flattenSpansResponse_groups.
    repeat split.
    - destruct (index m "resourceLogs"); try reflexivity; discriminate.
    - destruct (index m "resourceSpans"); try reflexivity; discriminate.
    - intros ->. reflexivity.
    - intros ->. reflexivity.
    - intros g -> Hg. simpl. rewrite Hg. reflexivity.
    - intros g -> Hg. simpl. rewrite Hg. reflexivity. }
  split.
  { intros rl. split.
    - destruct rl; try discriminate; split; reflexivity.
    - intros g ->. simpl. split.
      + destruct (index g "scopeLogs"); try reflexivity; discriminate.
      + destruct (index g "scopeSpans"); try reflexivity; discriminate. }
  split.
  { intros svc sl. split.
    - destruct sl; try discriminate; split; reflexivity.
    - intros g ->. simpl. split.
      + destruct (index g "logRecords"); try reflexivity; discriminate.
      + destruct (index g "spans"); try reflexivity; discriminate. }
  split.
  { intros svc leaf. split.
    - destruct leaf; try discriminate; split; reflexivity.
    - intros m ->. split; reflexivity. }
  split.
  { intros svc m. apply flattenLog_fields. }
  intros svc m. apply flattenSpan_fields.
Qed.

(** A payload with a resource group that is a string, one whose
    [scopeLogs] is a number, and one holding a leaf that is a number and a
    leaf whose [severityText] and [body] are mistyped: one record, with
    the zero value in the mistyped fields and the other fields read. *)
Lemma flatten_total_witness :
  Logs.flattenLogsResponse (exampleRuntime [])
    (JObject [("resourceLogs", JArray
       [ JString "oops";
         JObject [("scopeLogs", JNumber 5)];
         JObject [("scopeLogs", JArray
           [ JObject [("logRecords", JArray
               [ JNumber 7;
                 JObject [("severityText", JNumber 3);
                          ("severityNumber", JNumber 9);
                          ("body", JString "not an object");
                          ("traceId", JString "abc")] ])] ])] ])])
  = [ {| Logs.Timestamp := ""; Logs.ServiceName := ""; Logs.SeverityText := "";
         Logs.SeverityNumber := 9; Logs.Body := ""; Logs.TraceID := "abc";
         Logs.SpanID := ""; Logs.Attributes := [] |} ].
Proof.
  exact (proj1 (proj1 (flatten_total (exampleRuntime [])
    (JObject [("resourceLogs", JArray
       [ JString "oops";
         JObject [("scopeLogs", JNumber 5)];
         JObject [("scopeLogs", JArray
           [ JObject [("logRecords", JArray
               [ JNumber 7;
                 JObject [("severityText", JNumber 3);
                          ("severityNumber", JNumber 9);
                          ("body", JString "not an object");
                          ("traceId", JString "abc")] ])] ])] ])])))).
Defined.

(** ** A response body that is not JSON *)




Section NotJSON.
Variable rt : GoRuntime.



(** The envelope of a span query whose upstream request succeeded with
    the payload [data]: the filtered records, all of them. *)
Lemma spans_handler_envelope (now : Z) (args : object)
    (upstream : Spans.QuerySpansRequest -> Client.Exchange) (data : json) :
  let res := Client.Post rt (upstream (Spans.buildRequest rt now args)) in
  let kept := Spans.durationFilter args (Spans.flattenSpansResponse rt data) in
  Client.Success res = true -> Client.Data res = Some data ->
  Spans.QuerySpansHandler rt now args upstream
  = {| Client.Success := true;
       Client.Data :=
         Some (Spans.QueryData
           {| Spans.spans := kept;
              Spans.count := Z.of_nat (List.length kept);
              Spans.query := {| Spans.time_range := Spans.timeRange rt now args;
                                Spans.filters := Spans.buildFilters rt args;
                                Spans.limit := Spans.finalLimit rt args |} |});
       Client.Error := None |}.
Proof.
  cbv zeta. intros Hs Hd. unfold Spans.QuerySpansHandler.
  rewrite Hs, Hd. reflexivity.
Qed.


End NotJSON.



(** ** The limit of a span query *)

Lemma spanOfEntry_repeat (rt : GoRuntime) (svc : string) (n : nat) :
  List.length (flat_map (spanOfEntry rt svc) (repeat (JObject []) n)) = n.
Proof.
  induction n as [ | n IH]; [reflexivity|].
  change (repeat (JObject []) (S n)) with (JObject [] :: repeat (JObject []) n).
  cbn [flat_map spanOfEntry]. rewrite length_app, IH. reflexivity.
Qed.

Lemma spansPayload_flatten (rt : GoRuntime) (n : nat) :
  List.length (Spans.flattenSpansResponse rt (spansPayload n)) = n.
Proof.
  rewrite flattenSpansResponse_groups. unfold spansPayload.
  cbn [index lookup String.eqb Ascii.eqb Bool.eqb flat_map spansOfResource spansOfScope].
  rewrite !app_nil_r. apply spanOfEntry_repeat.
Qed.

Lemma spans_finalLimit_max (rt : GoRuntime) (args : object) :
  Spans.finalLimit rt args <= 200.
Proof.
  unfold Spans.finalLimit.
  destruct (asFloat64 (index args "limit")) as [l|]; [|lia].
  destruct (Go.fgt l 0); [|lia].
  destruct (float64_to_int rt l >? 200) eqn:E; lia.
Qed.

Lemma spans_durationFilter_supplied (args : object) (d : Q)
    (flat : list Spans.FlatSpan) :
  index args "min_duration_ms" = JNumber d -> Go.fgt d 0 = true ->
  Spans.durationFilter args flat
  = filter (fun span => Go.fge (Spans.DurationMs span) d) flat.
Proof.
  intros H Hd. unfold Spans.durationFilter. rewrite H. simpl. rewrite Hd.
  apply spans_keepLoop_filter.
Qed.

Lemma spans_durationFilter_absent (args : object) (flat : list Spans.FlatSpan) :
  asFloat64 (index args "min_duration_ms") = None ->
  Spans.durationFilter args flat = flat.
Proof. intros H. unfold Spans.durationFilter. now rewrite H. Qed.

(** Whatever the limit, the envelope of a span query without a duration
    filter holds every span of the payload. *)
Lemma spans_envelope_holds_all (rt : GoRuntime) (now : Z) (args : object)
    (upstream : Spans.QuerySpansRequest -> Client.Exchange) (n : nat) :
  let res := Client.Post rt (upstream (Spans.buildRequest rt now args)) in
  Client.Success res = true -> Client.Data res = Some (spansPayload n) ->
  asFloat64 (index args "min_duration_ms") = None ->
  exists e,
    Client.Data (Spans.QuerySpansHandler rt now args upstream)
    = Some (Spans.QueryData e) /\
    Spans.count e = Z.of_nat n /\
    Spans.limit (Spans.query e) <= 200.
Proof.
  cbv zeta. intros Hs Hd Hmin.
  rewrite (spans_handler_envelope rt now args upstream _ Hs Hd).
  eexists. split; [reflexivity|]. cbn [Spans.count Spans.query Spans.limit].
  rewrite (spans_durationFilter_absent args _ Hmin), spansPayload_flatten.
  split; [reflexivity | apply spans_finalLimit_max].
Qed.

(** C2 on the code. The caller asks for [limit = 10000] and the upstream
    answers with 201 spans: the limit sent and echoed is the clamped 200,
    and the envelope holds all 201 records, since [QuerySpansHandler] has
    no statement that truncates (the log handler has one). *)
Theorem spans_envelope_exceeds_limit :
  let rt := exampleRuntime [(spansBody 201, spansPayload 201)] in
  let args := [("limit", JNumber 10000)] in
  let upstream := fun _ : Spans.QuerySpansRequest =>
                    Client.Responded 200 "200 OK" (spansBody 201) in
  let result := Spans.QuerySpansHandler rt 1700000000000000000 args upstream in
  Spans.Limit (Spans.ReqPagination (Spans.buildRequest rt 1700000000000000000 args)) = 200 /\
  Client.Success result = true /\
  exists e,
    Client.Data result = Some (Spans.QueryData e) /\
    Spans.limit (Spans.query e) = 200 /\
    Spans.count e = 201 /\
    List.length (Spans.spans e) = 201%nat.
Proof.
  cbv zeta. split; [reflexivity|]. split; [vm_compute; reflexivity|].
  eexists. split; [vm_compute; reflexivity|].
  repeat split.
Qed.

(** ** Time window *)

Lemma wrap64_id (z : Z) :
  Go.int_min <= z <= Go.int_max -> Go.wrap64 z = z.
Proof.
  unfold Go.int_min, Go.int_max, Go.wrap64. intros H.
  rewrite Z.mod_small; lia.
Qed.

Lemma fgt_zero (f : Q) : Go.fgt f 0 = true <-> (0 < f)%Q.
Proof.
  unfold Go.fgt. rewrite negb_true_iff. split.
  - intros H. apply Qnot_le_lt. intros Hle.
    apply Qle_bool_iff in Hle. congruence.
  - intros H. destruct (Qle_bool f 0) eqn:E; [|reflexivity].
    apply Qle_bool_iff in E. exfalso. exact (Qlt_not_le _ _ H E).
Qed.

Lemma fgt_zero_false (f : Q) : Go.fgt f 0 = false <-> (f <= 0)%Q.
Proof.
  unfold Go.fgt. rewrite negb_false_iff. apply Qle_bool_iff.
Qed.

Lemma trunc_nonneg (f : Q) : (0 < f)%Q -> 0 <= Go.trunc f.
Proof.
  unfold Qlt, Go.trunc. simpl. intros H.
  apply Z.quot_pos; lia.
Qed.

Lemma trunc_lower (f : Q) (n : Z) :
  0 <= n -> (inject_Z n <= f)%Q -> n <= Go.trunc f.
Proof.
  unfold Qle, Go.trunc. simpl. intros Hn H.
  rewrite Z.quot_div_nonneg by nia.
  apply Z.div_le_lower_bound; lia.
Qed.

Lemma trunc_upper (f : Q) (n : Z) :
  (0 < f)%Q -> (f <= inject_Z n)%Q -> Go.trunc f <= n.
Proof.
  unfold Qlt, Qle, Go.trunc. simpl. intros H0 H.
  rewrite Z.quot_div_nonneg by lia.
  apply Z.div_le_upper_bound; lia.
Qed.

Lemma trunc_inject_Z (n : Z) : Go.trunc (inject_Z n) = n.
Proof. unfold Go.trunc. simpl. apply Z.quot_1_r. Qed.

Lemma float64_to_int_fits (rt : GoRuntime) (f : Q) :
  Go.int_min <= Go.trunc f <= Go.int_max ->
  float64_to_int rt f = Go.trunc f.
Proof.
  intros H. unfold float64_to_int, Go.in_int.
  destruct (Go.int_min <=? Go.trunc f) eqn:E1;
    destruct (Go.trunc f <=? Go.int_max) eqn:E2; simpl; try reflexivity; lia.
Qed.

Lemma lookback_small (minutes : Z) :
  0 <= minutes <= 1440 -> Spans.lookback minutes = - (minutes * 60000000000).
Proof.
  intros H. unfold Spans.lookback.
  rewrite (wrap64_id (- minutes)) by (unfold Go.int_min, Go.int_max; lia).
  rewrite wrap64_id by (unfold Go.int_min, Go.int_max; lia).
  lia.
Qed.

Section TimeWindow.
Variable rt : GoRuntime.

Lemma lookbackMinutes_cases (args : object) :
  (asFloat64 (index args "time_range_minutes") = None ->
   Spans.lookbackMinutes rt args = 60) /\
  (forall f, index args "time_range_minutes" = JNumber f -> (f <= 0)%Q ->
             Spans.lookbackMinutes rt args = 60) /\
  (forall f, index args "time_range_minutes" = JNumber f -> (0 < f)%Q ->
             Go.trunc f <= Go.int_max ->
             Spans.lookbackMinutes rt args = Z.min (Go.trunc f) 1440).
Proof.
  unfold Spans.lookbackMinutes. repeat split.
  - intros ->. reflexivity.
  - intros f -> Hf. simpl. apply fgt_zero_false in Hf. rewrite Hf. reflexivity.
  - intros f -> Hf Hfit. simpl.
    pose proof (trunc_nonneg f Hf) as Hpos.
    apply fgt_zero in Hf. rewrite Hf.
    rewrite float64_to_int_fits by (unfold Go.int_min; lia).
    destruct (Go.trunc f >? 1440) eqn:E; lia.
Qed.

Lemma logs_lookbackMinutes_spans (args : object) :
  Logs.lookbackMinutes rt args = Spans.lookbackMinutes rt args.
Proof. reflexivity. Qed.

Lemma logs_windowFrom_spans (now : Z) (args : object) :
  Logs.windowFrom rt now args = Spans.windowFrom rt now args.
Proof. reflexivity. Qed.

Lemma spans_handler_success (now : Z) (args : object)
    (upstream : Spans.QuerySpansRequest -> Client.Exchange) :
  Client.Success (Spans.QuerySpansHandler rt now args upstream)
  = Client.Success (Client.Post rt (upstream (Spans.buildRequest rt now args))).
Proof.
  unfold Spans.QuerySpansHandler.
  destruct (Client.Success (Client.Post rt (upstream (Spans.buildRequest rt now args))))
    eqn:E; simpl; reflexivity.
Qed.

(** C6, as the code has it. Both handlers read the clock once: the
    request and the echoed query carry the strings rendered from
    [now - lookback] and from that same [now]. The lookback is 60 minutes
    when [time_range_minutes] is absent, not a number, or at most 0; 1440
    minutes when it exceeds 1440 (and its integer part fits an int64, the
    conversion of larger values being left to the platform); and
    otherwise the integer part of the requested value, which is the
    requested value itself when that is a whole number. The window never
    turns a call into an error: the span handler succeeds exactly when
    its upstream request does, and the envelope echoes the window that
    was sent. *)
Theorem time_window (now : Z) (args : object) :
  let requested := index args "time_range_minutes" in
  let minute := 60000000000 in
  (Spans.ReqTimeRange (Spans.buildRequest rt now args)
     = {| Spans.From := format_RFC3339 rt (Spans.windowFrom rt now args);
          Spans.To := format_RFC3339 rt now |} /\
   Logs.ReqTimeRange (Logs.buildRequest rt now args)
     = {| Logs.From := format_RFC3339 rt (Logs.windowFrom rt now args);
          Logs.To := format_RFC3339 rt now |}) /\
  Logs.windowFrom rt now args = Spans.windowFrom rt now args /\
  (asFloat64 requested = None ->
   now - Spans.windowFrom rt now args = 60 * minute) /\
  (forall f, requested = JNumber f -> (f <= 0)%Q ->
             now - Spans.windowFrom rt now args = 60 * minute) /\
  (forall f, requested = JNumber f -> (1440 < f)%Q -> Go.trunc f <= Go.int_max ->
             now - Spans.windowFrom rt now args = 1440 * minute) /\
  (forall f, requested = JNumber f -> (0 < f)%Q -> (f <= 1440)%Q ->
             now - Spans.windowFrom rt now args = Go.trunc f * minute) /\
  (forall n, requested = JNumber (inject_Z n) -> 0 < n <= 1440 ->
             now - Spans.windowFrom rt now args = n * minute) /\
  (forall upstream,
      Client.Success (Spans.QuerySpansHandler rt now args upstream)
      = Client.Success (Client.Post rt (upstream (Spans.buildRequest rt now args)))) /\
  (forall upstream data,
      let res := Client.Post rt (upstream (Spans.buildRequest rt now args)) in
      Client.Success res = true -> Client.Data res = Some data ->
      exists e,
        Client.Data (Spans.QuerySpansHandler rt now args upstream)
        = Some (Spans.QueryData e) /\
        Spans.time_range (Spans.query e)
        = Spans.ReqTimeRange (Spans.buildRequest rt now args)) /\
  (forall upstream data,
      let res := Client.Post rt (upstream (Logs.buildRequest rt now args)) in
      Client.Success res = true -> Client.Data res = Some data ->
      0 <= Logs.finalLimit rt args ->
      exists r e,
        Logs.QueryLogsHandler rt now args upstream = Returns r /\
        Client.Data r = Some (Logs.QueryData e) /\
        Logs.time_range (Logs.query e)
        = Logs.ReqTimeRange (Logs.buildRequest rt now args)).
Proof.
  cbv zeta.
  destruct (lookbackMinutes_cases args) as [Habsent [Hle Hpos]].
  split; [split; reflexivity|].
  split; [reflexivity|].
  unfold Spans.windowFrom.
  split.
  { intros H. rewrite (Habsent H), lookback_small; lia. }
  split.
  { intros f H Hf. rewrite (Hle f H Hf), lookback_small; lia. }
  split.
  { intros f H Hf Hfit.
    assert (H0 : (0 < f)%Q) by (eapply Qlt_trans; [|exact Hf]; reflexivity).
    rewrite (Hpos f H H0 Hfit).
    assert (1440 <= Go.trunc f).
    { apply trunc_lower; [lia|]. apply Qlt_le_weak. exact Hf. }
    rewrite Z.min_r by lia. rewrite lookback_small; lia. }
  split.
  { intros f H H0 Hf.
    pose proof (trunc_upper f 1440 H0 Hf) as Hu.
    pose proof (trunc_nonneg f H0) as Hl.
    rewrite (Hpos f H H0) by (unfold Go.int_max; lia).
    rewrite Z.min_l by lia. rewrite lookback_small; lia. }
  split.
  { intros n H Hn.
    assert (H0 : (0 < inject_Z n)%Q) by (unfold Qlt; simpl; lia).
    rewrite (Hpos _ H H0) by (rewrite trunc_inject_Z; unfold Go.int_max; lia).
    rewrite trunc_inject_Z, Z.min_l by lia. rewrite lookback_small; lia. }
  split; [intros upstream; apply spans_handler_success|].
  split.
  - intros upstream data Hs Hd.
    rewrite (spans_handler_envelope rt now args upstream data Hs Hd).
    eexists. split; reflexivity.
  - intros upstream data Hs Hd Hl.
    rewrite (logs_handler_envelope rt now args upstream data Hs Hd Hl).
    eexists. eexists. split; [reflexivity|]. split; reflexivity.
Qed.

End TimeWindow.

(** A request for 2000 minutes at the instant 1700000000 s: the window
    opens 1440 minutes earlier. *)
Lemma time_window_witness :
  1700000000000000000
  - Spans.windowFrom (exampleRuntime []) 1700000000000000000
      [("time_range_minutes", JNumber 2000)]
  = 1440 * 60000000000.
Proof.
  refine (proj1 (proj2 (proj2 (proj2 (proj2
    (time_window (exampleRuntime []) 1700000000000000000
       [("time_range_minutes", JNumber 2000)])))))
    2000%Q eq_refl _ _).
  - reflexivity.
  - vm_compute. discriminate.
Defined.

(** C6 as stated fails: for a request of 90.5 minutes the window lasts
    90 minutes, and for a request of half a minute it is empty (neither
    the default nor the requested duration). *)
Lemma time_window_fractional_request :
  let now := 1700000000000000000 in
  let minute := 60000000000 in
  now - Spans.windowFrom (exampleRuntime []) now
          [("time_range_minutes", JNumber (181 # 2))] = 90 * minute /\
  now - Logs.windowFrom (exampleRuntime []) now
          [("time_range_minutes", JNumber (181 # 2))] = 90 * minute /\
  now - Spans.windowFrom (exampleRuntime []) now
          [("time_range_minutes", JNumber (1 # 2))] = 0 /\
  now - Logs.windowFrom (exampleRuntime []) now
          [("time_range_minutes", JNumber (1 # 2))] = 0.
Proof. cbv zeta. repeat split. Qed.

(** ** The limit of a log query *)

Lemma logs_finalLimit_bounds (rt : GoRuntime) (args : object) :
  (forall l, index args "limit" = JNumber l -> Go.trunc l <= Go.int_max) ->
  0 <= Logs.finalLimit rt args <= 500.
Proof.
  intros H. unfold Logs.finalLimit.
  destruct (index args "limit") as [ | | l | | | ] eqn:E; simpl; try lia.
  destruct (Go.fgt l 0) eqn:Hl; [|lia].
  apply fgt_zero in Hl. pose proof (trunc_nonneg l Hl) as Hpos.
  rewrite float64_to_int_fits
    by (split; [unfold Go.int_min; lia | now apply H]).
  destruct (Go.trunc l >? 500) eqn:E5; lia.
Qed.

(** The envelope of a log query never holds more than 500 records (when
    Go defines the conversion of the limit argument). *)
Lemma logs_envelope_within_limit (rt : GoRuntime) (now : Z) (args : object)
    (upstream : Logs.QueryLogsRequest -> Client.Exchange) (data : json) :
  let res := Client.Post rt (upstream (Logs.buildRequest rt now args)) in
  (forall l, index args "limit" = JNumber l -> Go.trunc l <= Go.int_max) ->
  Client.Success res = true -> Client.Data res = Some data ->
  exists r e,
    Logs.QueryLogsHandler rt now args upstream = Returns r /\
    Client.Data r = Some (Logs.QueryData e) /\
    Logs.count e = Z.of_nat (List.length (Logs.logs e)) /\
    Logs.count e <= Logs.finalLimit rt args <= 500.
Proof.
  cbv zeta. intros Hfit Hs Hd.
  pose proof (logs_finalLimit_bounds rt args Hfit) as Hb.
  eexists. eexists. split.
  - apply (logs_handler_envelope rt now args upstream data Hs Hd). lia.
  - cbn [Client.Data Logs.logs Logs.count].
    split; [reflexivity|]. split; [reflexivity|].
    cbn [Logs.count]. rewrite length_firstn. lia.
Qed.

(** ** Examples from the specification *)

Example errors_array_detail :
  Client.extractErrorDetail
    (JObject [("errors", JArray [JObject [("detail", JString "field is required")]])])
  = "field is required".
Proof. reflexivity. Qed.

Example duration_of_two_spans :
  Spans.durationMs 1000000000 1050000000 = 50%Q /\
  Spans.durationMs 2000000000 2200000000 = 200%Q.
Proof. split; vm_compute; reflexivity. Qed.

Example min_duration_keeps_second_span :
  let span s e := JObject [("startTimeUnixNano", JString s);
                           ("endTimeUnixNano", JString e)] in
  let payload :=
    JObject [("resourceSpans", JArray
      [JObject [("scopeSpans", JArray
        [JObject [("spans", JArray
           [span "1000000000" "1050000000";
            span "2000000000" "2200000000"])]])]])] in
  map Spans.DurationMs
    (Spans.durationFilter [("min_duration_ms", JNumber 100)]
       (Spans.flattenSpansResponse (exampleRuntime []) payload))
  = [200%Q].
Proof. vm_compute. reflexivity. Qed.

(** * Further properties of the code *)

(** ** Association lists as maps *)

Lemma mapGet_mapSet_same {V : Type} (m : list (string * V)) (k : string) (v : V) :
  mapGet (mapSet m k v) k = Some v.
Proof.
  induction m as [ | [k' old] m IH]; simpl.
  - now rewrite String.eqb_refl.
  - destruct (String.eqb k' k) eqn:E; simpl; rewrite E; [reflexivity | exact IH].
Qed.

Lemma mapGet_mapSet_other {V : Type} (m : list (string * V)) (k k' : string) (v : V) :
  k <> k' -> mapGet (mapSet m k v) k' = mapGet m k'.
Proof.
  intros Hne. induction m as [ | [k0 old] m IH]; simpl.
  - destruct (String.eqb k k') eqn:E; [|reflexivity].
    apply String.eqb_eq in E. contradiction.
  - destruct (String.eqb k0 k) eqn:E; simpl.
    + apply String.eqb_eq in E. subst k0.
      destruct (String.eqb k k') eqn:E'; [|reflexivity].
      apply String.eqb_eq in E'. contradiction.
    + now rewrite IH.
Qed.

Lemma mapGet_In_key {V : Type} (m : list (string * V)) (k : string) :
  In k (map fst m) <-> exists v, mapGet m k = Some v.
Proof.
  induction m as [ | [k' v'] m IH]; simpl.
  - split; [intros [] | intros [v H]; discriminate].
  - destruct (String.eqb k' k) eqn:E.
    + apply String.eqb_eq in E. split; [intros _; now exists v' | intros _; now left].
    + rewrite <- IH. split; [intros [H | H]; [|exact H] | intros H; now right].
      subst k'. rewrite String.eqb_refl in E. discriminate.
Qed.

Lemma mapGet_In {V : Type} (m : list (string * V)) (k : string) (v : V) :
  mapGet m k = Some v -> In (k, v) m.
Proof.
  induction m as [ | [k' v'] m IH]; simpl; [discriminate|].
  destruct (String.eqb k' k) eqn:E.
  - apply String.eqb_eq in E. intros H. inversion H. subst. now left.
  - intros H. right. now apply IH.
Qed.

Lemma In_mapGet {V : Type} (m : list (string * V)) (k : string) (v : V) :
  NoDup (map fst m) -> In (k, v) m -> mapGet m k = Some v.
Proof.
  induction m as [ | [k' v'] m IH]; simpl; [intros _ []|].
  intros Hnd [H | H].
  - inversion H. subst. now rewrite String.eqb_refl.
  - inversion Hnd as [ | ? ? Hnotin Hnd']. subst.
    destruct (String.eqb k' k) eqn:E; [|now apply IH].
    apply String.eqb_eq in E. subst k'. exfalso. apply Hnotin.
    apply in_map_iff. now exists (k, v).
Qed.

Lemma mapSet_keys {V : Type} (m : list (string * V)) (k : string) (v : V) :
  map fst (mapSet m k v)
  = if existsb (String.eqb k) (map fst m) then map fst m
    else (map fst m ++ [k])%list.
Proof.
  induction m as [ | [k' old] m IH]; simpl; [reflexivity|].
  rewrite (String.eqb_sym k k').
  destruct (String.eqb k' k) eqn:E; simpl; [reflexivity|].
  rewrite IH. destruct (existsb (String.eqb k) (map fst m)); reflexivity.
Qed.

Lemma existsb_eqb_In (k : string) (l : list string) :
  existsb (String.eqb k) l = true <-> In k l.
Proof.
  rewrite existsb_exists. split.
  - intros [x [Hx E]]. apply String.eqb_eq in E. now subst.
  - intros H. exists k. split; [exact H | apply String.eqb_refl].
Qed.

Lemma mapSet_NoDup {V : Type} (m : list (string * V)) (k : string) (v : V) :
  NoDup (map fst m) -> NoDup (map fst (mapSet m k v)).
Proof.
  intros H. rewrite mapSet_keys.
  destruct (existsb (String.eqb k) (map fst m)) eqn:E; [exact H|].
  apply NoDup_app; [exact H | constructor; [intros [] | constructor] | ].
  intros x Hx [<- | []].
  apply existsb_eqb_In in Hx. congruence.
Qed.

(** ** Sorting by a string key *)

Lemma ascii_compare_trans (a b c : ascii) (o : comparison) :
  Ascii.compare a b = o -> Ascii.compare b c = o -> Ascii.compare a c = o.
Proof.
  unfold Ascii.compare. destruct o; intros H1 H2.
  - apply N.compare_eq_iff in H1. apply N.compare_eq_iff in H2.
    apply N.compare_eq_iff. congruence.
  - apply N.compare_lt_iff in H1. apply N.compare_lt_iff in H2.
    apply N.compare_lt_iff. now apply (N.lt_trans _ (N_of_ascii b)).
  - apply N.compare_gt_iff in H1. apply N.compare_gt_iff in H2.
    apply N.compare_gt_iff. now apply (N.lt_trans _ (N_of_ascii b)).
Qed.

Lemma string_compare_lt_trans (a b c : string) :
  String.compare a b = Lt -> String.compare b c = Lt -> String.compare a c = Lt.
Proof.
  revert b c. induction a as [ | x a IH]; intros [ | y b] [ | z c]; simpl;
    try discriminate; try reflexivity.
  destruct (Ascii.compare x y) eqn:Exy; try discriminate;
    destruct (Ascii.compare y z) eqn:Eyz; try discriminate; intros H1 H2.
  - rewrite (ascii_compare_trans x y z Eq Exy Eyz). now apply (IH b c).
  - apply Ascii.compare_eq_iff in Exy. subst y. now rewrite Eyz.
  - apply Ascii.compare_eq_iff in Eyz. subst z. now rewrite Exy.
  - now rewrite (ascii_compare_trans x y z Lt Exy Eyz).
Qed.

Lemma string_compare_refl (a : string) : String.compare a a = Eq.
Proof.
  induction a as [ | x a IH]; simpl; [reflexivity|].
  unfold Ascii.compare. now rewrite N.compare_refl.
Qed.

Lemma string_leb_spec (a b : string) :
  String.leb a b = true <-> String.compare a b = Lt \/ a = b.
Proof.
  unfold String.leb. split.
  - destruct (String.compare a b) eqn:E; try discriminate; intros _.
    + right. now apply String.compare_eq_iff.
    + now left.
  - intros [-> | ->]; [reflexivity | now rewrite string_compare_refl].
Qed.

Lemma string_leb_trans (a b c : string) :
  String.leb a b = true -> String.leb b c = true -> String.leb a c = true.
Proof.
  rewrite !string_leb_spec. intros [H1 | ->] [H2 | ->]; auto.
  left. now apply (string_compare_lt_trans a b c).
Qed.

Lemma string_ltb_spec (a b : string) :
  String.ltb a b = true <-> String.leb a b = true /\ a <> b.
Proof.
  unfold String.ltb, String.leb. split.
  - destruct (String.compare a b) eqn:E; try discriminate. intros _.
    split; [reflexivity|]. intros ->. rewrite string_compare_refl in E. discriminate.
  - intros [H Hne]. destruct (String.compare a b) eqn:E; try discriminate.
    + apply String.compare_eq_iff in E. contradiction.
    + reflexivity.
Qed.

Section SortBy.
Context {A : Type} (key : A -> string).

Lemma insertBy_perm (x : A) (l : list A) : Permutation (insertBy key x l) (x :: l).
Proof.
  induction l as [ | y l IH]; simpl; [reflexivity|].
  destruct (String.leb (key x) (key y)); [reflexivity|].
  rewrite IH. apply perm_swap.
Qed.

Lemma sortBy_perm (l : list A) : Permutation (sortBy key l) l.
Proof.
  induction l as [ | x l IH]; simpl; [reflexivity|].
  rewrite insertBy_perm. now constructor.
Qed.

Lemma insertBy_sorted (x : A) (l : list A) :
  StronglySorted (keyLe key) l -> StronglySorted (keyLe key) (insertBy key x l).
Proof.
  induction 1 as [ | y l Hl IH Hy]; simpl.
  - constructor; constructor.
  - destruct (String.leb (key x) (key y)) eqn:E.
    + constructor; [now constructor|].
      constructor; [exact E|].
      eapply Forall_impl; [|exact Hy].
      intros z Hz. unfold keyLe in *. now apply (string_leb_trans _ (key y)).
    + constructor; [exact IH|].
      assert (Hyx : keyLe key y x).
      { unfold keyLe. destruct (String.leb_total (key x) (key y)); congruence. }
      eapply Permutation_Forall; [symmetry; apply insertBy_perm|].
      now constructor.
Qed.

Lemma sortBy_sorted (l : list A) : StronglySorted (keyLe key) (sortBy key l).
Proof.
  induction l as [ | x l IH]; simpl; [constructor | now apply insertBy_sorted].
Qed.

(** Two sorted arrangements of the same elements are equal when the key
    tells the elements apart. *)
Lemma sorted_unique (l1 l2 : list A) :
  (forall a b, In a l1 -> In b l1 -> key a = key b -> a = b) ->
  StronglySorted (keyLe key) l1 -> StronglySorted (keyLe key) l2 ->
  Permutation l1 l2 -> l1 = l2.
Proof.
  intros Hinj H1. revert l2. induction H1 as [ | a l1 Hl1 IH Ha]; intros l2 H2 Hp.
  - apply Permutation_nil in Hp. now subst.
  - destruct H2 as [ | b l2 Hl2 Hb].
    + symmetry in Hp. apply Permutation_nil in Hp. discriminate.
    + assert (Hab : a = b).
      { assert (Hina : In a (b :: l2))
          by (apply (Permutation_in _ Hp); now left).
        assert (Hinb : In b (a :: l1))
          by (apply (Permutation_in _ (Permutation_sym Hp)); now left).
        destruct Hina as [-> | Hina]; [reflexivity|].
        destruct Hinb as [-> | Hinb]; [reflexivity|].
        apply Hinj; [now left | now right | ].
        apply String.leb_antisym.
        - rewrite Forall_forall in Ha. now apply Ha.
        - rewrite Forall_forall in Hb. now apply Hb. }
      subst b. f_equal. apply IH.
      * intros x y Hx Hy. apply Hinj; now right.
      * exact Hl2.
      * now apply Permutation_cons_inv with (a := a).
Qed.

Lemma sortBy_order_independent (l1 l2 : list A) :
  (forall a b, In a l1 -> In b l1 -> key a = key b -> a = b) ->
  Permutation l1 l2 -> sortBy key l1 = sortBy key l2.
Proof.
  intros Hinj Hp. apply sorted_unique.
  - intros a b Ha Hb. apply Hinj; eapply Permutation_in;
      try apply sortBy_perm; assumption.
  - apply sortBy_sorted.
  - apply sortBy_sorted.
  - rewrite !sortBy_perm. exact Hp.
Qed.

End SortBy.

Lemma fold_left_keep_map {A B : Type} (keep : A -> bool) (f : A -> B)
    (l : list A) (acc : list B) :
  fold_left (fun acc x => if keep x then (acc ++ [f x])%list else acc) l acc
  = (acc ++ map f (filter keep l))%list.
Proof.
  revert acc. induction l as [ | x l IH]; intros acc; simpl.
  - now rewrite app_nil_r.
  - rewrite IH. destruct (keep x); [|reflexivity].
    simpl. now rewrite <- app_assoc.
Qed.

(** ** The tool registry *)

Lemma map_sortBy {A : Type} (key : A -> string) (l : list A) :
  map key (sortBy key l) = sortStrings (map key l).
Proof.
  unfold sortStrings.
  induction l as [ | x l IH]; simpl; [reflexivity|].
  rewrite <- IH. generalize (sortBy key l). intros s.
  induction s as [ | y s IHs]; simpl; [reflexivity|].
  destruct (String.leb (key x) (key y)); simpl; [reflexivity | now rewrite IHs].
Qed.

Lemma sortStrings_In (names : list string) (n : string) :
  In n (sortStrings names) <-> In n names.
Proof.
  unfold sortStrings. split; apply Permutation_in;
    [apply sortBy_perm | symmetry; apply sortBy_perm].
Qed.

Lemma sortStrings_order_independent (l1 l2 : list string) :
  Permutation l1 l2 -> sortStrings l1 = sortStrings l2.
Proof.
  intros H. apply sortBy_order_independent; [|exact H].
  intros a b _ _ E. exact E.
Qed.

Lemma sortStrings_strict (names : list string) :
  NoDup names ->
  StronglySorted (fun a b => String.ltb a b = true) (sortStrings names).
Proof.
  intros Hnd.
  assert (Hnd' : NoDup (sortStrings names)).
  { eapply Permutation_NoDup; [symmetry; apply sortBy_perm | exact Hnd]. }
  pose proof (sortBy_sorted (fun s : string => s) names) as Hs.
  fold (sortStrings names) in Hs.
  induction Hs as [ | a l Hl IH Ha]; constructor.
  - apply IH. now inversion Hnd'.
  - inversion Hnd' as [ | ? ? Hnotin _]. subst.
    rewrite Forall_forall in *. intros b Hb.
    apply string_ltb_spec. split; [now apply Ha|].
    intros ->. contradiction.
Qed.

Lemma filter_perm {A : Type} (keep : A -> bool) (l l' : list A) :
  Permutation l l' -> Permutation (filter keep l) (filter keep l').
Proof.
  induction 1 as [ | x l l' _ IH | x y l | l l' l'' _ IH1 _ IH2]; simpl.
  - constructor.
  - destruct (keep x); [now constructor | exact IH].
  - destruct (keep x); destruct (keep y); try reflexivity. apply perm_swap.
  - etransitivity; eassumption.
Qed.

Section RegistryProperties.
Context {Tool : Type} (Name : Tool -> string) {D : Type}.

Lemma allToolNames_keys (r : Registry.Registry Tool D) :
  Registry.AllToolNames r = sortStrings (map fst (Registry.tools r)).
Proof.
  unfold Registry.AllToolNames. f_equal.
  rewrite (fold_left_keep_map (fun _ => true) fst). simpl.
  f_equal. clear. induction (Registry.tools r) as [ | x l IH]; simpl; congruence.
Qed.

Lemma enabledToolNames_keys (r : Registry.Registry Tool D) :
  Registry.EnabledToolNames r
  = sortStrings (map fst (filter (fun e : string * Registry.ToolDef Tool D => Registry.passes r (fst e))
                                 (Registry.tools r))).
Proof.
  unfold Registry.EnabledToolNames. f_equal.
  now rewrite (fold_left_keep_map (fun e : string * Registry.ToolDef Tool D => Registry.passes r (fst e)) fst).
Qed.

Lemma allToolNames_In (r : Registry.Registry Tool D) (name : string) :
  In name (Registry.AllToolNames r) <-> exists def, mapGet (Registry.tools r) name = Some def.
Proof. rewrite allToolNames_keys, sortStrings_In. apply mapGet_In_key. Qed.

Lemma enabledToolNames_In (r : Registry.Registry Tool D) (name : string) :
  In name (Registry.EnabledToolNames r) <->
  (exists def, mapGet (Registry.tools r) name = Some def) /\
  Registry.passes r name = true.
Proof.
  rewrite enabledToolNames_keys, sortStrings_In, <- mapGet_In_key, !in_map_iff.
  split.
  - intros [[k def] [<- H]]. apply filter_In in H. destruct H as [H Hp]. split.
    + now exists (k, def).
    + exact Hp.
  - intros [[[k def] [<- H]] Hp]. exists (k, def). split; [reflexivity|].
    apply filter_In. now split.
Qed.

(** Dispatch. [Call] runs the handler of a tool exactly when
    [EnabledToolNames] lists its name; a name that [AllToolNames] does
    not list gives a 404 error, whether or not the filter enables it; a
    registered name the filter does not enable gives a 403 error, and its
    handler is not run. *)
Theorem registry_call_dispatch (r : Registry.Registry Tool D) (name : string) (args : object) :
  (In name (Registry.EnabledToolNames r) ->
   exists def,
     mapGet (Registry.tools r) name = Some def /\
     Registry.Call r name args
     = match Registry.DefHandler def with
       | Some handler => Returns (handler args)
       | None => Panics
       end) /\
  (~ In name (Registry.AllToolNames r) ->
   Registry.Call r name args
   = Returns (Client.ErrorResult 404 ("tool " ++ name ++ " not found"))) /\
  (In name (Registry.AllToolNames r) ->
   ~ In name (Registry.EnabledToolNames r) ->
   Registry.Call r name args
   = Returns (Client.ErrorResult 403
                ("tool " ++ name ++ " is not enabled in current profile"))).
Proof.
  unfold Registry.Call. split; [|split].
  - intros H. apply enabledToolNames_In in H. destruct H as [[def Hdef] Hp].
    exists def. split; [exact Hdef|]. rewrite Hdef, Hp. reflexivity.
  - intros H. rewrite allToolNames_In in H.
    destruct (mapGet (Registry.tools r) name) as [def|]; [|reflexivity].
    exfalso. apply H. now exists def.
  - intros Hall Hen. rewrite allToolNames_In in Hall. destruct Hall as [def Hdef].
    rewrite Hdef.
    destruct (Registry.passes r name) eqn:Hp; [|reflexivity].
    exfalso. apply Hen. apply enabledToolNames_In. split; [now exists def | exact Hp].
Qed.

(** Registration. After [Register] the handler found under the tool's
    name is the one just given; every other name keeps its handler; the
    tool count grows by one for a new name and stays for a name already
    registered (the entry is replaced); enablement does not change. *)
Theorem registry_register_lookup (r : Registry.Registry Tool D) (tool : Tool)
    (handler : option (Registry.Handler D)) :
  let r' := Registry.Register Name r tool handler in
  Registry.GetHandler r' (Name tool) = handler /\
  (forall name, name <> Name tool ->
     Registry.GetHandler r' name = Registry.GetHandler r name) /\
  (In (Name tool) (Registry.AllToolNames r) ->
   Registry.ToolCount r' = Registry.ToolCount r) /\
  (~ In (Name tool) (Registry.AllToolNames r) ->
   Registry.ToolCount r' = Registry.ToolCount r + 1) /\
  (forall name, Registry.IsEnabled r' name = Registry.IsEnabled r name).
Proof.
  cbv zeta. unfold Registry.GetHandler, Registry.Register, Registry.ToolCount.
  cbn [Registry.tools Registry.enabled].
  assert (Hlen : forall m : list (string * Registry.ToolDef Tool D),
             List.length m = List.length (map fst m))
    by (intros m; now rewrite length_map).
  split; [now rewrite mapGet_mapSet_same|].
  split.
  { intros name Hne. rewrite mapGet_mapSet_other; [reflexivity | congruence]. }
  split.
  { intros H. rewrite allToolNames_keys, sortStrings_In in H.
    apply existsb_eqb_In in H.
    rewrite (Hlen (mapSet _ _ _)), mapSet_keys, H, <- Hlen. reflexivity. }
  split.
  { intros H. rewrite allToolNames_keys, sortStrings_In in H.
    destruct (existsb (String.eqb (Name tool)) (map fst (Registry.tools r))) eqn:E.
    - apply existsb_eqb_In in E. contradiction.
    - rewrite (Hlen (mapSet _ _ _)), mapSet_keys, E, length_app, <- Hlen.
      simpl. lia. }
  reflexivity.
Qed.

Lemma mapSet_Forall {V : Type} (P : string * V -> Prop) (m : list (string * V))
    (k : string) (v : V) :
  Forall P m -> P (k, v) -> Forall P (mapSet m k v).
Proof.
  intros Hm Hkv. induction Hm as [ | [k' old] m Hx Hm IH]; simpl.
  - now constructor.
  - destruct (String.eqb k' k) eqn:E.
    + apply String.eqb_eq in E. subst k'. now constructor.
    + now constructor.
Qed.

Lemma register_invariant (r : Registry.Registry Tool D) (tool : Tool)
    (handler : option (Registry.Handler D)) :
  registryInvariant Name r ->
  registryInvariant Name (Registry.Register Name r tool handler).
Proof.
  intros [Hnd Hkey]. split; cbn [Registry.Register Registry.tools].
  - now apply mapSet_NoDup.
  - now apply mapSet_Forall.
Qed.

Lemma registered_from (r : Registry.Registry Tool D)
    (calls : list (Tool * option (Registry.Handler D))) :
  registryInvariant Name r ->
  registryInvariant Name
    (fold_left (fun r call => Registry.Register Name r (fst call) (snd call)) calls r) /\
  Registry.enabled
    (fold_left (fun r call => Registry.Register Name r (fst call) (snd call)) calls r)
  = Registry.enabled r.
Proof.
  revert r. induction calls as [ | call calls IH]; intros r Hr; simpl.
  - now split.
  - destruct (IH _ (register_invariant r (fst call) (snd call) Hr)) as [H1 H2].
    split; [exact H1 | now rewrite H2].
Qed.

Lemma registered_invariant (enabledTools : option (list (string * bool)))
    (calls : list (Tool * option (Registry.Handler D))) :
  registryInvariant Name (Registry.registered Name enabledTools calls).
Proof.
  apply registered_from. split; [constructor | constructor].
Qed.

Lemma enabledCount_filter (r : Registry.Registry Tool D) :
  Registry.EnabledCount r
  = Z.of_nat (List.length
      (filter (fun e : string * Registry.ToolDef Tool D => Registry.passes r (fst e))
              (Registry.tools r))).
Proof.
  unfold Registry.EnabledCount, Registry.passes.
  destruct (Registry.enabled r) as [e|].
  - assert (H : forall (l : list (string * Registry.ToolDef Tool D)) (c : Z),
               fold_left (fun count (entry : string * Registry.ToolDef Tool D) =>
                            if mapBool e (fst entry) then count + 1 else count) l c
               = c + Z.of_nat (List.length
                       (filter (fun x : string * Registry.ToolDef Tool D =>
                                  mapBool e (fst x)) l))).
    { induction l as [ | x l IH]; intros c; simpl; [lia|].
      rewrite IH. destruct (mapBool e (fst x)); simpl List.length; lia. }
    rewrite H. lia.
  - f_equal. f_equal. symmetry. apply filter_all. apply Forall_forall. reflexivity.
Qed.

Lemma getEnabledTools_loop (r0 : Registry.Registry Tool D) :
  Registry.GetEnabledTools Name r0
  = sortBy Name
      (map (fun e : string * Registry.ToolDef Tool D => Registry.DefTool (snd e))
           (filter (fun e : string * Registry.ToolDef Tool D =>
                      Registry.passes r0 (fst e)) (Registry.tools r0))).
Proof.
  unfold Registry.GetEnabledTools. f_equal.
  assert (H : forall (l : list (string * Registry.ToolDef Tool D)) (acc : list Tool),
             fold_left
               (fun tools (entry : string * Registry.ToolDef Tool D) =>
                  let '(name, def) := entry in
                  if Registry.passes r0 name
                  then (tools ++ [Registry.DefTool def])%list else tools) l acc
             = (acc ++ map (fun e : string * Registry.ToolDef Tool D =>
                              Registry.DefTool (snd e))
                           (filter (fun e : string * Registry.ToolDef Tool D =>
                                      Registry.passes r0 (fst e)) l))%list).
  { induction l as [ | [k def] l IH]; intros acc; simpl.
    - now rewrite app_nil_r.
    - rewrite IH. destruct (Registry.passes r0 k); [|reflexivity].
      simpl. now rewrite <- app_assoc. }
  apply H.
Qed.

(** Listing of names. For every registry, [EnabledToolNames] is in
    ascending order, lists exactly the registered names the filter lets
    pass (all of them without a filter), does not depend on the order in
    which the map is visited, and has [EnabledCount] elements, at most
    [ToolCount]; on a registry built by [Register] calls no name is
    listed twice. *)
Theorem registry_enabled_names (r : Registry.Registry Tool D) :
  StronglySorted (fun a b => String.leb a b = true) (Registry.EnabledToolNames r) /\
  (forall name,
      In name (Registry.EnabledToolNames r) <->
      In name (Registry.AllToolNames r) /\ Registry.IsEnabled r name = true) /\
  (forall r' : Registry.Registry Tool D,
      Registry.enabled r' = Registry.enabled r ->
      Permutation (Registry.tools r') (Registry.tools r) ->
      Registry.EnabledToolNames r' = Registry.EnabledToolNames r) /\
  Registry.EnabledCount r = Z.of_nat (List.length (Registry.EnabledToolNames r)) /\
  Registry.EnabledCount r <= Registry.ToolCount r /\
  (forall enabledTools calls,
      r = Registry.registered Name enabledTools calls ->
      StronglySorted (fun a b => String.ltb a b = true) (Registry.EnabledToolNames r)).
Proof.
  split.
  { rewrite enabledToolNames_keys. apply (sortBy_sorted (fun s : string => s)). }
  split.
  { intros name. rewrite enabledToolNames_In, allToolNames_In. reflexivity. }
  split.
  { intros r' He Hp. rewrite !enabledToolNames_keys.
    apply sortStrings_order_independent. apply Permutation_map.
    assert (Hf : forall e : string * Registry.ToolDef Tool D,
               Registry.passes r' (fst e) = Registry.passes r (fst e))
      by (intros e; unfold Registry.passes; now rewrite He).
    rewrite (filter_ext _ _ Hf). now apply filter_perm. }
  split.
  { rewrite enabledCount_filter, enabledToolNames_keys. unfold sortStrings.
    rewrite (Permutation_length (sortBy_perm _ _)), length_map. reflexivity. }
  split.
  { rewrite enabledCount_filter. unfold Registry.ToolCount.
    pose proof (filter_length_le
                  (fun e : string * Registry.ToolDef Tool D => Registry.passes r (fst e))
                  (Registry.tools r)). lia. }
  intros enabledTools calls ->. rewrite enabledToolNames_keys.
  apply sortStrings_strict.
  destruct (registered_invariant enabledTools calls) as [Hnd _].
  revert Hnd. generalize (Registry.tools (Registry.registered Name enabledTools calls)).
  intros l. induction l as [ | x l IH]; simpl; intros Hnd; [constructor|].
  inversion Hnd as [ | ? ? Hnotin Hnd']. subst.
  destruct (Registry.passes (Registry.registered Name enabledTools calls) (fst x)); simpl.
  - constructor; [|now apply IH].
    intros Hin. apply Hnotin. apply in_map_iff in Hin.
    destruct Hin as [y [Hy Hin]]. apply filter_In in Hin.
    apply in_map_iff. exists y. tauto.
  - now apply IH.
Qed.

(** Listing of tools. On a registry built by [Register] calls, the tools
    [GetEnabledTools] returns carry, in the same order, the names
    [EnabledToolNames] returns; each is the tool last registered under
    its name, so [GetHandler] on its name finds the handler registered
    with it; and the list does not depend on the order in which the map
    is visited. *)
Theorem registry_enabled_tools (enabledTools : option (list (string * bool)))
    (calls : list (Tool * option (Registry.Handler D))) :
  let r := Registry.registered Name enabledTools calls in
  map Name (Registry.GetEnabledTools Name r) = Registry.EnabledToolNames r /\
  (forall tool,
      In tool (Registry.GetEnabledTools Name r) ->
      exists handler,
        mapGet (Registry.tools r) (Name tool)
        = Some {| Registry.DefTool := tool; Registry.DefHandler := handler |} /\
        Registry.GetHandler r (Name tool) = handler /\
        Registry.IsEnabled r (Name tool) = true) /\
  (forall r' : Registry.Registry Tool D,
      Registry.enabled r' = Registry.enabled r ->
      Permutation (Registry.tools r') (Registry.tools r) ->
      Registry.GetEnabledTools Name r' = Registry.GetEnabledTools Name r).
Proof.
  cbv zeta.
  set (r := Registry.registered Name enabledTools calls).
  destruct (registered_invariant enabledTools calls) as [Hnd Hkey]. fold r in Hnd, Hkey.
  assert (Hloop : forall r0 : Registry.Registry Tool D,
             Registry.GetEnabledTools Name r0
             = sortBy Name
                 (map (fun e : string * Registry.ToolDef Tool D => Registry.DefTool (snd e))
                      (filter (fun e : string * Registry.ToolDef Tool D =>
                                 Registry.passes r0 (fst e)) (Registry.tools r0)))).
  { intros r0. apply getEnabledTools_loop. }
  split.
  { rewrite Hloop, map_sortBy, enabledToolNames_keys, map_map. f_equal.
    apply map_ext_in. intros e He. apply filter_In in He. destruct He as [He _].
    rewrite Forall_forall in Hkey. symmetry. now apply Hkey. }
  split.
  { intros tool Ht. rewrite Hloop in Ht.
    apply (Permutation_in _ (sortBy_perm Name _)) in Ht.
    apply in_map_iff in Ht. destruct Ht as [[k def] [<- He]].
    apply filter_In in He. destruct He as [He Hp]. simpl in *.
    rewrite Forall_forall in Hkey. pose proof (Hkey _ He) as Hk. simpl in Hk. subst k.
    exists (Registry.DefHandler def).
    pose proof (In_mapGet _ _ _ Hnd He) as Hget.
    split; [rewrite Hget; now destruct def|].
    split; [unfold Registry.GetHandler; now rewrite Hget | exact Hp]. }
  intros r' He Hp. rewrite !Hloop.
  assert (Hnd' : NoDup (map fst (Registry.tools r')))
    by (eapply Permutation_NoDup; [symmetry; apply Permutation_map; exact Hp | exact Hnd]).
  assert (Hkey' : Forall (fun e : string * Registry.ToolDef Tool D =>
                            fst e = Name (Registry.DefTool (snd e))) (Registry.tools r'))
    by (eapply Permutation_Forall; [symmetry; exact Hp | exact Hkey]).
  apply sortBy_order_independent.
  - intros a b Ha Hb Hab.
    apply in_map_iff in Ha. destruct Ha as [[ka da] [<- Ha]].
    apply in_map_iff in Hb. destruct Hb as [[kb db] [<- Hb]].
    apply filter_In in Ha. apply filter_In in Hb. destruct Ha as [Ha _], Hb as [Hb _].
    rewrite Forall_forall in Hkey'.
    pose proof (Hkey' _ Ha) as Hka. pose proof (Hkey' _ Hb) as Hkb. simpl in *.
    assert (ka = kb) by congruence. subst kb.
    pose proof (In_mapGet _ _ _ Hnd' Ha) as G1.
    pose proof (In_mapGet _ _ _ Hnd' Hb) as G2. congruence.
  - apply Permutation_map.
    assert (Hf : forall e : string * Registry.ToolDef Tool D,
               Registry.passes r' (fst e) = Registry.passes r (fst e))
      by (intros e; unfold Registry.passes; now rewrite He).
    rewrite (filter_ext _ _ Hf). now apply filter_perm.
Qed.

End RegistryProperties.

(** ** Tool profiles *)

Lemma overrideSet_from (names : list string) (acc : list (string * bool)) (k : string) :
  mapBool (fold_left (fun set t => mapSet set t true) names acc) k = true <->
  In k names \/ mapBool acc k = true.
Proof.
  revert acc. induction names as [ | t names IH]; intros acc; simpl.
  - tauto.
  - rewrite IH. unfold mapBool. destruct (String.eqb t k) eqn:E.
    + apply String.eqb_eq in E. subst t. rewrite mapGet_mapSet_same. tauto.
    + apply String.eqb_neq in E. rewrite mapGet_mapSet_other by exact E.
      split; [intros [H | H]; auto | intros [[H | H] | H]; auto; contradiction].
Qed.

Lemma overrideSet_In (names : list string) (k : string) :
  mapBool (Config.overrideSet names) k = true <-> In k names.
Proof.
  unfold Config.overrideSet. rewrite overrideSet_from.
  split; [intros [H | H]; [exact H | discriminate] | now left].
Qed.

Lemma shouldEnable_profileAllows (p : Config.Profile) (name : string)
    (def : Config.ToolDef) :
  Config.shouldEnable p (Config.overrideSet (Config.Enable p))
                      (Config.overrideSet (Config.Disable p)) name def = true
  <-> profileAllows (Some p) name def.
Proof.
  unfold Config.shouldEnable, profileAllows.
  pose proof (overrideSet_In (Config.Enable p) name) as He.
  pose proof (overrideSet_In (Config.Disable p) name) as Hd.
  destruct (Config.EnableAll p).
  - rewrite negb_true_iff, <- Hd.
    destruct (mapBool (Config.overrideSet (Config.Disable p)) name);
      split; congruence.
  - destruct (Config.DisableUnlisted p); [exact He|].
    rewrite <- He, <- Hd. cbv zeta.
    destruct (mapBool (Config.overrideSet (Config.Disable p)) name),
             (mapBool (Config.overrideSet (Config.Enable p)) name),
             (Config.Enabled def); intuition congruence.
Qed.

Section EnableLoop.
Variable decide : string -> Config.ToolDef -> bool.

Lemma enable_category (defs : list (string * Config.ToolDef))
    (acc : list (string * bool)) (k : string) :
  (mapBool
     (fold_left
        (fun enabled (entry : string * Config.ToolDef) =>
           let '(toolName, toolDef) := entry in
           if decide toolName toolDef then mapSet enabled toolName true else enabled)
        defs acc) k = true <->
   mapBool acc k = true \/ exists d, In (k, d) defs /\ decide k d = true) /\
  (mapGet acc k <> Some false ->
   mapGet
     (fold_left
        (fun enabled (entry : string * Config.ToolDef) =>
           let '(toolName, toolDef) := entry in
           if decide toolName toolDef then mapSet enabled toolName true else enabled)
        defs acc) k <> Some false).
Proof.
  revert acc. induction defs as [ | [n d] defs IH]; intros acc; simpl.
  - split; [|tauto]. split; [now left | intros [H | [d [[] _]]]; exact H].
  - destruct (IH (if decide n d then mapSet acc n true else acc)) as [IH1 IH2].
    split.
    + rewrite IH1. unfold mapBool. destruct (decide n d) eqn:Ed.
      * destruct (String.eqb n k) eqn:E.
        -- apply String.eqb_eq in E. subst n. rewrite mapGet_mapSet_same.
           split; [intros _; right; exists d; now split; [left|] | now left].
        -- apply String.eqb_neq in E. rewrite mapGet_mapSet_other by exact E.
           split.
           ++ intros [H | [d' [H1 H2]]]; [now left | right; exists d'; now split; [right|]].
           ++ intros [H | [d' [[H1 | H1] H2]]]; [now left | | right; now exists d'].
              inversion H1. contradiction.
      * split.
        -- intros [H | [d' [H1 H2]]]; [now left | right; exists d'; now split; [right|]].
        -- intros [H | [d' [[H1 | H1] H2]]]; [now left | | right; now exists d'].
           inversion H1. subst. congruence.
    + intros Hacc. apply IH2. destruct (decide n d); [|exact Hacc].
      destruct (String.eqb n k) eqn:E.
      * apply String.eqb_eq in E. subst n. rewrite mapGet_mapSet_same. discriminate.
      * apply String.eqb_neq in E. now rewrite mapGet_mapSet_other by exact E.
Qed.

Lemma enable_categories (cats : list (string * list (string * Config.ToolDef)))
    (acc : list (string * bool)) (k : string) :
  (mapBool
     (fold_left
        (fun enabled (category : string * list (string * Config.ToolDef)) =>
           fold_left
             (fun enabled (entry : string * Config.ToolDef) =>
                let '(toolName, toolDef) := entry in
                if decide toolName toolDef then mapSet enabled toolName true else enabled)
             (snd category) enabled)
        cats acc) k = true <->
   mapBool acc k = true \/
   exists c defs d, In (c, defs) cats /\ In (k, d) defs /\ decide k d = true) /\
  (mapGet acc k <> Some false ->
   mapGet
     (fold_left
        (fun enabled (category : string * list (string * Config.ToolDef)) =>
           fold_left
             (fun enabled (entry : string * Config.ToolDef) =>
                let '(toolName, toolDef) := entry in
                if decide toolName toolDef then mapSet enabled toolName true else enabled)
             (snd category) enabled)
        cats acc) k <> Some false).
Proof.
  revert acc. induction cats as [ | [c defs] cats IH]; intros acc; simpl.
  - split; [|tauto]. split; [now left | intros [H | [c [defs [d [[] _]]]]]; exact H].
  - destruct (enable_category defs acc k) as [C1 C2].
    match goal with
    | |- context [fold_left _ cats ?a] => destruct (IH a) as [IH1 IH2]
    end.
    split.
    + rewrite IH1, C1. split.
      * intros [[H | [d [H1 H2]]] | [c' [defs' [d [H1 [H2 H3]]]]]].
        -- now left.
        -- right. exists c, defs, d. split; [now left | now split].
        -- right. exists c', defs', d. split; [now right | now split].
      * intros [H | [c' [defs' [d [[H1 | H1] [H2 H3]]]]]].
        -- left. now left.
        -- inversion H1. subst. left. right. now exists d.
        -- right. now exists c', defs', d.
    + intros Hacc. apply IH2, C2, Hacc.
Qed.

Lemma enableLoop_spec (tc : Config.ToolsConfig) (k : string) :
  (mapBool (Config.enableLoop decide tc) k = true <->
   exists d, definesTool tc k d /\ decide k d = true) /\
  mapGet (Config.enableLoop decide tc) k <> Some false.
Proof.
  unfold Config.enableLoop, definesTool.
  destruct (enable_categories (Config.Tools tc) [] k) as [H1 H2]. split.
  - rewrite H1. split.
    + intros [H | [c [defs [d [Ha [Hb Hc]]]]]]; [discriminate|].
      exists d. split; [now exists c, defs | exact Hc].
    + intros [d [[c [defs [Ha Hb]]] Hc]]. right. now exists c, defs, d.
  - apply H2. discriminate.
Qed.

End EnableLoop.

(** Profile evaluation. [GetEnabledTools] of the configuration marks a
    name as enabled exactly when some category of the tools file defines
    it with a definition the profile allows: the definition's own default
    without a profile; with [enable_all] every defined tool outside the
    disable list; else with [disable_unlisted] the defined tools of the
    enable list; else the default, overridden by the enable list and then
    by the disable list. The map never holds [false], and a name no
    category defines is never in it, whatever the profile says. A
    registry created with this map, as the server does, reports exactly
    these names as enabled: a tool registered in code but absent from
    the tools file is switched off. *)
Theorem tools_profile_enablement (tc : Config.ToolsConfig)
    (p : option Config.Profile) (name : string) :
  let enabled := Config.GetEnabledTools tc p in
  (mapBool enabled name = true <->
   exists def, definesTool tc name def /\ profileAllows p name def) /\
  mapGet enabled name <> Some false /\
  ((forall def, ~ definesTool tc name def) -> mapGet enabled name = None) /\
  (forall (Tool D : Type) (Name : Tool -> string)
          (calls : list (Tool * option (Registry.Handler D))),
     Registry.IsEnabled (Registry.registered Name (Some enabled) calls) name
     = mapBool enabled name).
Proof.
  cbv zeta.
  assert (Hspec :
    (mapBool (Config.GetEnabledTools tc p) name = true <->
     exists def, definesTool tc name def /\ profileAllows p name def) /\
    mapGet (Config.GetEnabledTools tc p) name <> Some false).
  { destruct p as [p|]; unfold Config.GetEnabledTools.
    - destruct (enableLoop_spec
                  (Config.shouldEnable p (Config.overrideSet (Config.Enable p))
                                       (Config.overrideSet (Config.Disable p)))
                  tc name) as [H1 H2].
      split; [|exact H2]. rewrite H1.
      split; intros [d [Ha Hb]]; exists d; (split; [exact Ha|]);
        now apply shouldEnable_profileAllows.
    - destruct (enableLoop_spec (fun _ toolDef => Config.Enabled toolDef) tc name)
        as [H1 H2].
      split; [|exact H2]. exact H1. }
  destruct Hspec as [H1 H2]. repeat split.
  - apply H1.
  - apply H1.
  - exact H2.
  - intros Hnone.
    destruct (mapGet (Config.GetEnabledTools tc p) name) as [[|]|] eqn:E;
      [|congruence|reflexivity].
    exfalso. assert (Ht : mapBool (Config.GetEnabledTools tc p) name = true).
    { unfold mapBool. now rewrite E. }
    apply H1 in Ht. destruct Ht as [d [Hd _]]. exact (Hnone d Hd).
  - intros Tool D Name calls. unfold Registry.IsEnabled, Registry.registered.
    destruct (registered_from Name (Registry.New (Some (Config.GetEnabledTools tc p)))
                calls) as [_ He].
    { split; constructor. }
    rewrite He. reflexivity.
Qed.

(** ** Loading and validating the configuration *)

Lemma has_prefix_nonempty (s p : string) :
  Go.has_prefix s p = true -> p <> EmptyString -> String.eqb s "" = false.
Proof.
  intros H Hp. destruct s; [|reflexivity].
  destruct p; [congruence | discriminate].
Qed.

Lemma validate_unfold (fmt_q : string -> string) (c0 : Config.Config) :
  Config.Validate fmt_q c0 =
    if String.eqb (Config.AuthToken c0) "" then Some "DASH0_AUTH_TOKEN is required"
    else if String.eqb (Config.BaseURL c0) "" then
      Some "unable to determine base URL: set DASH0_REGION or DASH0_BASE_URL"
    else if negb (Go.has_prefix (Config.BaseURL c0) "https://") then
      Some ("base URL must use HTTPS: " ++ Config.BaseURL c0)%string
    else None.
Proof.
  unfold Config.Validate.
  destruct (String.eqb (Config.AuthToken c0) ""); [reflexivity|].
  destruct (String.eqb (Config.BaseURL c0) "") eqn:Eb; [reflexivity|].
  destruct (negb (Go.has_prefix (Config.BaseURL c0) "https://")); [reflexivity|].
  now destruct (String.eqb (Config.Region c0) Config.RegionEUWest1
                || String.eqb (Config.Region c0) Config.RegionUSEast1
                || String.eqb (Config.Region c0) Config.RegionUSWest2).
Qed.

Lemma validate_accepts (fmt_q : string -> string) (c : Config.Config) :
  Config.Validate fmt_q c = None <->
  Config.AuthToken c <> "" /\
  exists rest, Config.BaseURL c = ("https://" ++ rest)%string.
Proof.
  rewrite validate_unfold. split.
  - intros H.
    destruct (String.eqb (Config.AuthToken c) "") eqn:Et; [discriminate|].
    destruct (String.eqb (Config.BaseURL c) ""); [discriminate|].
    destruct (Go.has_prefix (Config.BaseURL c) "https://") eqn:Ep; [|discriminate].
    split; [now apply String.eqb_neq in Et | now apply has_prefix_spec in Ep].
  - intros [Ht Hp].
    apply String.eqb_neq in Ht. rewrite Ht.
    apply has_prefix_spec in Hp. rewrite Hp.
    rewrite (has_prefix_nonempty _ _ Hp) by discriminate. reflexivity.
Qed.

(** Validation of a configuration. [Validate] accepts exactly the
    configurations with a token and a base URL that starts with
    [https://]; the region plays no part, and of the four errors in the
    code only three can be returned (the invalid-region error sits behind
    a test for an empty base URL that has already failed). *)
Theorem config_validate (fmt_q : string -> string) (c : Config.Config) :
  (Config.Validate fmt_q c = None <->
   Config.AuthToken c <> "" /\
   exists rest, Config.BaseURL c = ("https://" ++ rest)%string) /\
  (Config.AuthToken c = "" ->
   Config.Validate fmt_q c = Some "DASH0_AUTH_TOKEN is required") /\
  (forall msg, Config.Validate fmt_q c = Some msg ->
     msg = "DASH0_AUTH_TOKEN is required" \/
     msg = "unable to determine base URL: set DASH0_REGION or DASH0_BASE_URL" \/
     msg = ("base URL must use HTTPS: " ++ Config.BaseURL c)%string) /\
  (forall c', Config.AuthToken c' = Config.AuthToken c ->
              Config.BaseURL c' = Config.BaseURL c ->
              Config.Validate fmt_q c' = Config.Validate fmt_q c).
Proof.
  split; [apply validate_accepts|]. split; [|split].
  - intros Ht. rewrite validate_unfold, Ht. reflexivity.
  - intros msg. rewrite validate_unfold.
    destruct (String.eqb (Config.AuthToken c) ""); [intros H; inversion H; auto|].
    destruct (String.eqb (Config.BaseURL c) ""); [intros H; inversion H; auto|].
    destruct (negb (Go.has_prefix (Config.BaseURL c) "https://"));
      [intros H; inversion H; auto | discriminate].
  - intros c' Ht Hb. now rewrite !validate_unfold, Ht, Hb.
Qed.

(** Loading from the environment. The token is [DASH0_AUTH_TOKEN], or
    [DASH0_TOKEN] when that is empty. A [DASH0_REGION] that starts with
    [https://] is itself the base URL, one that starts with [api.] is the
    base URL once [https://] is put before it, and both override
    [DASH0_BASE_URL]. Otherwise the region is [DASH0_REGION], or
    [eu-west-1] when that is empty; a [DASH0_BASE_URL] that is set is the
    base URL; without it the base URL is derived from the region, and
    then the loaded configuration validates exactly when a token is set
    and the region is one of the three named ones. *)
Theorem config_load (rt : GoRuntime) (trimFunc trimRightFunc fmt_q : string -> string)
    (env : string -> string) :
  let cfg := Config.Load rt trimFunc trimRightFunc env in
  let region :=
    if String.eqb (env "DASH0_REGION") "" then "eu-west-1" else env "DASH0_REGION" in
  Config.AuthToken cfg
    = (if String.eqb (env "DASH0_AUTH_TOKEN") "" then env "DASH0_TOKEN"
       else env "DASH0_AUTH_TOKEN") /\
  Config.Dataset cfg = env "DASH0_DATASET" /\
  (Go.has_prefix region "https://" = true -> Config.BaseURL cfg = region) /\
  (Go.has_prefix region "https://" = false -> Go.has_prefix region "api." = true ->
   Config.BaseURL cfg = ("https://" ++ region)%string) /\
  (Go.has_prefix region "https://" = false -> Go.has_prefix region "api." = false ->
   Config.Region cfg = region /\
   (env "DASH0_BASE_URL" <> "" -> Config.BaseURL cfg = env "DASH0_BASE_URL") /\
   (env "DASH0_BASE_URL" = "" ->
    (In region ["eu-west-1"; "us-east-1"; "us-west-2"] ->
     Config.BaseURL cfg = ("https://api." ++ region ++ ".aws.dash0.com")%string) /\
    (~ In region ["eu-west-1"; "us-east-1"; "us-west-2"] -> Config.BaseURL cfg = "") /\
    (Config.Validate fmt_q cfg = None <->
     Config.AuthToken cfg <> "" /\ In region ["eu-west-1"; "us-east-1"; "us-west-2"]))).
Proof.
  cbv zeta.
  assert (Hr : Config.coalesce [env "DASH0_REGION"; Config.RegionEUWest1]
               = if String.eqb (env "DASH0_REGION") "" then "eu-west-1"
                 else env "DASH0_REGION").
  { simpl. now destruct (String.eqb (env "DASH0_REGION") ""). }
  assert (Ht : Config.coalesce [env "DASH0_AUTH_TOKEN"; env "DASH0_TOKEN"]
               = if String.eqb (env "DASH0_AUTH_TOKEN") "" then env "DASH0_TOKEN"
                 else env "DASH0_AUTH_TOKEN").
  { simpl. destruct (String.eqb (env "DASH0_AUTH_TOKEN") ""); simpl; [|reflexivity].
    destruct (String.eqb (env "DASH0_TOKEN") "") eqn:E; [|reflexivity].
    apply String.eqb_eq in E. now rewrite E. }
  unfold Config.Load. rewrite Hr, Ht.
  set (region := if String.eqb (env "DASH0_REGION") "" then "eu-west-1"
                 else env "DASH0_REGION").
  set (token := if String.eqb (env "DASH0_AUTH_TOKEN") "" then env "DASH0_TOKEN"
                else env "DASH0_AUTH_TOKEN").
  destruct (Go.has_prefix region "https://") eqn:Hh.
  - rewrite orb_true_r. cbn [Config.BaseURL].
    rewrite (has_prefix_nonempty _ _ Hh) by discriminate.
    cbn [Config.AuthToken Config.Dataset Config.BaseURL].
    split; [reflexivity|]. split; [reflexivity|]. split; [reflexivity|].
    split; discriminate.
  - rewrite orb_false_r. destruct (Go.has_prefix region "api.") eqn:Ha.
    + cbn [Config.BaseURL].
      change (String.eqb ("https://" ++ region) "") with false.
      cbn [Config.AuthToken Config.Dataset Config.BaseURL].
      split; [reflexivity|]. split; [reflexivity|]. split; [discriminate|].
      split; [reflexivity | discriminate].
    + cbn [Config.BaseURL].
      destruct (String.eqb (env "DASH0_BASE_URL") "") eqn:Eb;
        cbn [Config.AuthToken Config.Dataset Config.BaseURL Config.Region].
      * apply String.eqb_eq in Eb.
        assert (Hd : (In region ["eu-west-1"; "us-east-1"; "us-west-2"] ->
                      Config.deriveBaseURL
                        {| Config.BaseURL := env "DASH0_BASE_URL";
                           Config.AuthToken := token;
                           Config.Region := region;
                           Config.Dataset := env "DASH0_DATASET";
                           Config.Debug :=
                             Config.parseBool rt trimFunc trimRightFunc
                               (env "DASH0_DEBUG") |}
                      = ("https://api." ++ region ++ ".aws.dash0.com")%string) /\
                     (~ In region ["eu-west-1"; "us-east-1"; "us-west-2"] ->
                      Config.deriveBaseURL
                        {| Config.BaseURL := env "DASH0_BASE_URL";
                           Config.AuthToken := token;
                           Config.Region := region;
                           Config.Dataset := env "DASH0_DATASET";
                           Config.Debug :=
                             Config.parseBool rt trimFunc trimRightFunc
                               (env "DASH0_DEBUG") |} = "")).
        { unfold Config.deriveBaseURL. cbn [Config.Region].
          unfold Config.RegionEUWest1, Config.RegionUSEast1, Config.RegionUSWest2.
          split.
          - intros [<- | [<- | [<- | []]]]; reflexivity.
          - intros Hn.
            destruct (String.eqb region "eu-west-1") eqn:E1;
              [apply String.eqb_eq in E1; exfalso; apply Hn; rewrite E1; simpl; auto|].
            destruct (String.eqb region "us-east-1") eqn:E2;
              [apply String.eqb_eq in E2; exfalso; apply Hn; rewrite E2; simpl; auto|].
            destruct (String.eqb region "us-west-2") eqn:E3;
              [apply String.eqb_eq in E3; exfalso; apply Hn; rewrite E3; simpl; auto|].
            reflexivity. }
        destruct Hd as [Hd1 Hd2].
        split; [reflexivity|]. split; [reflexivity|].
        split; [discriminate|]. split; [discriminate|].
        intros _ _. split; [reflexivity|]. split; [congruence|].
        intros _. split; [exact Hd1|]. split; [exact Hd2|].
        rewrite validate_accepts.
        cbn [Config.AuthToken Config.BaseURL]. split.
        -- intros [H1 [rest H2]]. split; [exact H1|].
           destruct (in_dec string_dec region ["eu-west-1"; "us-east-1"; "us-west-2"])
             as [Hin | Hnin]; [exact Hin|].
           rewrite (Hd2 Hnin) in H2. discriminate.
        -- intros [H1 H2]. split; [exact H1|]. rewrite (Hd1 H2).
           now exists ("api." ++ region ++ ".aws.dash0.com")%string.
      * apply String.eqb_neq in Eb.
        split; [reflexivity|]. split; [reflexivity|].
        split; [discriminate|]. split; [discriminate|].
        intros _ _. split; [reflexivity|]. split; [reflexivity|].
        intros Hempty. contradiction.
Qed.

(** ** Reading a flag *)

Lemma trimLeading_split (s : string) :
  exists pre, s = (pre ++ Config.trimLeading s)%string /\ onlySpaces pre = true /\
              match Config.trimLeading s with
              | EmptyString => True
              | String c _ => Config.is_ascii_space c = false
              end.
Proof.
  induction s as [ | c s IH]; simpl.
  - now exists EmptyString.
  - destruct (Config.is_ascii_space c) eqn:E.
    + destruct IH as [pre [H1 [H2 H3]]]. exists (String c pre). simpl.
      rewrite E, H2. repeat split; [now f_equal | exact H3].
    + exists EmptyString. now repeat split.
Qed.

Lemma trimTrailing_split (s : string) :
  exists post, s = (Config.trimTrailing s ++ post)%string /\ onlySpaces post = true.
Proof.
  induction s as [ | c s IH]; simpl.
  - now exists EmptyString.
  - destruct IH as [post [H1 H2]].
    destruct (Config.trimTrailing s) as [ | k kept] eqn:Ek.
    + destruct (Config.is_ascii_space c) eqn:E.
      * exists (String c post). simpl. rewrite E, H2. simpl in H1. now subst.
      * exists post. simpl. simpl in H1. now subst.
    + exists post. split; [|exact H2]. simpl. now rewrite H1 at 1.
Qed.

Lemma trimLeading_app (pre x : string) :
  onlySpaces pre = true ->
  Config.trimLeading (pre ++ x) = Config.trimLeading x.
Proof.
  induction pre as [ | c pre IH]; simpl; [reflexivity|].
  intros H. apply andb_true_iff in H. destruct H as [H1 H2].
  rewrite H1. now apply IH.
Qed.

Lemma trimTrailing_spaces (post : string) :
  onlySpaces post = true -> Config.trimTrailing post = EmptyString.
Proof.
  induction post as [ | c post IH]; simpl; [reflexivity|].
  intros H. apply andb_true_iff in H. destruct H as [H1 H2].
  now rewrite (IH H2), H1.
Qed.

Lemma trimTrailing_app (w post : string) :
  onlySpaces post = true ->
  Config.trimTrailing (w ++ post) = Config.trimTrailing w.
Proof.
  intros H. induction w as [ | c w IH]; simpl.
  - now apply trimTrailing_spaces.
  - now rewrite IH.
Qed.

Lemma trimTrailing_id (w : string) (c : ascii) :
  Config.lastByte w = Some c -> Config.is_ascii_space c = false ->
  Config.trimTrailing w = w.
Proof.
  induction w as [ | a w IH]; simpl; [discriminate|].
  destruct w as [ | b w].
  - intros H Hc. inversion H. subst. simpl. now rewrite Hc.
  - intros H Hc. rewrite (IH H Hc). reflexivity.
Qed.

Lemma all_ascii_app (a b : string) :
  Go.all_ascii (a ++ b) = Go.all_ascii a && Go.all_ascii b.
Proof.
  induction a as [ | c a IH]; simpl; [reflexivity|].
  now rewrite IH, andb_assoc.
Qed.

Lemma all_ascii_first (s : string) :
  Go.all_ascii s = true -> Config.startsNonASCII s = false.
Proof.
  unfold Config.startsNonASCII. destruct s as [ | c s]; simpl; [reflexivity|].
  intros H. apply andb_true_iff in H. destruct H as [H _]. now rewrite H.
Qed.

Lemma all_ascii_last (s : string) :
  Go.all_ascii s = true -> Config.endsNonASCII s = false.
Proof.
  unfold Config.endsNonASCII. induction s as [ | c s IH]; [reflexivity|].
  intros H. simpl in H. apply andb_true_iff in H. destruct H as [H1 H2].
  destruct s as [ | b s]; [simpl; now rewrite H1|].
  change (Config.lastByte (String c (String b s))) with (Config.lastByte (String b s)).
  now apply IH.
Qed.

(** On ASCII input [TrimSpace] takes its fast path. *)
Lemma TrimSpace_ascii (trimFunc trimRightFunc : string -> string) (s : string) :
  Go.all_ascii s = true ->
  Config.TrimSpace trimFunc trimRightFunc s
  = Config.trimTrailing (Config.trimLeading s) /\
  Go.all_ascii (Config.trimTrailing (Config.trimLeading s)) = true.
Proof.
  intros Hs. unfold Config.TrimSpace.
  destruct (trimLeading_split s) as [pre [H1 _]].
  destruct (trimTrailing_split (Config.trimLeading s)) as [post [H2 _]].
  assert (Ha : Go.all_ascii (Config.trimLeading s) = true).
  { rewrite H1, all_ascii_app in Hs. now apply andb_true_iff in Hs. }
  assert (Hb : Go.all_ascii (Config.trimTrailing (Config.trimLeading s)) = true).
  { rewrite H2, all_ascii_app in Ha. now apply andb_true_iff in Ha. }
  now rewrite (all_ascii_first _ Ha), (all_ascii_last _ Hb).
Qed.

Lemma sameLetter_space (a b : ascii) :
  sameLetter a b -> Config.is_ascii_space a = Config.is_ascii_space b.
Proof.
  intros [-> | [[U E] | [U E]]]; [reflexivity | |];
    apply is_upper_bounds in U; unfold Config.is_ascii_space; cbv zeta;
    rewrite E;
    repeat match goal with
           | |- context [(?x <=? ?y)%nat] =>
               destruct (Nat.leb_spec x y); try lia
           | |- context [(?x =? ?y)%nat] =>
               destruct (Nat.eqb_spec x y); try lia
           end; reflexivity.
Qed.

Lemma lower_one (w : string) :
  Go.map_bytes Go.lower_byte w = "1" -> w = "1".
Proof.
  destruct w as [ | a [ | b w]]; simpl; try discriminate.
  intros H. injection H as Ha.
  unfold Go.lower_byte in Ha. destruct (Go.is_upper a) eqn:U; [|now subst].
  apply is_upper_bounds in U. apply (f_equal nat_of_ascii) in Ha.
  rewrite nat_ascii_embedding in Ha by lia.
  change (nat_of_ascii "1") with 49%nat in Ha. lia.
Qed.

(** What the trimmed text of a truthy word is: the word itself. *)
Lemma truthy_trim (w post : string) :
  truthy w -> onlySpaces post = true ->
  Config.trimTrailing (Config.trimLeading (w ++ post)) = w.
Proof.
  intros Hw Hpost.
  assert (Hends : exists a rest c, w = String a rest /\
                    Config.is_ascii_space a = false /\
                    Config.lastByte w = Some c /\ Config.is_ascii_space c = false).
  { destruct Hw as [H | [-> | H]].
    - inversion H as [ | a1 b1 s1 t1 L1 H1]; subst.
      inversion H1 as [ | a2 b2 s2 t2 L2 H2]; subst.
      inversion H2 as [ | a3 b3 s3 t3 L3 H3]; subst.
      inversion H3 as [ | a4 b4 s4 t4 L4 H4]; subst.
      inversion H4; subst.
      exists a1, (String a2 (String a3 (String a4 "")))%string, a4.
      repeat split; first [now rewrite (sameLetter_space _ _ L1)
                          | now rewrite (sameLetter_space _ _ L4)].
    - exists "1"%char, EmptyString, "1"%char. now repeat split.
    - inversion H as [ | a1 b1 s1 t1 L1 H1]; subst.
      inversion H1 as [ | a2 b2 s2 t2 L2 H2]; subst.
      inversion H2 as [ | a3 b3 s3 t3 L3 H3]; subst.
      inversion H3; subst.
      exists a1, (String a2 (String a3 ""))%string, a3.
      repeat split; first [now rewrite (sameLetter_space _ _ L1)
                          | now rewrite (sameLetter_space _ _ L3)]. }
  destruct Hends as [a [rest [c [Hw' [Ha [Hl Hc]]]]]].
  assert (Hlead : Config.trimLeading (w ++ post) = (w ++ post)%string).
  { rewrite Hw'. simpl. now rewrite Ha. }
  rewrite Hlead, (trimTrailing_app _ _ Hpost). exact (trimTrailing_id _ _ Hl Hc).
Qed.

(** Reading a flag. On a value made of ASCII bytes [parseBool] is true
    exactly when the value, with ASCII white space (tab, line feed,
    vertical tab, form feed, carriage return, space) taken off both
    ends, is [true] or [yes] in any mix of upper and lower case, or [1];
    an empty or unset variable is false. *)
Theorem parseBool_ascii (rt : GoRuntime) (trimFunc trimRightFunc : string -> string)
    (s : string) (Hs : Go.all_ascii s = true) :
  (Config.parseBool rt trimFunc trimRightFunc s = true <->
   exists pre w post,
     s = (pre ++ w ++ post)%string /\
     onlySpaces pre = true /\ onlySpaces post = true /\ truthy w) /\
  (onlySpaces s = true -> Config.parseBool rt trimFunc trimRightFunc s = false).
Proof.
  destruct (TrimSpace_ascii trimFunc trimRightFunc s Hs) as [Ht Ha].
  assert (Hp : Config.parseBool rt trimFunc trimRightFunc s
               = let w := Go.map_bytes Go.lower_byte
                            (Config.trimTrailing (Config.trimLeading s)) in
                 String.eqb w "true" || String.eqb w "1" || String.eqb w "yes").
  { unfold Config.parseBool. rewrite Ht. unfold ToLower. now rewrite Ha. }
  split.
  - rewrite Hp. cbv zeta. split.
    + intros H.
      destruct (trimLeading_split s) as [pre [H1 [H2 _]]].
      destruct (trimTrailing_split (Config.trimLeading s)) as [post [H3 H4]].
      exists pre, (Config.trimTrailing (Config.trimLeading s)), post.
      split; [now rewrite <- H3|]. split; [exact H2|]. split; [exact H4|].
      unfold truthy.
      apply orb_true_iff in H. destruct H as [H | H];
        [apply orb_true_iff in H; destruct H as [H | H]|];
        apply String.eqb_eq in H.
      * left. now apply map_bytes_sameText.
      * right. left. now apply lower_one.
      * right. right. now apply map_bytes_sameText.
    + intros [pre [w [post [-> [H1 [H2 H3]]]]]].
      rewrite (trimLeading_app _ _ H1), (truthy_trim _ _ H3 H2).
      destruct H3 as [H | [-> | H]].
      * apply map_bytes_sameText in H. rewrite H. reflexivity.
      * reflexivity.
      * apply map_bytes_sameText in H. rewrite H. reflexivity.
  - intros Hsp. rewrite Hp.
    assert (He : Config.trimLeading s = EmptyString).
    { clear - Hsp. induction s as [ | c s IH]; simpl; [reflexivity|].
      simpl in Hsp. apply andb_true_iff in Hsp. destruct Hsp as [H1 H2].
      rewrite H1. now apply IH. }
    rewrite He. reflexivity.
Qed.

Lemma parseBool_ascii_witness :
  Go.all_ascii " Yes " = true /\
  (Config.parseBool (exampleRuntime []) (fun s => s) (fun s => s) " Yes " = true <->
   exists pre w post,
     " Yes " = (pre ++ w ++ post)%string /\
     onlySpaces pre = true /\ onlySpaces post = true /\ truthy w).
Proof.
  split; [reflexivity|].
  exact (proj1 (parseBool_ascii (exampleRuntime []) (fun s => s) (fun s => s)
                  " Yes " eq_refl)).
Defined.

(** ** Results of the client and of the handlers *)

Lemma request_wellformed (rt : GoRuntime) (x : Client.Exchange) :
  wellFormedResult (Client.Request rt x).
Proof.
  unfold wellFormedResult.
  destruct x as [err | err | err | code status body]; simpl;
    try (split; [split; discriminate | intros e H; inversion H; simpl; lia]).
  destruct (code >=? 400) eqn:E; simpl.
  - split; [split; discriminate | intros e H; inversion H; simpl; lia].
  - split; [split; reflexivity | discriminate].
Qed.

Lemma request_success (rt : GoRuntime) (x : Client.Exchange) :
  Client.Success (Client.Request rt x) = true <-> answeredOk x.
Proof.
  unfold answeredOk.
  destruct x as [err | err | err | code status body]; simpl;
    try (split; [discriminate | intros [c [s [b [H _]]]]; discriminate]).
  destruct (code >=? 400) eqn:E; simpl.
  - split; [discriminate | intros [c [s [b [H Hc]]]]; inversion H; subst; lia].
  - split; [intros _; exists code, status, body; split; [reflexivity | lia]
           | reflexivity].
Qed.

(** Every result is well formed. Whatever the upstream does, the result
    of [Request], of the two send handlers, of the span query handler
    and of a log query handler call that returns has [Success] set
    exactly when [Error] is nil, and an error status of 400 or more; and
    what the registry's [Call] returns over handlers that keep this
    (their result, or its own 404 and 403 errors) keeps it too. *)
Theorem results_wellformed (rt : GoRuntime) :
  (forall x, wellFormedResult (Client.Request rt x)) /\
  (forall args upstream, wellFormedResult (Logs.PostLogsHandler rt args upstream)) /\
  (forall args upstream, wellFormedResult (Spans.PostSpansHandler rt args upstream)) /\
  (forall now args upstream,
     wellFormedResult (Spans.QuerySpansHandler rt now args upstream)) /\
  (forall now args upstream r,
     Logs.QueryLogsHandler rt now args upstream = Returns r -> wellFormedResult r) /\
  (forall (Tool D : Type) (r : Registry.Registry Tool D) name args res,
     (forall n def h a, mapGet (Registry.tools r) n = Some def ->
                        Registry.DefHandler def = Some h -> wellFormedResult (h a)) ->
     Registry.Call r name args = Returns res -> wellFormedResult res).
Proof.
  assert (Herr : forall (D : Type) code msg, 400 <= code ->
                   wellFormedResult (@Client.ErrorResult D code msg)).
  { intros D code msg Hc. split; simpl; [split; discriminate|].
    intros e H. inversion H. simpl. exact Hc. }
  split; [apply request_wellformed|].
  split; [|split; [|split; [|split]]].
  - intros args upstream. unfold Logs.PostLogsHandler.
    destruct (lookup args "body"); [apply request_wellformed | apply Herr; lia].
  - intros args upstream. unfold Spans.PostSpansHandler.
    destruct (lookup args "body"); [apply request_wellformed | apply Herr; lia].
  - intros now args upstream. unfold Spans.QuerySpansHandler.
    pose proof (request_wellformed rt (upstream (Spans.buildRequest rt now args)))
      as [H1 H2].
    unfold Client.Post.
    destruct (Client.Success (Client.Request rt
                (upstream (Spans.buildRequest rt now args)))) eqn:E; simpl.
    + split; simpl; [split; reflexivity | discriminate].
    + split; simpl; [|exact H2]. split; [discriminate|].
      intros Hn. apply H1 in Hn. discriminate.
  - intros now args upstream r. unfold Logs.QueryLogsHandler.
    pose proof (request_wellformed rt (upstream (Logs.buildRequest rt now args)))
      as [H1 H2].
    unfold Client.Post.
    destruct (Client.Success (Client.Request rt
                (upstream (Logs.buildRequest rt now args)))) eqn:E; simpl.
    + destruct (Logs.applyLimit _ _); [|discriminate].
      intros H. inversion H. split; simpl; [split; reflexivity | discriminate].
    + intros H. inversion H. split; simpl; [|exact H2]. split; [discriminate|].
      intros Hn. apply H1 in Hn. discriminate.
  - intros Tool D r name args res Hh. unfold Registry.Call. cbv zeta.
    destruct (mapGet (Registry.tools r) name) as [def|] eqn:Eg.
    + destruct (negb (Registry.passes r name)).
      * intros H. inversion H. apply Herr. lia.
      * destruct (Registry.DefHandler def) as [h|] eqn:Ed; [|discriminate].
        intros H. inversion H. exact (Hh name def h args Eg Ed).
    + intros H. inversion H. apply Herr. lia.
Qed.

(** Sending. Each of the two send handlers succeeds exactly when the
    arguments hold a [body] key (a JSON null counts) and the upstream
    answers the POST of that body with a status below 400; the result
    carries the parsed answer, and for a status of 400 or more the error
    read from it. Without the key the result is the error 400 [body is
    required], whatever the upstream would do: it is not contacted. *)
Theorem send_handlers (rt : GoRuntime) (args : object)
    (upstream : json -> Client.Exchange) :
  Forall
    (fun handler : object -> (json -> Client.Exchange) -> Client.ToolResult json =>
       let r := handler args upstream in
       (Client.Success r = true <->
        exists body, lookup args "body" = Some body /\ answeredOk (upstream body)) /\
       (forall body statusCode status respBody,
          lookup args "body" = Some body ->
          upstream body = Client.Responded statusCode status respBody ->
          Client.Data r = Some (Client.parseBody rt respBody) /\
          (400 <= statusCode ->
           Client.Error r
           = Some {| Client.StatusCode := statusCode;
                     Client.Title := status;
                     Client.Detail :=
                       Client.extractErrorDetail (Client.parseBody rt respBody) |})) /\
       (lookup args "body" = None ->
        forall other : json -> Client.Exchange,
          handler args other = Client.ErrorResult 400 "body is required"))
    [Logs.PostLogsHandler rt; Spans.PostSpansHandler rt].
Proof.
  assert (H : forall handler,
    handler = (fun (args : object) (upstream : json -> Client.Exchange) =>
                 match lookup args "body" with
                 | None => Client.ErrorResult 400 "body is required"
                 | Some body => Client.Request rt (upstream body)
                 end) ->
    let r := handler args upstream in
    (Client.Success r = true <->
     exists body, lookup args "body" = Some body /\ answeredOk (upstream body)) /\
    (forall body statusCode status respBody,
       lookup args "body" = Some body ->
       upstream body = Client.Responded statusCode status respBody ->
       Client.Data r = Some (Client.parseBody rt respBody) /\
       (400 <= statusCode ->
        Client.Error r
        = Some {| Client.StatusCode := statusCode;
                  Client.Title := status;
                  Client.Detail :=
                    Client.extractErrorDetail (Client.parseBody rt respBody) |})) /\
    (lookup args "body" = None ->
     forall other : json -> Client.Exchange,
       handler args other = Client.ErrorResult 400 "body is required")).
  { intros handler ->. cbv zeta beta. split; [|split].
    - destruct (lookup args "body") as [body|].
      + rewrite request_success. split.
        * intros H. now exists body.
        * intros [b [Hb H]]. inversion Hb. now subst.
      + simpl. split; [discriminate | intros [b [Hb _]]; discriminate].
    - intros body code status text Hb Hx. rewrite Hb, Hx. simpl.
      destruct (code >=? 400) eqn:E; simpl; split; try reflexivity; lia.
    - intros Hn other. now rewrite Hn. }
  constructor; [apply H; reflexivity|].
  constructor; [apply H; reflexivity|].
  constructor.
Qed.

(** A failed query. When the upstream does not answer a query with a
    status below 400, both query handlers return (the log handler does
    not reach its slice expression) and pass on what the client reported:
    the same error, and the parsed upstream payload if there was an
    answer. No client-side argument changes this result. *)
Theorem query_handlers_failure (rt : GoRuntime) (now : Z) (args : object) :
  (forall upstream : Logs.QueryLogsRequest -> Client.Exchange,
     let res := Client.Request rt (upstream (Logs.buildRequest rt now args)) in
     ~ answeredOk (upstream (Logs.buildRequest rt now args)) ->
     Logs.QueryLogsHandler rt now args upstream
     = Returns {| Client.Success := false;
                  Client.Data := option_map Logs.UpstreamData (Client.Data res);
                  Client.Error := Client.Error res |} /\
     Client.Error res <> None) /\
  (forall upstream : Spans.QuerySpansRequest -> Client.Exchange,
     let res := Client.Request rt (upstream (Spans.buildRequest rt now args)) in
     ~ answeredOk (upstream (Spans.buildRequest rt now args)) ->
     Spans.QuerySpansHandler rt now args upstream
     = {| Client.Success := false;
          Client.Data := option_map Spans.UpstreamData (Client.Data res);
          Client.Error := Client.Error res |} /\
     Client.Error res <> None).
Proof.
  split; intros upstream; cbv zeta; intros Hno.
  - unfold Logs.QueryLogsHandler, Client.Post.
    pose proof (request_success rt (upstream (Logs.buildRequest rt now args))) as Hs.
    pose proof (request_wellformed rt (upstream (Logs.buildRequest rt now args)))
      as [Hw _].
    destruct (Client.Success (Client.Request rt
                (upstream (Logs.buildRequest rt now args)))) eqn:E.
    + exfalso. apply Hno. now apply Hs.
    + simpl. split; [reflexivity|]. intros Hn. apply Hw in Hn. discriminate.
  - unfold Spans.QuerySpansHandler, Client.Post.
    pose proof (request_success rt (upstream (Spans.buildRequest rt now args))) as Hs.
    pose proof (request_wellformed rt (upstream (Spans.buildRequest rt now args)))
      as [Hw _].
    destruct (Client.Success (Client.Request rt
                (upstream (Spans.buildRequest rt now args)))) eqn:E.
    + exfalso. apply Hno. now apply Hs.
    + simpl. split; [reflexivity|]. intros Hn. apply Hw in Hn. discriminate.
Qed.

(** ** Attribute maps *)

Lemma assign_mapSet (result : attrs) (key : string) (v : AttrValue) :
  assign result key v = mapSet result key v.
Proof.
  induction result as [ | [k old] result IH]; simpl; [reflexivity|].
  destruct (String.eqb k key); [reflexivity | now rewrite IH].
Qed.

Lemma binds_functional (attr : json) (k k' : string) (v v' : AttrValue) :
  binds attr k v -> binds attr k' v' -> k = k' /\ v = v'.
Proof.
  intros [m [-> [H1 H2]]] [m' [E [H1' H2']]]. inversion E. subst m'.
  split; congruence.
Qed.

Lemma logAttrStep_cases (result : attrs) (attr : json) :
  (exists k v, binds attr k v /\ Logs.logAttrStep result attr = mapSet result k v) \/
  ((forall k v, ~ binds attr k v) /\ Logs.logAttrStep result attr = result).
Proof.
  unfold Logs.logAttrStep.
  destruct attr as [ | | | | | m];
    try (right; split; [intros k v [m [E _]]; discriminate | reflexivity]).
  simpl asMap. cbv iota.
  destruct (asString (index m "key")) as [k|] eqn:Ek.
  - destruct (resolveValue m) as [v|] eqn:Ev.
    + left. exists k, v. split; [now exists m | apply assign_mapSet].
    + right. split; [|reflexivity].
      intros k' v' [m' [E [_ H]]]. inversion E. subst m'. congruence.
  - right. split; [|reflexivity].
    intros k' v' [m' [E [H _]]]. inversion E. subst m'. congruence.
Qed.

Lemma spanAttrStep_cases (result : attrs) (attr : json) :
  (exists k v, binds attr k v /\ Spans.interesting k = true /\
               Spans.spanAttrStep result attr = mapSet result k v) \/
  (((forall k v, ~ binds attr k v) \/
    (exists k v, binds attr k v /\ Spans.interesting k = false)) /\
   Spans.spanAttrStep result attr = result).
Proof.
  unfold Spans.spanAttrStep.
  destruct attr as [ | | | | | m];
    try (right; split; [left; intros k v [m [E _]]; discriminate | reflexivity]).
  simpl asMap. cbv iota.
  destruct (asString (index m "key")) as [k|] eqn:Ek.
  - destruct (resolveValue m) as [v|] eqn:Ev.
    + destruct (Spans.interesting k) eqn:Ei.
      * left. exists k, v. split; [now exists m|]. split; [exact Ei | apply assign_mapSet].
      * right. split; [|reflexivity]. right. exists k, v. split; [now exists m | exact Ei].
    + right. split; [|now destruct (Spans.interesting k)].
      left. intros k' v' [m' [E [_ H]]]. inversion E. subst m'. congruence.
  - right. split; [|reflexivity].
    left. intros k' v' [m' [E [H _]]]. inversion E. subst m'. congruence.
Qed.

Lemma logAttr_fold_NoDup (l : list json) (acc : attrs) :
  NoDup (map fst acc) -> NoDup (map fst (fold_left Logs.logAttrStep l acc)).
Proof.
  revert acc. induction l as [ | a l IH]; intros acc H; simpl; [exact H|].
  apply IH. destruct (logAttrStep_cases acc a) as [[k [v [_ ->]]] | [_ ->]];
    [now apply mapSet_NoDup | exact H].
Qed.

Lemma spanAttr_fold_NoDup (l : list json) (acc : attrs) :
  NoDup (map fst acc) -> NoDup (map fst (fold_left Spans.spanAttrStep l acc)).
Proof.
  revert acc. induction l as [ | a l IH]; intros acc H; simpl; [exact H|].
  apply IH. destruct (spanAttrStep_cases acc a) as [[k [v [_ [_ ->]]]] | [_ ->]];
    [now apply mapSet_NoDup | exact H].
Qed.

Section LastBinding.
Variable key : string.

Lemma last_binding_cons (a : json) (l : list json) (v : AttrValue) :
  (exists pre attr post,
     a :: l = (pre ++ attr :: post)%list /\ binds attr key v /\
     Forall (fun x => forall v', ~ binds x key v') post) <->
  (binds a key v /\ Forall (fun x => forall v', ~ binds x key v') l) \/
  (exists pre attr post,
     l = (pre ++ attr :: post)%list /\ binds attr key v /\
     Forall (fun x => forall v', ~ binds x key v') post).
Proof.
  split.
  - intros [pre [attr [post [E [Hb Hp]]]]]. destruct pre as [ | x pre]; simpl in E.
    + inversion E. subst. now left.
    + inversion E. subst. right. now exists pre, attr, post.
  - intros [[Hb Hp] | [pre [attr [post [E [Hb Hp]]]]]].
    + now exists [], a, l.
    + exists (a :: pre), attr, post. subst l. now repeat split.
Qed.

Lemma logAttr_fold_lookup (l : list json) (acc : attrs) (v : AttrValue) :
  mapGet (fold_left Logs.logAttrStep l acc) key = Some v <->
  (exists pre attr post,
     l = (pre ++ attr :: post)%list /\ binds attr key v /\
     Forall (fun x => forall v', ~ binds x key v') post) \/
  (mapGet acc key = Some v /\ Forall (fun x => forall v', ~ binds x key v') l).
Proof.
  revert acc. induction l as [ | a l IH]; intros acc; simpl.
  - split.
    + intros H. right. now split.
    + intros [[pre [attr [post [E _]]]] | [H _]]; [|exact H].
      destruct pre; discriminate.
  - rewrite IH, last_binding_cons.
    destruct (logAttrStep_cases acc a) as [[k [v0 [Hb ->]]] | [Hn ->]].
    + destruct (String.eqb k key) eqn:E.
      * apply String.eqb_eq in E. subst k. rewrite mapGet_mapSet_same. split.
        -- intros [H | [H1 H2]]; [left; now right|].
           inversion H1. subst v0. left. left. now split.
        -- intros [[[H1 H2] | H] | [_ H]].
           ++ right. split; [|exact H2].
              f_equal. exact (proj2 (binds_functional _ _ _ _ _ Hb H1)).
           ++ now left.
           ++ inversion H as [ | ? ? Ha _]. subst. exfalso. exact (Ha v0 Hb).
      * apply String.eqb_neq in E. rewrite mapGet_mapSet_other by exact E. split.
        -- intros [H | [H1 H2]]; [left; now right|].
           right. split; [exact H1|]. constructor; [|exact H2].
           intros v' Hb'. apply E. exact (proj1 (binds_functional _ _ _ _ _ Hb Hb')).
        -- intros [[[H1 H2] | H] | [H1 H2]].
           ++ exfalso. apply E. exact (proj1 (binds_functional _ _ _ _ _ Hb H1)).
           ++ now left.
           ++ right. split; [exact H1|]. now inversion H2.
    + split.
      * intros [H | [H1 H2]]; [left; now right|].
        right. split; [exact H1|]. constructor; [|exact H2]. intros v'. apply Hn.
      * intros [[[H1 H2] | H] | [H1 H2]].
        -- exfalso. exact (Hn _ _ H1).
        -- now left.
        -- right. split; [exact H1|]. now inversion H2.
Qed.

End LastBinding.

Lemma span_log_fold (l : list json) (accS accL : attrs) :
  (forall key, mapGet accS key
               = if Spans.interesting key then mapGet accL key else None) ->
  forall key, mapGet (fold_left Spans.spanAttrStep l accS) key
              = if Spans.interesting key
                then mapGet (fold_left Logs.logAttrStep l accL) key else None.
Proof.
  revert accS accL. induction l as [ | a l IH]; intros accS accL Hinv; simpl;
    [exact Hinv|].
  apply IH. intros key.
  destruct (spanAttrStep_cases accS a) as [[k [v [Hb [Hi ->]]]] | [Hc ->]];
    destruct (logAttrStep_cases accL a) as [[k' [v' [Hb' ->]]] | [Hn' ->]].
  - destruct (binds_functional _ _ _ _ _ Hb Hb') as [<- <-].
    destruct (String.eqb k key) eqn:E.
    + apply String.eqb_eq in E. subst key. now rewrite !mapGet_mapSet_same, Hi.
    + apply String.eqb_neq in E. rewrite !mapGet_mapSet_other by exact E. apply Hinv.
  - exfalso. exact (Hn' _ _ Hb).
  - destruct Hc as [Hn | [k [v [Hb Hi]]]]; [exfalso; exact (Hn _ _ Hb')|].
    destruct (binds_functional _ _ _ _ _ Hb Hb') as [<- <-].
    destruct (String.eqb k key) eqn:E.
    + apply String.eqb_eq in E. subst key. rewrite Hi. rewrite Hinv, Hi. reflexivity.
    + apply String.eqb_neq in E. rewrite mapGet_mapSet_other by exact E. apply Hinv.
  - apply Hinv.
Qed.

(** Attributes of a log record. The map [extractLogAttributes] builds
    holds [v] under [key] exactly when some entry of the record's
    [attributes] list binds [key] to [v] and no later entry binds [key]
    again: the last binding wins, and an entry that carries no usable
    value (no string under [key], no value object, an [intValue] that
    does not parse) neither adds nor removes anything. Each key occurs
    once; a record whose [attributes] is missing or not a list has no
    attributes. *)
Theorem log_attributes_last_wins (logMap : object) (key : string) (v : AttrValue) :
  let attrList :=
    match asSlice (index logMap "attributes") with
    | Some l => l
    | None => []
    end in
  (mapGet (Logs.extractLogAttributes logMap) key = Some v <->
   exists pre attr post,
     attrList = (pre ++ attr :: post)%list /\ binds attr key v /\
     Forall (fun later => forall v', ~ binds later key v') post) /\
  NoDup (map fst (Logs.extractLogAttributes logMap)) /\
  (asSlice (index logMap "attributes") = None ->
   Logs.extractLogAttributes logMap = []).
Proof.
  cbv zeta. unfold Logs.extractLogAttributes.
  destruct (asSlice (index logMap "attributes")) as [l|].
  - split; [|split].
    + rewrite logAttr_fold_lookup. split.
      * intros [H | [H _]]; [exact H | discriminate].
      * intros H. now left.
    + apply logAttr_fold_NoDup. constructor.
    + discriminate.
  - split; [|split].
    + split; [discriminate|]. intros [pre [attr [post [E _]]]]. destruct pre; discriminate.
    + constructor.
    + reflexivity.
Qed.

(** Attributes of a span. [extractSpanAttributes] is the restriction of
    the log extraction to the fourteen keys of [interestingKeys]: under
    such a key it holds what [extractLogAttributes] would hold for the
    same object, under any other key nothing. So no other key is ever
    copied to a flat span, and a span has at most fourteen attributes. *)
Theorem span_attributes_allow_list (spanMap : object) (key : string) :
  mapGet (Spans.extractSpanAttributes spanMap) key
  = (if Spans.interesting key
     then mapGet (Logs.extractLogAttributes spanMap) key else None) /\
  (Spans.interesting key = true <-> In key Spans.interestingKeys) /\
  (In key (map fst (Spans.extractSpanAttributes spanMap)) ->
   In key Spans.interestingKeys) /\
  (List.length (Spans.extractSpanAttributes spanMap) <= 14)%nat.
Proof.
  assert (Hall : forall k, mapGet (Spans.extractSpanAttributes spanMap) k
                           = if Spans.interesting k
                             then mapGet (Logs.extractLogAttributes spanMap) k
                             else None).
  { intros k. unfold Spans.extractSpanAttributes, Logs.extractLogAttributes.
    destruct (asSlice (index spanMap "attributes")) as [l|].
    - apply span_log_fold. intros k0. simpl. now destruct (Spans.interesting k0).
    - simpl. now destruct (Spans.interesting k). }
  assert (Hkeys : forall k, In k (map fst (Spans.extractSpanAttributes spanMap)) ->
                            In k Spans.interestingKeys).
  { intros k Hin. apply mapGet_In_key in Hin. destruct Hin as [v Hv].
    rewrite Hall in Hv. destruct (Spans.interesting k) eqn:Ei; [|discriminate].
    now apply existsb_eqb_In. }
  split; [apply Hall|]. split; [apply existsb_eqb_In|]. split; [apply Hkeys|].
  assert (Hnd : NoDup (map fst (Spans.extractSpanAttributes spanMap))).
  { unfold Spans.extractSpanAttributes.
    destruct (asSlice (index spanMap "attributes")); [|constructor].
    apply spanAttr_fold_NoDup. constructor. }
  rewrite <- (length_map fst).
  change 14%nat with (List.length Spans.interestingKeys).
  apply NoDup_incl_length; [exact Hnd | exact Hkeys].
Qed.

(** ** Limits and durations of the query handlers *)

Lemma finalLimit_cases (rt : GoRuntime) (args : object) :
  (asFloat64 (index args "limit") = None ->
   Logs.finalLimit rt args = 100 /\ Spans.finalLimit rt args = 100) /\
  (forall l, index args "limit" = JNumber l -> (l <= 0)%Q ->
             Logs.finalLimit rt args = 100 /\ Spans.finalLimit rt args = 100) /\
  (forall l, index args "limit" = JNumber l -> (0 < l)%Q ->
             Go.trunc l <= Go.int_max ->
             Logs.finalLimit rt args = Z.min (Go.trunc l) 500 /\
             Spans.finalLimit rt args = Z.min (Go.trunc l) 200).
Proof.
  unfold Logs.finalLimit, Spans.finalLimit. split; [|split].
  - intros ->. now split.
  - intros l -> Hl. simpl. apply fgt_zero_false in Hl. rewrite Hl. now split.
  - intros l -> Hl Hfit. simpl.
    pose proof (trunc_nonneg l Hl) as Hpos.
    apply fgt_zero in Hl. rewrite Hl.
    rewrite float64_to_int_fits by (split; [unfold Go.int_min; lia | exact Hfit]).
    split.
    + destruct (Go.trunc l >? 500) eqn:E; lia.
    + destruct (Go.trunc l >? 200) eqn:E; lia.
Qed.

(** The limit argument. Both query handlers use 100 when [limit] is
    absent, not a number, or at most 0; else its integer part (when that
    fits an int64), capped at 500 for logs and at 200 for spans. The log
    request asks the upstream for twice the limit, the span request for
    the limit itself.
    A log query the upstream answers returns an envelope whose [count] is
    the number of its records and at most the limit, which it echoes. *)
Theorem query_limit (rt : GoRuntime) (args : object) :
  (asFloat64 (index args "limit") = None ->
   Logs.finalLimit rt args = 100 /\ Spans.finalLimit rt args = 100) /\
  (forall l, index args "limit" = JNumber l -> (l <= 0)%Q ->
             Logs.finalLimit rt args = 100 /\ Spans.finalLimit rt args = 100) /\
  (forall l, index args "limit" = JNumber l -> (0 < l)%Q ->
             Go.trunc l <= Go.int_max ->
             Logs.finalLimit rt args = Z.min (Go.trunc l) 500 /\
             Spans.finalLimit rt args = Z.min (Go.trunc l) 200) /\
  ((forall l, index args "limit" = JNumber l -> Go.trunc l <= Go.int_max) ->
   forall now,
     Logs.Limit (Logs.ReqPagination (Logs.buildRequest rt now args))
     = 2 * Logs.finalLimit rt args /\
     Spans.Limit (Spans.ReqPagination (Spans.buildRequest rt now args))
     = Spans.finalLimit rt args /\
     0 <= Logs.finalLimit rt args <= 500 /\
     forall upstream,
       answeredOk (upstream (Logs.buildRequest rt now args)) ->
       exists r e,
         Logs.QueryLogsHandler rt now args upstream = Returns r /\
         Client.Data r = Some (Logs.QueryData e) /\
         Logs.count e = Z.of_nat (List.length (Logs.logs e)) /\
         Logs.count e <= Logs.finalLimit rt args /\
         Logs.limit (Logs.query e) = Logs.finalLimit rt args).
Proof.
  destruct (finalLimit_cases rt args) as [H1 [H2 H3]].
  split; [exact H1|]. split; [exact H2|]. split; [exact H3|].
  intros Hfit now.
  pose proof (logs_finalLimit_bounds rt args Hfit) as Hb.
  split; [|split; [reflexivity|split; [exact Hb|]]].
  - cbn [Logs.buildRequest Logs.ReqPagination Logs.Limit].
    rewrite wrap64_id by (unfold Go.int_min, Go.int_max; lia). lia.
  - intros upstream Hok.
    apply request_success with (rt := rt) in Hok.
    destruct (Client.Data (Client.Request rt (upstream (Logs.buildRequest rt now args))))
      as [data|] eqn:Ed.
    + rewrite (logs_handler_envelope rt now args upstream data Hok Ed) by lia.
      eexists. eexists. split; [reflexivity|]. split; [reflexivity|].
      cbn [Logs.count Logs.logs Logs.query Logs.limit].
      split; [reflexivity|]. split; [|reflexivity].
      rewrite length_firstn. lia.
    + exfalso. revert Hok Ed.
      destruct (upstream (Logs.buildRequest rt now args)) as [e | e | e | c s b];
        simpl; try discriminate.
      destruct (c >=? 400); simpl; discriminate.
Qed.

Lemma finite_value_sign (s : bool) (m : positive) (e : Z) :
  if s then (Go.float_value (S754_finite s m e) <= 0)%Q
  else (0 <= Go.float_value (S754_finite s m e))%Q.
Proof.
  unfold Go.float_value. destruct s, e as [ | p | p]; cbv zeta.
  - unfold Qle. simpl. lia.
  - pose proof (Z.pow_pos_nonneg 2 (Zpos p) ltac:(lia) ltac:(lia)) as Hp.
    unfold Qle, inject_Z. cbn [Qnum Qden]. nia.
  - rewrite Qred_correct. unfold Qle. simpl. lia.
  - unfold Qle. simpl. lia.
  - pose proof (Z.pow_pos_nonneg 2 (Zpos p) ltac:(lia) ltac:(lia)) as Hp.
    unfold Qle, inject_Z. cbn [Qnum Qden]. nia.
  - rewrite Qred_correct. unfold Qle. simpl. lia.
Qed.

Lemma round_aux_sign (sx : bool) (mx ex : Z) (lx : location) :
  match binary_round_aux Go.prec Go.emax sx mx ex lx with
  | S754_finite s _ _ => s = sx
  | _ => True
  end.
Proof.
  unfold binary_round_aux.
  destruct (shr_fexp Go.prec Go.emax mx ex lx) as [mrs' e'].
  destruct (shr_fexp Go.prec Go.emax _ e' loc_Exact) as [mrs'' e''].
  destruct (shr_m mrs''); [exact I | | exact I].
  now destruct (e'' <=? Go.emax - Go.prec).
Qed.

Lemma float64_of_int_sign (i : Z) :
  match Go.float64_of_int i with
  | S754_finite s _ _ => s = (i <? 0)
  | _ => True
  end.
Proof.
  unfold Go.float64_of_int, binary_normalize.
  destruct i as [ | p | p]; [exact I | |]; unfold binary_round;
    destruct (shl_align _ _ _) as [mz ez]; apply round_aux_sign.
Qed.

Lemma durationMs_sign (startNano endNano : Z) :
  let d := Go.wrap64 (endNano - startNano) in
  (0 <= d -> (0 <= Spans.durationMs startNano endNano)%Q) /\
  (d <= 0 -> (Spans.durationMs startNano endNano <= 0)%Q).
Proof.
  cbv zeta. unfold Spans.durationMs.
  set (d := Go.wrap64 (endNano - startNano)).
  assert (Hy : exists my ey, Go.float64_of_int 1000000 = S754_finite false my ey).
  { vm_compute. eauto. }
  destruct Hy as [my [ey Hy]]. rewrite Hy.
  pose proof (float64_of_int_sign d) as Hx.
  destruct (Go.float64_of_int d) as [sx | sx | | sx mx ex] eqn:Ex;
    try (split; intros _; apply Qle_refl).
  unfold SFdiv.
  destruct (SFdiv_core_binary Go.prec Go.emax (Z.pos mx) ex (Z.pos my) ey)
    as [[mz ez] lz].
  pose proof (round_aux_sign (xorb sx false) mz ez lz) as Hr.
  destruct (binary_round_aux Go.prec Go.emax (xorb sx false) mz ez lz)
    as [s | s | | s m e]; try (split; intros _; apply Qle_refl).
  rewrite xorb_false_r in Hr. subst s sx.
  pose proof (finite_value_sign (d <? 0) m e) as Hv.
  split; intros Hd.
  - destruct (d <? 0) eqn:E; [lia | exact Hv].
  - destruct (d <? 0) eqn:E; [exact Hv|].
    assert (H0 : d = 0) by lia.
    rewrite H0 in Ex. vm_compute in Ex. discriminate.
Qed.

(** The minimum duration. With a [min_duration_ms] above 0 the span
    handler keeps exactly the flat spans whose duration is at least that
    number, in their order; with the argument absent, not a number, or at
    most 0 it keeps all of them. The duration computed from two
    nanosecond time stamps is never negative when the end is not before
    the start and never positive when it is not after; so a span that
    ends before it starts, like one whose time stamps are missing
    (duration 0), passes no positive minimum. *)
Theorem span_min_duration (args : object) (flat : list Spans.FlatSpan) :
  (forall d, index args "min_duration_ms" = JNumber d -> (0 < d)%Q ->
     Spans.durationFilter args flat
     = filter (fun span => Go.fge (Spans.DurationMs span) d) flat /\
     (forall span, In span (Spans.durationFilter args flat) <->
                   In span flat /\ (d <= Spans.DurationMs span)%Q) /\
     (forall span, In span (Spans.durationFilter args flat) ->
                   (0 < Spans.DurationMs span)%Q)) /\
  (asFloat64 (index args "min_duration_ms") = None ->
   Spans.durationFilter args flat = flat) /\
  (forall d, index args "min_duration_ms" = JNumber d -> (d <= 0)%Q ->
     Spans.durationFilter args flat = flat) /\
  subseq (Spans.durationFilter args flat) flat /\
  (forall startNano endNano,
     0 <= startNano <= Go.int_max -> 0 <= endNano <= Go.int_max ->
     (startNano <= endNano -> (0 <= Spans.durationMs startNano endNano)%Q) /\
     (endNano <= startNano ->
      (Spans.durationMs startNano endNano <= 0)%Q /\
      forall d, (0 < d)%Q -> Go.fge (Spans.durationMs startNano endNano) d = false)).
Proof.
  split; [|split; [|split; [|split]]].
  - intros d Hd Hpos.
    assert (Hf : Spans.durationFilter args flat
                 = filter (fun span => Go.fge (Spans.DurationMs span) d) flat).
    { apply spans_durationFilter_supplied; [exact Hd | now apply fgt_zero]. }
    assert (Hin : forall span, In span (Spans.durationFilter args flat) <->
                               In span flat /\ (d <= Spans.DurationMs span)%Q).
    { intros span. rewrite Hf, filter_In. unfold Go.fge.
      now rewrite Qle_bool_iff. }
    split; [exact Hf|]. split; [exact Hin|].
    intros span Hs. apply Hin in Hs. destruct Hs as [_ Hs].
    exact (Qlt_le_trans _ _ _ Hpos Hs).
  - apply spans_durationFilter_absent.
  - intros d Hd Hle. unfold Spans.durationFilter. rewrite Hd. simpl.
    apply fgt_zero_false in Hle. now rewrite Hle.
  - unfold Spans.durationFilter.
    destruct (asFloat64 (index args "min_duration_ms")) as [d|]; [|apply subseq_refl].
    destruct (Go.fgt d 0); [|apply subseq_refl].
    rewrite spans_keepLoop_filter. apply filter_subseq.
  - intros startNano endNano Hs He.
    pose proof (durationMs_sign startNano endNano) as Hsign. cbv zeta in Hsign.
    rewrite wrap64_id in Hsign by (unfold Go.int_min, Go.int_max in *; lia).
    destruct Hsign as [H1 H2]. split.
    + intros Hle. apply H1. lia.
    + intros Hle. assert (Hd : (Spans.durationMs startNano endNano <= 0)%Q)
        by (apply H2; lia).
      split; [exact Hd|]. intros d Hpos. unfold Go.fge.
      destruct (Qle_bool d (Spans.durationMs startNano endNano)) eqn:E; [|reflexivity].
      apply Qle_bool_iff in E. exfalso.
      apply (Qlt_irrefl 0). apply (Qlt_le_trans _ _ _ Hpos).
      exact (Qle_trans _ _ _ E Hd).
Qed.

(** ** A limit out of range *)

(** The slice expression of the log handler. Once the upstream has
    answered a log query with a status below 400, the handler panics
    exactly when its limit is negative (the slice bound [flatLogs[:limit]]
    is then out of range even for an empty list), and returns otherwise.
    The limit is negative only when the integer part of the [limit]
    argument exceeds the int64 range and the platform's conversion of it
    is negative. *)
Theorem logs_negative_limit_panics (rt : GoRuntime) (now : Z) (args : object)
    (upstream : Logs.QueryLogsRequest -> Client.Exchange)
    (Hok : answeredOk (upstream (Logs.buildRequest rt now args))) :
  (Logs.QueryLogsHandler rt now args upstream = Panics <->
   Logs.finalLimit rt args < 0) /\
  (Logs.finalLimit rt args < 0 ->
   exists l, index args "limit" = JNumber l /\
             Go.int_max < Go.trunc l /\
             Logs.finalLimit rt args = Go.wrap64 (int_unrepresentable rt l)).
Proof.
  split.
  - split.
    + intros Hp.
      destruct (Z.ltb_spec (Logs.finalLimit rt args) 0) as [Hneg | Hpos]; [exact Hneg|].
      destruct (logs_handler_returns rt now args upstream Hpos) as [r [Hr _]].
      congruence.
    + intros Hneg. apply request_success with (rt := rt) in Hok.
      unfold Logs.QueryLogsHandler, Client.Post. rewrite Hok. simpl negb. cbv iota.
      unfold Logs.applyLimit.
      match goal with
      | |- context [Z.of_nat (List.length ?l) >? _] =>
          destruct (Z.gtb_spec (Z.of_nat (List.length l)) (Logs.finalLimit rt args))
            as [Hgt | Hle]; [|lia]
      end.
      destruct (Z.ltb_spec (Logs.finalLimit rt args) 0); [reflexivity | lia].
  - unfold Logs.finalLimit.
    destruct (index args "limit") as [ | | l | | | ]; simpl; try lia.
    destruct (Go.fgt l 0) eqn:Hl; [|lia].
    apply fgt_zero in Hl. pose proof (trunc_nonneg l Hl) as Hpos.
    unfold float64_to_int, Go.in_int.
    destruct (Go.int_min <=? Go.trunc l) eqn:E1; [|unfold Go.int_min in E1; lia].
    destruct (Go.trunc l <=? Go.int_max) eqn:E2; simpl.
    + destruct (Go.trunc l >? 500); lia.
    + destruct (Go.wrap64 (int_unrepresentable rt l) >? 500) eqn:E5; [lia|].
      intros Hneg. exists l. split; [reflexivity|]. split; [lia | reflexivity].
Qed.

Lemma logs_negative_limit_panics_witness :
  let args := [("limit", JNumber (10000000000000000000 # 1))] in
  let upstream := fun _ : Logs.QueryLogsRequest => Client.Responded 200 "200 OK" "" in
  answeredOk (upstream (Logs.buildRequest (exampleRuntime []) 0 args)) /\
  Logs.finalLimit (exampleRuntime []) args < 0 /\
  Logs.QueryLogsHandler (exampleRuntime []) 0 args upstream = Panics.
Proof.
  cbv zeta.
  assert (Hok : answeredOk
                  ((fun _ : Logs.QueryLogsRequest => Client.Responded 200 "200 OK" "")
                     (Logs.buildRequest (exampleRuntime []) 0
                        [("limit", JNumber (10000000000000000000 # 1))]))).
  { exists 200, "200 OK", "". split; [reflexivity | lia]. }
  assert (Hneg : Logs.finalLimit (exampleRuntime [])
                   [("limit", JNumber (10000000000000000000 # 1))] < 0)
    by (vm_compute; reflexivity).
  split; [exact Hok|]. split; [exact Hneg|].
  exact (proj2 (proj1 (logs_negative_limit_panics (exampleRuntime []) 0
                         [("limit", JNumber (10000000000000000000 # 1))]
                         (fun _ => Client.Responded 200 "200 OK" "") Hok)) Hneg).
Defined.

(** ** Names of the tools file *)

Lemma allToolNames_category (defs : list (string * Config.ToolDef)) (acc : list string) :
  fold_left (fun names (entry : string * Config.ToolDef) => (names ++ [fst entry])%list)
            defs acc
  = (acc ++ map fst defs)%list.
Proof.
  revert acc. induction defs as [ | e defs IH]; intros acc; simpl.
  - now rewrite app_nil_r.
  - now rewrite IH, <- app_assoc.
Qed.

Lemma allToolNames_flat (tc : Config.ToolsConfig) :
  Config.AllToolNames tc
  = flat_map (fun category : string * list (string * Config.ToolDef) =>
                map fst (snd category)) (Config.Tools tc).
Proof.
  unfold Config.AllToolNames.
  assert (H : forall cats acc,
    fold_left
      (fun names (category : string * list (string * Config.ToolDef)) =>
         fold_left (fun names (entry : string * Config.ToolDef) =>
                      (names ++ [fst entry])%list) (snd category) names)
      cats acc
    = (acc ++ flat_map (fun category : string * list (string * Config.ToolDef) =>
                          map fst (snd category)) cats)%list).
  { induction cats as [ | c cats IH]; intros acc; simpl.
    - now rewrite app_nil_r.
    - now rewrite IH, allToolNames_category, <- app_assoc. }
  apply H.
Qed.

(** The names of the tools file. [AllToolNames] of the configuration
    lists exactly the names some category defines, once per definition
    (a name two categories define is listed twice), category by category
    in the order the map is visited; and every name [GetEnabledTools]
    enables, under any profile, is among them. *)
Theorem config_all_tool_names (tc : Config.ToolsConfig) :
  Config.AllToolNames tc
  = flat_map (fun category : string * list (string * Config.ToolDef) =>
                map fst (snd category)) (Config.Tools tc) /\
  (forall name, In name (Config.AllToolNames tc) <->
                exists def, definesTool tc name def) /\
  Z.of_nat (List.length (Config.AllToolNames tc))
  = fold_right (fun (category : string * list (string * Config.ToolDef)) n =>
                  Z.of_nat (List.length (snd category)) + n) 0 (Config.Tools tc) /\
  (forall p name, mapBool (Config.GetEnabledTools tc p) name = true ->
                  In name (Config.AllToolNames tc)).
Proof.
  assert (Hin : forall name, In name (Config.AllToolNames tc) <->
                             exists def, definesTool tc name def).
  { intros name. rewrite allToolNames_flat, in_flat_map. unfold definesTool. split.
    - intros [[c defs] [Hc Hn]]. simpl in Hn. apply in_map_iff in Hn.
      destruct Hn as [[n def] [Hfst Hd]]. simpl in Hfst. subst n.
      exists def, c, defs. now split.
    - intros [def [c [defs [Hc Hd]]]]. exists (c, defs). split; [exact Hc|].
      simpl. apply in_map_iff. now exists (name, def). }
  split; [apply allToolNames_flat|]. split; [exact Hin|]. split.
  - rewrite allToolNames_flat.
    induction (Config.Tools tc) as [ | c cats IH]; simpl; [reflexivity|].
    rewrite length_app, length_map, Nat2Z.inj_add, IH. reflexivity.
  - intros p name He. apply Hin.
    assert (Hspec : exists decide,
              Config.GetEnabledTools tc p = Config.enableLoop decide tc).
    { destruct p as [p|]; simpl; eauto. }
    destruct Hspec as [decide Hd]. rewrite Hd in He.
    apply (proj1 (enableLoop_spec decide tc name)) in He.
    destruct He as [d [Hdef _]]. now exists d.
Qed.
